(** * newapi-go: the Claude-protocol proxy over the NewAPI SDK

    A shallow embedding of the protocol translator
    ([proxy/converter], [proxy/server], [proxy/types]), of the SSE reader,
    the byte buffer, the retrying HTTP client and the error responses of
    [internal/transport], and of the chat service, its configuration and its
    stream processor ([services/chat]), followed by the properties the
    specification states about them and by further properties of the code.

    Conventions of the embedding:
    - a Go [string] is a sequence of bytes, here a [string] of [ascii];
    - a Go [int] / [time.Duration] is a [Z]; its 64 bits are not modelled, and
      a property that holds only while the arithmetic of the code stays
      within them carries that range as a hypothesis;
    - a [float64] sampling parameter is the rational it denotes ([Q]); only
      comparisons with the constants 0, 1, 2 and -2 are made on them;
    - a Go [map] is a [gmap]; the order in which [range] visits it is not
      specified by the language, so a function that ranges over a map takes
      the visiting order as an argument, constrained to be a permutation of
      the map's entries;
    - a Go [error] is a value of [error] below, [nil] being [None];
    - JSON payloads are kept as the structured value that is marshalled. *)

From Stdlib Require Import Ascii String QArith.
From stdpp Require Import gmap strings list fin_maps pretty.

Open Scope string_scope.
Open Scope list_scope.

(** ** Package [strings] of the Go library, on byte strings *)

Module Strings.

(** [unicode.ToLower] on a byte below 128, where only 'A'..'Z' change. *)
Definition lower_ascii (c : ascii) : ascii :=
  let n := nat_of_ascii c in
  if (65 <=? n)%nat && (n <=? 90)%nat then ascii_of_nat (n + 32) else c.

(** [strings.ToLower] on ASCII text: bytes outside 'A'..'Z' are left as they
    are. On a string with bytes from 128 on Go decodes UTF-8, lowers the
    upper-case letters beyond ASCII too and replaces an invalid byte; that
    part is not modelled. *)
Fixpoint ToLower (s : string) : string :=
  match s with
  | EmptyString => EmptyString
  | String c r => String (lower_ascii c) (ToLower r)
  end.

(** [strings.HasPrefix s prefix]. *)
Fixpoint HasPrefix (s prefix : string) : bool :=
  match prefix with
  | EmptyString => true
  | String b prefix' =>
      match s with
      | EmptyString => false
      | String a s' => Ascii.eqb a b && HasPrefix s' prefix'
      end
  end.

(** [strings.TrimPrefix s prefix]. *)
Fixpoint TrimPrefix (s prefix : string) : string :=
  match prefix, s with
  | EmptyString, _ => s
  | String b prefix', String a s' =>
      if Ascii.eqb a b && HasPrefix s' prefix' then TrimPrefix s' prefix' else s
  | String _ _, EmptyString => s
  end.

(** [strings.Contains s substr]. *)
Fixpoint Contains (s substr : string) : bool :=
  HasPrefix s substr ||
  match s with
  | EmptyString => false
  | String _ s' => Contains s' substr
  end.

(** White space of [strings.TrimSpace] below 128: the space and the bytes
    9 to 13. *)
Definition isSpace (c : ascii) : bool :=
  let n := nat_of_ascii c in
  (n =? 32)%nat || ((9 <=? n)%nat && (n <=? 13)%nat).

Fixpoint trimLeft (s : string) : string :=
  match s with
  | EmptyString => EmptyString
  | String c r => if isSpace c then trimLeft r else s
  end.

Fixpoint trimRight (s : string) : string :=
  match s with
  | EmptyString => EmptyString
  | String c r =>
      match trimRight r with
      | EmptyString => if isSpace c then EmptyString else String c EmptyString
      | r' => String c r'
      end
  end.

(** [strings.TrimSpace] on a string whose ends hold no white space beyond
    ASCII. Go also trims the white space of Unicode that UTF-8 encodes in
    several bytes (U+0085, U+00A0, U+2000 and the like); that part is not
    modelled. *)
Definition TrimSpace (s : string) : string := trimRight (trimLeft s).

End Strings.

(** ** Go errors *)

(** The dynamic types of [error] values that reach the modelled code. *)
Inductive error : Type :=
| ClaudeError (errType message : string)
    (* a claudeTypes.ClaudeError{Type: "error", ErrorDetail{errType, message}} *)
| APIError (errType code message : string) (status : Z)   (* a types.APIError *)
| StreamError (errType code message : string)             (* a types.StreamError *)
| ErrorString (message : string)   (* errors.New, fmt.Errorf without %w, encoding/json errors *)
| WrapError (prefix : string) (cause : error)   (* fmt.Errorf(prefix + ": %w", cause) *)
| NetError (temporary timeout : bool) (message : string)  (* an error implementing net.Error *)
| Canceled                         (* context.Canceled *)
| DeadlineExceeded                 (* context.DeadlineExceeded *)
| EOF.                             (* io.EOF *)

(** The method [Error() string] of each of them. *)
Fixpoint Error (e : error) : string :=
  match e with
  | ClaudeError _ message => message
  | APIError _ code message _ => code +:+ ": " +:+ message
  | StreamError _ _ message => "stream error: " +:+ message
  | ErrorString message => message
  | WrapError prefix cause => prefix +:+ ": " +:+ Error cause
  | NetError _ _ message => message
  | Canceled => "context canceled"
  | DeadlineExceeded => "context deadline exceeded"
  | EOF => "EOF"
  end.

(** A Go result pair [(value, error)] with exactly one side set. *)
Inductive result (A : Type) : Type :=
| Ok (a : A)
| Err (e : error).
Arguments Ok {A} a.
Arguments Err {A} e.

(** The test [x == nil] on a pointer or an interface. *)
Definition isNil {A : Type} (x : option A) : bool :=
  match x with
  | None => true
  | Some _ => false
  end.

(** ** Package [types] of the SDK *)

Module Types.

Definition ChatRoleSystem := "system".
Definition ChatRoleUser := "user".
Definition ChatRoleAssistant := "assistant".

Definition ChatMessageTypeText := "text".
Definition ChatMessageTypeImageURL := "image_url".

Definition FinishReasonStop := "stop".
Definition FinishReasonLength := "length".
Definition FinishReasonContentFilter := "content_filter".
Definition FinishReasonToolCalls := "tool_calls".
Definition FinishReasonFunctionCall := "function_call".

Definition ErrTypeInvalidRequest := "invalid_request_error".
Definition ErrTypeAuthentication := "authentication_error".
Definition ErrTypeRateLimit := "rate_limit_error".
Definition ErrTypeAPIError := "api_error".
Definition ErrCodeParseError := "parse_error".
Definition ErrCodeStreamError := "stream_error".

Definition StreamEventTypeData := "data".

Record MessageContent := {
  mc_Type : string;
  mc_Text : string;
  mc_ImageURL : string;
  mc_Detail : string }.

(** The dynamic type of the field [ChatMessage.Content interface{}]. *)
Inductive content : Type :=
| ContentNil                                   (* nil *)
| ContentString (s : string)                   (* string *)
| ContentParts (parts : list MessageContent)   (* []types.MessageContent *)
| ContentOther.                                (* any other dynamic type *)

Record ChatMessage := {
  Role : string;
  Content : content }.

Definition NewChatMessage (role content : string) : ChatMessage :=
  {| Role := role; Content := ContentString content |}.

Definition NewSystemMessage (content : string) : ChatMessage :=
  NewChatMessage ChatRoleSystem content.

Fixpoint firstText (parts : list MessageContent) : string :=
  match parts with
  | [] => ""
  | c :: rest => if String.eqb (mc_Type c) ChatMessageTypeText then mc_Text c else firstText rest
  end.

(** [ChatMessage.GetTextContent]. *)
Definition GetTextContent (m : ChatMessage) : string :=
  match Content m with
  | ContentString s => s
  | ContentParts parts => firstText parts
  | _ => ""
  end.

Record Usage := {
  PromptTokens : Z;
  CompletionTokens : Z;
  TotalTokens : Z }.

Record ErrorResponse := {
  er_Type : string;
  er_Code : string;
  er_Message : string }.

Record ChatCompletionChoice := {
  cc_Index : Z;
  Message : ChatMessage;
  cc_FinishReason : string }.

Record ChatCompletionResponse := {
  ID : string;
  Choices : list ChatCompletionChoice;
  resp_Usage : Usage;
  resp_Error : option ErrorResponse }.

Definition IsError (r : ChatCompletionResponse) : bool :=
  match resp_Error r with Some _ => true | None => false end.

Definition GetError (r : ChatCompletionResponse) : option ErrorResponse := resp_Error r.

Definition GetFirstChoice (r : ChatCompletionResponse) : option ChatCompletionChoice :=
  match Choices r with
  | c :: _ => Some c
  | [] => None
  end.

Record ChatCompletionChunkChoice := {
  Index : Z;
  Delta : ChatMessage;
  FinishReason : string }.

Record ChatCompletionChunk := {
  chunk_ID : string;
  chunk_Choices : list ChatCompletionChunkChoice;
  chunk_Usage : option Usage }.

(** A [json.RawMessage] carried by a stream event, represented by what
    [json.Unmarshal] into a [ChatCompletionChunk] makes of it: a chunk, or
    the decoding error. *)
Inductive RawMessage : Type :=
| RawChunk (chunk : ChatCompletionChunk)
| RawInvalid (jsonError : string).

Definition Unmarshal (data : RawMessage) : result ChatCompletionChunk :=
  match data with
  | RawChunk chunk => Ok chunk
  | RawInvalid jsonError => Err (ErrorString jsonError)
  end.

Record StreamEvent := {
  Type_ : string;
  Data : RawMessage }.

(** *** Further declarations of [chat.go] and [errors.go] *)

Definition ChatRoleFunction := "function".
Definition ChatRoleTool := "tool".

(** [ChatMessage.IsValidRole]. *)
Definition IsValidRole (m : ChatMessage) : bool :=
  String.eqb (Role m) ChatRoleSystem || String.eqb (Role m) ChatRoleUser
  || String.eqb (Role m) ChatRoleAssistant || String.eqb (Role m) ChatRoleFunction
  || String.eqb (Role m) ChatRoleTool.

(** [ChatCompletionResponse.GetFirstMessage], [GetFirstContent]. *)
Definition GetFirstMessage (r : ChatCompletionResponse) : option ChatMessage :=
  match GetFirstChoice r with
  | Some choice => Some (Message choice)
  | None => None
  end.

Definition GetFirstContent (r : ChatCompletionResponse) : string :=
  match GetFirstMessage r with
  | Some msg => GetTextContent msg
  | None => ""
  end.

(** [ChatCompletionChunkChoice.GetContent]. *)
Definition GetContent (c : ChatCompletionChunkChoice) : string := GetTextContent (Delta c).

(** A [ChatCompletionRequest], with the fields that [ValidateParameters]
    and [SetDefaults] read or write. The messages of the model carry no
    tool calls and no function call. *)
Record ChatCompletionRequest := {
  req_Model : string;
  req_Messages : list ChatMessage;
  req_MaxTokens : Z;
  req_Temperature : Q;
  req_TopP : Q;
  req_N : Z;
  req_Stream : bool;
  req_Stop : option (list string);
  req_PresencePenalty : Q;
  req_FrequencyPenalty : Q }.

(** A [ValidationError]. *)
Record ValidationError := {
  ve_Field : string;
  ve_Message : string;
  ve_Code : string }.

Definition ErrCodeMissingParameter := "missing_parameter".
Definition ErrCodeInvalidParameter := "invalid_parameter".

Definition Qlt_bool (x y : Q) : bool := negb (Qle_bool y x).

(** The body of the loop of [ValidateParameters] over the messages. *)
Fixpoint validateRequestMessages (i : nat) (msgs : list ChatMessage) : option ValidationError :=
  match msgs with
  | [] => None
  | msg :: rest =>
      if negb (IsValidRole msg)
      then Some {| ve_Field := "messages[" +:+ pretty i +:+ "].role";
                   ve_Message := "invalid role"; ve_Code := ErrCodeInvalidParameter |}
      else match Content msg with
           | ContentNil =>
               Some {| ve_Field := "messages[" +:+ pretty i +:+ "].content";
                       ve_Message := "content cannot be empty";
                       ve_Code := ErrCodeMissingParameter |}
           | _ => validateRequestMessages (S i) rest
           end
  end.

(** [ChatCompletionRequest.ValidateParameters]. *)
Definition ValidateParameters (r : ChatCompletionRequest) : option ValidationError :=
  if String.eqb (req_Model r) ""
  then Some {| ve_Field := "model"; ve_Message := "model is required";
               ve_Code := ErrCodeMissingParameter |}
  else if (length (req_Messages r) =? 0)%nat
  then Some {| ve_Field := "messages"; ve_Message := "messages cannot be empty";
               ve_Code := ErrCodeMissingParameter |}
  else if (req_MaxTokens r <? 0)%Z
  then Some {| ve_Field := "max_tokens"; ve_Message := "max_tokens must be positive";
               ve_Code := ErrCodeInvalidParameter |}
  else if Qlt_bool (req_Temperature r) 0 || Qlt_bool 2 (req_Temperature r)
  then Some {| ve_Field := "temperature"; ve_Message := "temperature must be between 0 and 2";
               ve_Code := ErrCodeInvalidParameter |}
  else if Qlt_bool (req_TopP r) 0 || Qlt_bool 1 (req_TopP r)
  then Some {| ve_Field := "top_p"; ve_Message := "top_p must be between 0 and 1";
               ve_Code := ErrCodeInvalidParameter |}
  else if (req_N r <? 1)%Z
  then Some {| ve_Field := "n"; ve_Message := "n must be at least 1";
               ve_Code := ErrCodeInvalidParameter |}
  else if Qlt_bool (req_PresencePenalty r) (-2) || Qlt_bool 2 (req_PresencePenalty r)
  then Some {| ve_Field := "presence_penalty";
               ve_Message := "presence_penalty must be between -2 and 2";
               ve_Code := ErrCodeInvalidParameter |}
  else if Qlt_bool (req_FrequencyPenalty r) (-2) || Qlt_bool 2 (req_FrequencyPenalty r)
  then Some {| ve_Field := "frequency_penalty";
               ve_Message := "frequency_penalty must be between -2 and 2";
               ve_Code := ErrCodeInvalidParameter |}
  else validateRequestMessages 0 (req_Messages r).

(** [ChatCompletionRequest.SetDefaults]. *)
Definition SetDefaults (r : ChatCompletionRequest) : ChatCompletionRequest :=
  {| req_Model := req_Model r;
     req_Messages := req_Messages r;
     req_MaxTokens := req_MaxTokens r;
     req_Temperature := if Qeq_bool (req_Temperature r) 0 then 1 else req_Temperature r;
     req_TopP := if Qeq_bool (req_TopP r) 0 then 1 else req_TopP r;
     req_N := if (req_N r =? 0)%Z then 1%Z else req_N r;
     req_Stream := req_Stream r;
     req_Stop := req_Stop r;
     req_PresencePenalty := req_PresencePenalty r;
     req_FrequencyPenalty := req_FrequencyPenalty r |}.

(** [APIError.IsRetryable], on the status code the error carries. *)
Definition IsRetryable (HTTPStatusCode : Z) : bool :=
  (500 <=? HTTPStatusCode)%Z || (HTTPStatusCode =? 429)%Z.

End Types.

(** ** Package [internal/transport] *)

Module Transport.
Import Strings.

(** *** The retrying client ([client.go]) *)

(** An [*http.Response], of which only the status is looked at. *)
Record Response := { StatusCode : Z }.

(** A [time.Duration], in nanoseconds. *)
Definition Second : Z := 1000000000.

(** What a handler returns: the pair [(resp, err)], either of which may be nil. *)
Definition reply : Type := option Response * option error.

(** The network, as state: the number of requests sent so far, the remote
    end being a function from that number to the reply it gives. *)
Definition HTTPHandler : Type := nat -> reply * nat.
Definition Middleware : Type := HTTPHandler -> HTTPHandler.

(** The request context as the retry loop sees it: [ctx_Err] is
    [ctx.Err()] after the failed attempt number [retryCount], and
    [DoneWhile] is the error of the context if it is done before the
    backoff that follows that attempt has elapsed. *)
Record Context := {
  ctx_Err : Z -> option error;
  DoneWhile : Z -> option error }.

Class RetryPolicy (P : Type) := {
  MaxRetries : P -> Z;
  BackoffDelay : P -> Z -> Z;
  ShouldRetry : P -> option error -> option Response -> option error -> Z -> bool }.

Record DefaultRetryPolicy := {
  maxRetries : Z;
  baseDelay : Z }.

Definition NewDefaultRetryPolicy : DefaultRetryPolicy :=
  {| maxRetries := 3; baseDelay := 1 * Second |}.

(** [BackoffDelay]: [math.Pow(2, float64(retryCount))] is the integer
    [2 ^ retryCount] for the counts the loop reaches (and 0 after
    truncation for a negative count, as [Z.pow]). The product is that of
    the code as long as it stays within the 64 bits of a [time.Duration]. *)
Definition DefaultRetryPolicy_BackoffDelay (p : DefaultRetryPolicy) (retryCount : Z) : Z :=
  let delay := (baseDelay p * 2 ^ retryCount)%Z in
  if (30 * Second <? delay)%Z then (30 * Second)%Z else delay.

Definition retryableStatus (statusCode : Z) : bool :=
  (statusCode =? 429)%Z || (statusCode =? 500)%Z || (statusCode =? 502)%Z
  || (statusCode =? 503)%Z || (statusCode =? 504)%Z.

(** [DefaultRetryPolicy.ShouldRetry]; [ctxErr] is [ctx.Err()]. *)
Definition DefaultRetryPolicy_ShouldRetry (p : DefaultRetryPolicy) (ctxErr : option error)
    (resp : option Response) (err : option error) (retryCount : Z) : bool :=
  match ctxErr with
  | Some _ => false
  | None =>
      match err with
      | Some (NetError temporary timeout _) => temporary || timeout
      | Some _ => true
      | None =>
          match resp with
          | Some resp => retryableStatus (StatusCode resp)
          | None => false
          end
      end
  end.

#[export] Instance DefaultRetryPolicy_policy : RetryPolicy DefaultRetryPolicy := {
  MaxRetries := maxRetries;
  BackoffDelay := DefaultRetryPolicy_BackoffDelay;
  ShouldRetry := DefaultRetryPolicy_ShouldRetry }.

(** [LoggingMiddleware], which the SDK client installs: it logs, and hands
    on what the next handler returns. *)
Definition LoggingMiddleware : Middleware := fun next sent => next sent.

(** [ResponseHandler.ShouldRetry]. *)
Definition ResponseHandler_ShouldRetry (resp : Response) : bool :=
  retryableStatus (StatusCode resp).

Section client.
Context {P : Type} `{RetryPolicy P}.

Record HTTPClient := {
  client_Do : nat -> reply;
  retryPolicy : P;
  middleware : list Middleware }.

(** [executeRequest]: one call of [http.Client.Do]. *)
Definition executeRequest (hc : HTTPClient) : HTTPHandler :=
  fun sent => (client_Do hc sent, S sent).

Definition shouldRetry (hc : HTTPClient) (ctx : Context) (resp : option Response)
    (err : option error) (retryCount : Z) : bool :=
  match ctx_Err ctx retryCount with
  | Some _ => false
  | None =>
      if (MaxRetries (retryPolicy hc) <=? retryCount)%Z then false
      else
        match err with
        | Some _ => ShouldRetry (retryPolicy hc) (ctx_Err ctx retryCount) resp err retryCount
        | None =>
            match resp with
            | Some r =>
                ResponseHandler_ShouldRetry r
                && ShouldRetry (retryPolicy hc) (ctx_Err ctx retryCount) resp err retryCount
            | None => false
            end
        end
  end.

(** What a run of [doWithRetry] leaves behind: the pair it returns, the
    backoff delays it has waited for, and the number of requests sent. *)
Record retried := {
  returned : reply;
  slept : list Z;
  sent : nat }.

(** The [for] loop of [doWithRetry]; [turns] bounds the number of turns. *)
Fixpoint retryLoop (turns : nat) (hc : HTTPClient) (ctx : Context) (maxRetries : Z)
    (retryCount : Z) (delays : list Z) (sentSoFar : nat) : option retried :=
  match turns with
  | O => None
  | S turns =>
      let finalHandler := foldr (fun m next => m next) (executeRequest hc) (middleware hc) in
      let '((resp, err), sentNow) := finalHandler sentSoFar in
      if isNil err || (maxRetries <=? retryCount)%Z
      then Some {| returned := (resp, err); slept := delays; sent := sentNow |}
      else if negb (shouldRetry hc ctx resp err retryCount)
      then Some {| returned := (resp, err); slept := delays; sent := sentNow |}
      else
        let delay := BackoffDelay (retryPolicy hc) retryCount in
        match DoneWhile ctx retryCount with
        | Some ctxErr =>
            Some {| returned := (None, Some ctxErr); slept := delays; sent := sentNow |}
        | None => retryLoop turns hc ctx maxRetries (retryCount + 1) (delays ++ [delay]) sentNow
        end
  end.

(** [doWithRetry]: the loop is left at the latest when [retryCount] has
    reached [maxRetries], hence after at most [maxRetries + 1] turns. *)
Definition doWithRetry (hc : HTTPClient) (ctx : Context) : option retried :=
  let maxRetries := MaxRetries (retryPolicy hc) in
  retryLoop (S (Z.to_nat maxRetries)) hc ctx maxRetries 0 [] 0.

Definition Do (hc : HTTPClient) (ctx : Context) : option retried := doWithRetry hc ctx.

End client.

(** *** The event-stream reader ([stream.go]) *)

Record StreamEvent := {
  Event : string;
  Data : string;
  ID : string;
  Retry : Z }.

Definition zeroEvent : StreamEvent := {| Event := ""; Data := ""; ID := ""; Retry := 0 |}.

(** A call that may not have returned when the observation ends. *)
Inductive call (A : Type) : Type :=
| Returned (a : A)
| Pending.
Arguments Returned {A} a.
Arguments Pending {A}.

Section sse.
(** The library functions the reader relies on: [fmt.Sscanf] with the verb
    [%d], and [json.Unmarshal] into an [interface{}], whose values form [J]
    and whose failure is an error text. *)
Context (Sscanf_d : string -> option Z).
Context {J : Type} (Unmarshal : string -> J + string).

Definition parseLine (event : StreamEvent) (line : string) : StreamEvent :=
  if HasPrefix line "data: " then
    let data := TrimPrefix line "data: " in
    if String.eqb (Data event) ""
    then {| Event := Event event; Data := data; ID := ID event; Retry := Retry event |}
    else {| Event := Event event; Data := Data event +:+ String "010"%char "" +:+ data;
            ID := ID event; Retry := Retry event |}
  else if HasPrefix line "event: " then
    {| Event := TrimPrefix line "event: "; Data := Data event; ID := ID event;
       Retry := Retry event |}
  else if HasPrefix line "id: " then
    {| Event := Event event; Data := Data event; ID := TrimPrefix line "id: ";
       Retry := Retry event |}
  else if HasPrefix line "retry: " then
    match Sscanf_d (TrimPrefix line "retry: ") with
    | Some n => {| Event := Event event; Data := Data event; ID := ID event; Retry := n |}
    | None => event
    end
  else event.

(** [parseEvent]. *)
Definition parseEvent (lines : list string) : StreamEvent :=
  fold_left parseLine lines zeroEvent.

(** The block that [processStream] runs on a complete group of lines. *)
Definition flush (lines : list string) (eventChan : list StreamEvent) : list StreamEvent :=
  if (0 <? length lines)%nat then
    let event := parseEvent lines in
    if negb (String.eqb (Data event) "") || negb (String.eqb (Event event) "")
    then eventChan ++ [event] else eventChan
  else eventChan.

(** What the goroutine of [processStream] has sent when it ends. *)
Record pumped := {
  sentEvents : list StreamEvent;
  sentErrors : list error;
  sentDone : list bool }.

(** The [for sp.scanner.Scan()] loop, turn [i], over the tokens the scanner
    has yet to give: whether the context stopped it, the lines gathered and
    the events sent so far. *)
Fixpoint scanLoop (ctxDone : nat -> bool) (i : nat) (tokens lines : list string)
    (eventChan : list StreamEvent) : bool * list string * list StreamEvent :=
  match tokens with
  | [] => (false, lines, eventChan)
  | text :: tokens =>
      if ctxDone i then (true, lines, eventChan)
      else
        let line := TrimSpace text in
        if String.eqb line ""
        then if (0 <? length lines)%nat
             then scanLoop ctxDone (S i) tokens [] (flush lines eventChan)
             else scanLoop ctxDone (S i) tokens lines eventChan
        else scanLoop ctxDone (S i) tokens (lines ++ [line]) eventChan
  end.

(** [processStream], from the tokens of the scanner and its final error. *)
Definition processStream (ctxDone : nat -> bool) (tokens : list string)
    (scanErr : option error) : pumped :=
  match scanLoop ctxDone 0 tokens [] [] with
  | (true, _, eventChan) => {| sentEvents := eventChan; sentErrors := []; sentDone := [] |}
  | (false, lines, eventChan) =>
      {| sentEvents := flush lines eventChan;
         sentErrors :=
           match scanErr with
           | Some err =>
               [StreamError Types.ErrTypeAPIError Types.ErrCodeStreamError
                  ("stream scan error: " +:+ Error err)]
           | None => []
           end;
         sentDone := [true] |}
  end.

(** The channels of a [StreamProcessor] as a [JSONStreamReader] finds them:
    what is queued on each, whether the deferred function of the goroutine
    has closed them, and the error of the reader's context if it is done.
    What the goroutine sends while the reader is at work is not followed:
    a reader consumes the queues it is given. *)
Record channels := {
  ctxErr : option error;
  eventChan : list StreamEvent;
  errorChan : list error;
  done : list bool;
  closed : bool }.

Inductive selectCase : Type :=
| CaseCtxDone
| CaseEvent
| CaseError
| CaseDone.

Definition ready (st : channels) (c : selectCase) : bool :=
  match c with
  | CaseCtxDone => negb (isNil (ctxErr st))
  | CaseEvent => (0 <? length (eventChan st))%nat || closed st
  | CaseError => (0 <? length (errorChan st))%nat || closed st
  | CaseDone => (0 <? length (done st))%nat || closed st
  end.

(** The case a [select] proceeds with: any ready one. The scheduler's
    choice is taken when it is ready, another ready case otherwise, and
    none when the statement has to wait. *)
Definition selected (choice : selectCase) (st : channels) : option selectCase :=
  if ready st choice then Some choice
  else List.find (ready st) [CaseCtxDone; CaseEvent; CaseError; CaseDone].

(** [JSONStreamReader.Read]: one scheduler choice per turn of the loop. The
    value returned is the pair [(data, err)]. *)
Fixpoint Read (sched : list selectCase) (st : channels)
  : call (option J * option error) * channels :=
  match sched with
  | [] => (Pending, st)
  | choice :: sched =>
      match selected choice st with
      | None => (Pending, st)
      | Some CaseCtxDone => (Returned (None, ctxErr st), st)
      | Some CaseEvent =>
          let event := hd zeroEvent (eventChan st) in
          let st := {| ctxErr := ctxErr st; eventChan := tl (eventChan st);
                       errorChan := errorChan st; done := done st; closed := closed st |} in
          if String.eqb (Data event) "" then Read sched st
          else if String.eqb (Data event) "[DONE]" then (Returned (None, Some EOF), st)
          else match Unmarshal (Data event) with
               | inr jsonError =>
                   (Returned (None, Some (StreamError Types.ErrTypeAPIError Types.ErrCodeParseError
                                            ("failed to parse JSON: " +:+ jsonError))), st)
               | inl data => (Returned (Some data, None), st)
               end
      | Some CaseError =>
          let err := head (errorChan st) in
          let st := {| ctxErr := ctxErr st; eventChan := eventChan st;
                       errorChan := tl (errorChan st); done := done st; closed := closed st |} in
          (Returned (None, err), st)
      | Some CaseDone =>
          let st := {| ctxErr := ctxErr st; eventChan := eventChan st;
                       errorChan := errorChan st; done := tl (done st); closed := closed st |} in
          (Returned (None, Some EOF), st)
      end
  end.

End sse.

(** *** Error responses ([response.go]) *)

Section error_responses.
(** [json.Unmarshal] of a response body into a [types.ErrorResponse], and
    into a struct whose field [error] is one; [None] when it fails. *)
Context (decodeError decodeOpenAIError : string -> option Types.ErrorResponse).

(** [ResponseHandler.createErrorFromStatusCode]. *)
Definition createErrorFromStatusCode (statusCode : Z) (body : string) : error :=
  if (statusCode =? 400)%Z
  then APIError Types.ErrTypeInvalidRequest "invalid_request" "bad request" statusCode
  else if (statusCode =? 401)%Z
  then APIError Types.ErrTypeAuthentication "unauthorized" "unauthorized" statusCode
  else if (statusCode =? 403)%Z
  then APIError "permission_error" "forbidden" "forbidden" statusCode
  else if (statusCode =? 404)%Z
  then APIError "not_found_error" "not_found" "not found" statusCode
  else if (statusCode =? 429)%Z
  then APIError Types.ErrTypeRateLimit "too_many_requests" "too many requests" statusCode
  else if (statusCode =? 500)%Z
  then APIError Types.ErrTypeAPIError "internal_error" "internal server error" statusCode
  else if (statusCode =? 502)%Z
  then APIError Types.ErrTypeAPIError "bad_gateway" "bad gateway" statusCode
  else if (statusCode =? 503)%Z
  then APIError Types.ErrTypeAPIError "service_unavailable" "service unavailable" statusCode
  else if (statusCode =? 504)%Z
  then APIError Types.ErrTypeAPIError "gateway_timeout" "gateway timeout" statusCode
  else
    let message := "HTTP error " +:+ pretty statusCode in
    let message := if negb (String.eqb body "") then message +:+ ": " +:+ body else message in
    APIError Types.ErrTypeAPIError "internal_error" message statusCode.

(** [ResponseHandler.handleErrorResponse], for a response of the given
    status and body. *)
Definition handleErrorResponse (resp : Response) (body : string) : error :=
  match decodeError body with
  | Some errorResp =>
      if negb (String.eqb (Types.er_Message errorResp) "")
      then APIError (Types.er_Type errorResp) (Types.er_Code errorResp)
             (Types.er_Message errorResp) (StatusCode resp)
      else
        match decodeOpenAIError body with
        | Some openAIError =>
            if negb (String.eqb (Types.er_Message openAIError) "")
            then APIError (Types.er_Type openAIError) (Types.er_Code openAIError)
                   (Types.er_Message openAIError) (StatusCode resp)
            else createErrorFromStatusCode (StatusCode resp) body
        | None => createErrorFromStatusCode (StatusCode resp) body
        end
  | None =>
      match decodeOpenAIError body with
      | Some openAIError =>
          if negb (String.eqb (Types.er_Message openAIError) "")
          then APIError (Types.er_Type openAIError) (Types.er_Code openAIError)
                 (Types.er_Message openAIError) (StatusCode resp)
          else createErrorFromStatusCode (StatusCode resp) body
      | None => createErrorFromStatusCode (StatusCode resp) body
      end
  end.

End error_responses.

(** [ResponseHandler.IsRetryable]. *)
Definition ResponseHandler_IsRetryable (err : error) : bool :=
  match err with
  | APIError _ _ _ HTTPStatusCode => Types.IsRetryable HTTPStatusCode
  | _ => false
  end.

(** *** The byte buffer ([StreamBuffer] of [stream.go]) *)

(** A [[]byte] is a list of bytes; [buffer] is the whole slice, of which
    the first [pos] bytes are in use. *)
Record StreamBuffer := {
  buffer : list ascii;
  pos : nat }.

(** The builtin [copy(dst, src)]: the destination after the call and the
    number of bytes copied. *)
Definition copy (dst src : list ascii) : list ascii * nat :=
  let n := Nat.min (length dst) (length src) in
  (take n src ++ drop n dst, n).

(** [NewStreamBuffer]; [make] zeroes the slice, and panics on a negative
    size, which a [nat] leaves out. *)
Definition NewStreamBuffer (size : nat) : StreamBuffer :=
  {| buffer := repeat "000"%char size; pos := 0 |}.

(** [StreamBuffer.Write]: the buffer after the call and the pair returned. *)
Definition StreamBuffer_Write (sb : StreamBuffer) (data : list ascii)
  : StreamBuffer * (nat * option error) :=
  let sb :=
    if (length (buffer sb) <? pos sb + length data)%nat then
      let newSize := (length (buffer sb) * 2)%nat in
      let newSize :=
        if (newSize <? pos sb + length data)%nat then (pos sb + length data)%nat
        else newSize in
      let newBuffer := repeat "000"%char newSize in
      {| buffer := (copy newBuffer (take (pos sb) (buffer sb))).1; pos := pos sb |}
    else sb in
  ({| buffer := take (pos sb) (buffer sb) ++ (copy (drop (pos sb) (buffer sb)) data).1;
      pos := pos sb + length data |},
   (length data, None)).

(** The index of the first line feed of [data], the [for i, b := range
    data] loop of [ReadLine]. *)
Fixpoint lineFeed (data : list ascii) : option nat :=
  match data with
  | [] => None
  | b :: data =>
      if Ascii.eqb b "010"%char then Some 0%nat
      else match lineFeed data with
           | Some i => Some (S i)
           | None => None
           end
  end.

(** [StreamBuffer.ReadLine]. *)
Definition StreamBuffer_ReadLine (sb : StreamBuffer)
  : StreamBuffer * (string * option error) :=
  if (pos sb =? 0)%nat then (sb, ("", Some EOF))
  else
    let data := take (pos sb) (buffer sb) in
    match lineFeed data with
    | Some i =>
        let line := string_of_list_ascii (take i data) in
        ({| buffer := (copy (buffer sb) (drop (i + 1) data)).1; pos := pos sb - (i + 1) |},
         (TrimSpace line, None))
    | None =>
        let line := string_of_list_ascii data in
        ({| buffer := buffer sb; pos := 0 |}, (TrimSpace line, None))
    end.

(** [StreamBuffer.Len], [Bytes] and [String]. *)
Definition StreamBuffer_Len (sb : StreamBuffer) : nat := pos sb.

Definition StreamBuffer_Bytes (sb : StreamBuffer) : list ascii := take (pos sb) (buffer sb).

Definition StreamBuffer_String (sb : StreamBuffer) : string :=
  string_of_list_ascii (take (pos sb) (buffer sb)).

(** Successive calls of [Write], one for each chunk. *)
Definition StreamBuffer_writes (sb : StreamBuffer) (chunks : list (list ascii))
  : StreamBuffer :=
  fold_left (fun sb data => (StreamBuffer_Write sb data).1) chunks sb.

End Transport.

(** ** Package [services/chat] *)

Module Chat.

(** A [ChatOption] is a closure over a configuration; the proxy only ever
    builds the six below, kept here as data. *)
Inductive ChatOption : Type :=
| WithModel (model : string)
| WithMaxTokens (maxTokens : Z)
| WithTemperature (temperature : Q)
| WithTopP (topP : Q)
| WithStop (stop : list string)
| WithStream (stream : bool).

Section stream.
(** [json.Unmarshal] into an [interface{}] and [json.Marshal] of such a
    value, the latter already expressed as the raw message it produces. *)
Context {J : Type} (Unmarshal : string -> J + string).
Context (Marshal : option J -> Types.RawMessage + string).

(** [streamReaderAdapter.Next] over a [transport.JSONStreamReader]. *)
Definition adapter_Next (sched : list Transport.selectCase) (reader : Transport.channels)
  : Transport.call (result Types.StreamEvent) * Transport.channels :=
  match Transport.Read Unmarshal sched reader with
  | (Transport.Pending, reader) => (Transport.Pending, reader)
  | (Transport.Returned (_, Some err), reader) => (Transport.Returned (Err err), reader)
  | (Transport.Returned (data, None), reader) =>
      match Marshal data with
      | inr marshalErr =>
          (Transport.Returned
             (Err (WrapError "failed to marshal stream data" (ErrorString marshalErr))), reader)
      | inl jsonData =>
          (Transport.Returned
             (Ok {| Types.Type_ := Types.StreamEventTypeData; Types.Data := jsonData |}), reader)
      end
  end.

(** A [ChatStreamProcessor] whose [stream] is such an adapter. *)
Record ChatStreamProcessor := {
  stream : Transport.channels;
  chunks : list Types.ChatCompletionChunk;
  finished : bool;
  err : option error }.

Definition NewChatStreamProcessor (stream : Transport.channels) : ChatStreamProcessor :=
  {| stream := stream; chunks := []; finished := false; err := None |}.

Definition parseChunk (data : Types.RawMessage) : result Types.ChatCompletionChunk :=
  match Types.Unmarshal data with
  | Err e => Err (WrapError "failed to parse chat completion chunk" e)
  | Ok chunk => Ok chunk
  end.

(** [ChatStreamProcessor.Next]. *)
Definition Next (sched : list Transport.selectCase) (p : ChatStreamProcessor)
  : Transport.call (result Types.StreamEvent) * ChatStreamProcessor :=
  if finished p then (Transport.Returned (Err EOF), p)
  else
    match adapter_Next sched (stream p) with
    | (Transport.Pending, reader) =>
        (Transport.Pending,
         {| stream := reader; chunks := chunks p; finished := finished p; err := err p |})
    | (Transport.Returned (Err e), reader) =>
        (Transport.Returned (Err e),
         {| stream := reader; chunks := chunks p; finished := true; err := Some e |})
    | (Transport.Returned (Ok event), reader) =>
        let chunks :=
          if String.eqb (Types.Type_ event) Types.StreamEventTypeData then
            match parseChunk (Types.Data event) with
            | Err _ => chunks p
            | Ok chunk => chunks p ++ [chunk]
            end
          else chunks p in
        (Transport.Returned (Ok event),
         {| stream := reader; chunks := chunks; finished := finished p; err := err p |})
    end.

(** The results of successive calls of [Next], one scheduler sequence per
    call, up to the first call that does not return. *)
Fixpoint nextResults (scheds : list (list Transport.selectCase)) (p : ChatStreamProcessor)
  : list (result Types.StreamEvent) * ChatStreamProcessor :=
  match scheds with
  | [] => ([], p)
  | sched :: scheds =>
      match Next sched p with
      | (Transport.Pending, p) => ([], p)
      | (Transport.Returned r, p) =>
          let '(rs, p) := nextResults scheds p in (r :: rs, p)
      end
  end.

End stream.

(** *** The configuration of a call ([options.go]) *)

(** A [ChatConfig], with the fields that [Validate] and
    [ChatCompletionRequest.ValidateParameters] look at; [cfg_Timeout] is in
    nanoseconds, and [cfg_Stop] is nil or the slice [WithStop] was given. *)
Record ChatConfig := {
  cfg_Model : string;
  cfg_MaxTokens : Z;
  cfg_Temperature : Q;
  cfg_TopP : Q;
  cfg_N : Z;
  cfg_Stream : bool;
  cfg_Stop : option (list string);
  cfg_PresencePenalty : Q;
  cfg_FrequencyPenalty : Q;
  cfg_TopLogProbs : Z;
  cfg_Timeout : Z }.

Definition DefaultChatConfig : ChatConfig :=
  {| cfg_Model := "gpt-3.5-turbo";
     cfg_MaxTokens := 1000;
     cfg_Temperature := 1;
     cfg_TopP := 1;
     cfg_N := 1;
     cfg_Stream := false;
     cfg_Stop := None;
     cfg_PresencePenalty := 0;
     cfg_FrequencyPenalty := 0;
     cfg_TopLogProbs := 0;
     cfg_Timeout := 30 * Transport.Second |}.

(** The call [option(config)] of one of the options above. *)
Definition applyOption (config : ChatConfig) (opt : ChatOption) : ChatConfig :=
  match opt with
  | WithModel model =>
      {| cfg_Model := model; cfg_MaxTokens := cfg_MaxTokens config;
         cfg_Temperature := cfg_Temperature config; cfg_TopP := cfg_TopP config;
         cfg_N := cfg_N config; cfg_Stream := cfg_Stream config; cfg_Stop := cfg_Stop config;
         cfg_PresencePenalty := cfg_PresencePenalty config;
         cfg_FrequencyPenalty := cfg_FrequencyPenalty config;
         cfg_TopLogProbs := cfg_TopLogProbs config; cfg_Timeout := cfg_Timeout config |}
  | WithMaxTokens maxTokens =>
      {| cfg_Model := cfg_Model config; cfg_MaxTokens := maxTokens;
         cfg_Temperature := cfg_Temperature config; cfg_TopP := cfg_TopP config;
         cfg_N := cfg_N config; cfg_Stream := cfg_Stream config; cfg_Stop := cfg_Stop config;
         cfg_PresencePenalty := cfg_PresencePenalty config;
         cfg_FrequencyPenalty := cfg_FrequencyPenalty config;
         cfg_TopLogProbs := cfg_TopLogProbs config; cfg_Timeout := cfg_Timeout config |}
  | WithTemperature temperature =>
      {| cfg_Model := cfg_Model config; cfg_MaxTokens := cfg_MaxTokens config;
         cfg_Temperature := temperature; cfg_TopP := cfg_TopP config;
         cfg_N := cfg_N config; cfg_Stream := cfg_Stream config; cfg_Stop := cfg_Stop config;
         cfg_PresencePenalty := cfg_PresencePenalty config;
         cfg_FrequencyPenalty := cfg_FrequencyPenalty config;
         cfg_TopLogProbs := cfg_TopLogProbs config; cfg_Timeout := cfg_Timeout config |}
  | WithTopP topP =>
      {| cfg_Model := cfg_Model config; cfg_MaxTokens := cfg_MaxTokens config;
         cfg_Temperature := cfg_Temperature config; cfg_TopP := topP;
         cfg_N := cfg_N config; cfg_Stream := cfg_Stream config; cfg_Stop := cfg_Stop config;
         cfg_PresencePenalty := cfg_PresencePenalty config;
         cfg_FrequencyPenalty := cfg_FrequencyPenalty config;
         cfg_TopLogProbs := cfg_TopLogProbs config; cfg_Timeout := cfg_Timeout config |}
  | WithStop stop =>
      {| cfg_Model := cfg_Model config; cfg_MaxTokens := cfg_MaxTokens config;
         cfg_Temperature := cfg_Temperature config; cfg_TopP := cfg_TopP config;
         cfg_N := cfg_N config; cfg_Stream := cfg_Stream config; cfg_Stop := Some stop;
         cfg_PresencePenalty := cfg_PresencePenalty config;
         cfg_FrequencyPenalty := cfg_FrequencyPenalty config;
         cfg_TopLogProbs := cfg_TopLogProbs config; cfg_Timeout := cfg_Timeout config |}
  | WithStream stream =>
      {| cfg_Model := cfg_Model config; cfg_MaxTokens := cfg_MaxTokens config;
         cfg_Temperature := cfg_Temperature config; cfg_TopP := cfg_TopP config;
         cfg_N := cfg_N config; cfg_Stream := stream; cfg_Stop := cfg_Stop config;
         cfg_PresencePenalty := cfg_PresencePenalty config;
         cfg_FrequencyPenalty := cfg_FrequencyPenalty config;
         cfg_TopLogProbs := cfg_TopLogProbs config; cfg_Timeout := cfg_Timeout config |}
  end.

(** The loop [for _, option := range options { option(config) }]. *)
Definition applyOptions (config : ChatConfig) (options : list ChatOption) : ChatConfig :=
  fold_left applyOption options config.

(** [ChatConfig.Validate]. *)
Definition Validate (c : ChatConfig) : option error :=
  if String.eqb (cfg_Model c) "" then Some (ErrorString "model cannot be empty")
  else if (cfg_MaxTokens c <? 0)%Z then Some (ErrorString "max_tokens must be non-negative")
  else if Types.Qlt_bool (cfg_Temperature c) 0 || Types.Qlt_bool 2 (cfg_Temperature c)
  then Some (ErrorString "temperature must be between 0.0 and 2.0")
  else if Types.Qlt_bool (cfg_TopP c) 0 || Types.Qlt_bool 1 (cfg_TopP c)
  then Some (ErrorString "top_p must be between 0.0 and 1.0")
  else if (cfg_N c <? 1)%Z then Some (ErrorString "n must be at least 1")
  else if Types.Qlt_bool (cfg_PresencePenalty c) (-2) || Types.Qlt_bool 2 (cfg_PresencePenalty c)
  then Some (ErrorString "presence_penalty must be between -2.0 and 2.0")
  else if Types.Qlt_bool (cfg_FrequencyPenalty c) (-2)
          || Types.Qlt_bool 2 (cfg_FrequencyPenalty c)
  then Some (ErrorString "frequency_penalty must be between -2.0 and 2.0")
  else if (cfg_TopLogProbs c <? 0)%Z || (5 <? cfg_TopLogProbs c)%Z
  then Some (ErrorString "top_logprobs must be between 0 and 5")
  else if (cfg_Timeout c <=? 0)%Z then Some (ErrorString "timeout must be positive")
  else None.

(** [ChatConfig.ToRequest]. *)
Definition ToRequest (c : ChatConfig) (messages : list Types.ChatMessage)
  : Types.ChatCompletionRequest :=
  let req :=
    {| Types.req_Model := cfg_Model c;
       Types.req_Messages := messages;
       Types.req_MaxTokens := cfg_MaxTokens c;
       Types.req_Temperature := cfg_Temperature c;
       Types.req_TopP := cfg_TopP c;
       Types.req_N := cfg_N c;
       Types.req_Stream := cfg_Stream c;
       Types.req_Stop := cfg_Stop c;
       Types.req_PresencePenalty := cfg_PresencePenalty c;
       Types.req_FrequencyPenalty := cfg_FrequencyPenalty c |} in
  Types.SetDefaults req.

(** *** The service ([chat.go]) *)

Record ChatService := { config : ChatConfig }.

Definition NewChatService (options : list ChatOption) : ChatService :=
  {| config := applyOptions DefaultChatConfig options |}.

(** What [CreateChatCompletion] ([stream] false) and
    [CreateChatCompletionStream] ([stream] true) do before they call the
    transport: the request they post, or the error they return. The options
    are applied to a copy of the configuration of the service. *)
Definition buildRequest (s : ChatService) (stream : bool)
    (messages : list Types.ChatMessage) (options : list ChatOption)
  : result Types.ChatCompletionRequest :=
  if (length messages =? 0)%nat then Err (ErrorString "messages cannot be empty")
  else
    let config := applyOptions (config s) options in
    match Validate config with
    | Some err => Err (WrapError "invalid chat config" err)
    | None =>
        let req := ToRequest config messages in
        Ok {| Types.req_Model := Types.req_Model req;
              Types.req_Messages := Types.req_Messages req;
              Types.req_MaxTokens := Types.req_MaxTokens req;
              Types.req_Temperature := Types.req_Temperature req;
              Types.req_TopP := Types.req_TopP req;
              Types.req_N := Types.req_N req;
              Types.req_Stream := stream;
              Types.req_Stop := Types.req_Stop req;
              Types.req_PresencePenalty := Types.req_PresencePenalty req;
              Types.req_FrequencyPenalty := Types.req_FrequencyPenalty req |}
    end.

(** [CreateChatCompletion]. [Post] is the transport: for the request it is
    given it answers the error of [transport.Post], or else what
    [parseJSONResponse] makes of the body, whatever the status. *)
Definition CreateChatCompletion (s : ChatService)
    (Post : Types.ChatCompletionRequest -> result (result Types.ChatCompletionResponse))
    (messages : list Types.ChatMessage) (options : list ChatOption)
  : result Types.ChatCompletionResponse :=
  match buildRequest s false messages options with
  | Err err => Err err
  | Ok req =>
      match Post req with
      | Err err => Err (WrapError "failed to create chat completion" err)
      | Ok (Err err) => Err (WrapError "failed to parse response" err)
      | Ok (Ok chatResp) =>
          if Types.IsError chatResp then
            let message :=
              match Types.GetError chatResp with
              | Some apiErr => Types.er_Message apiErr
              | None => ""
              end in
            Err (ErrorString ("API error: " +:+ message))
          else Ok chatResp
      end
  end.

(** [ExtractAssistantMessages]. *)
Definition ExtractAssistantMessages (messages : list Types.ChatMessage)
  : list Types.ChatMessage :=
  fold_left
    (fun assistantMessages message =>
       if String.eqb (Types.Role message) Types.ChatRoleAssistant
       then assistantMessages ++ [message] else assistantMessages)
    messages [].

(** [GetLastAssistantMessage]: the loop runs from the last index down;
    [i] is the number of messages still to look at. *)
Fixpoint lastAssistant (messages : list Types.ChatMessage) (i : nat)
  : option Types.ChatMessage :=
  match i with
  | O => None
  | S i =>
      match messages !! i with
      | Some message =>
          if String.eqb (Types.Role message) Types.ChatRoleAssistant then Some message
          else lastAssistant messages i
      | None => None
      end
  end.

Definition GetLastAssistantMessage (messages : list Types.ChatMessage)
  : option Types.ChatMessage :=
  lastAssistant messages (length messages).

(** [CountTokens]; [len] of a string is its number of bytes. The sum is that
    of the code as long as it stays within the 64 bits of an [int]. *)
Definition CountTokens (messages : list Types.ChatMessage) : Z :=
  fold_left
    (fun totalTokens message =>
       let content := Types.GetTextContent message in
       (totalTokens + Z.of_nat (String.length content) / 4 + 10)%Z)
    messages 0%Z.

(** The loop of [TruncateMessages] that keeps the newest messages; [i] is
    the number of messages of [otherMessages] still to look at. *)
Fixpoint keepNewest (otherMessages : list Types.ChatMessage) (availableTokens : Z) (i : nat)
    (result : list Types.ChatMessage) (currentTokens : Z) : list Types.ChatMessage :=
  match i with
  | O => result
  | S i =>
      match otherMessages !! i with
      | Some message =>
          let messageTokens := CountTokens [message] in
          if (availableTokens <? currentTokens + messageTokens)%Z then result
          else keepNewest otherMessages availableTokens i ([message] ++ result)
                 (currentTokens + messageTokens)%Z
      | None => result
      end
  end.

(** [TruncateMessages]. The difference [maxTokens - systemTokens] and the
    sums of the loop are those of the code as long as they stay within the
    64 bits of an [int]; below [MinInt64 + systemTokens] the difference of
    the code wraps around, which is not modelled. *)
Definition TruncateMessages (messages : list Types.ChatMessage) (maxTokens : Z)
  : list Types.ChatMessage :=
  if (length messages =? 0)%nat then messages
  else
    let systemMessages :=
      List.filter (fun message => String.eqb (Types.Role message) Types.ChatRoleSystem)
        messages in
    let otherMessages :=
      List.filter (fun message => negb (String.eqb (Types.Role message) Types.ChatRoleSystem))
        messages in
    let systemTokens := CountTokens systemMessages in
    let availableTokens := (maxTokens - systemTokens)%Z in
    if (availableTokens <=? 0)%Z then systemMessages
    else keepNewest otherMessages availableTokens (length otherMessages) systemMessages 0%Z.

(** *** More of the stream processor ([stream.go]) *)

(** [ChatStreamProcessor.Err], [Done] and [GetChunks]. *)
Definition ChatStreamProcessor_Err (p : ChatStreamProcessor) : option error := err p.

Definition Done (p : ChatStreamProcessor) : bool := finished p.

Definition GetChunks (p : ChatStreamProcessor) : list Types.ChatCompletionChunk := chunks p.

(** [ChatStreamProcessor.CollectContent]; a [strings.Builder] is the text
    written so far. *)
Definition CollectContent (p : ChatStreamProcessor) : string :=
  fold_left
    (fun content chunk =>
       fold_left (fun content choice => content +:+ Types.GetContent choice)
         (Types.chunk_Choices chunk) content)
    (chunks p) "".

End Chat.

(** ** Package [proxy/types] (imported as [claudeTypes]) *)

Module ClaudeTypes.

Definition RoleUser := "user".
Definition RoleAssistant := "assistant".
Definition RoleSystem := "system".

Definition ContentTypeText := "text".
Definition ContentTypeImage := "image".

Definition StopReasonEndTurn := "end_turn".
Definition StopReasonMaxTokens := "max_tokens".
Definition StopReasonStopSequence := "stop_sequence".
Definition StopReasonToolUse := "tool_use".

Definition EventMessageStart := "message_start".
Definition EventMessageDelta := "message_delta".
Definition EventMessageStop := "message_stop".
Definition EventContentBlockStart := "content_block_start".
Definition EventContentBlockDelta := "content_block_delta".
Definition EventContentBlockStop := "content_block_stop".
Definition EventPing := "ping".
Definition EventError := "error".

Record Image := {
  img_Type : string;
  MediaType : string;
  img_Data : string }.

Record ContentItem := {
  Type_ : string;
  Text : string;
  Source : option Image;
  ImageURL : string }.

Record ClaudeMessage := {
  Role : string;
  Content : list ContentItem }.

Record Metadata := { UserID : string }.

Record ClaudeRequest := {
  Model : string;
  MaxTokens : Z;
  Messages : list ClaudeMessage;
  System : string;
  Temperature : Q;
  TopP : Q;
  TopK : Z;
  StopSequences : list string;
  Stream : bool;
  req_Metadata : option Metadata }.

Record Usage := {
  InputTokens : Z;
  OutputTokens : Z }.

Record ClaudeResponse := {
  ID : string;
  resp_Type : string;
  resp_Role : string;
  resp_Content : list ContentItem;
  resp_Model : string;
  StopReason : string;
  StopSequence : string;
  resp_Usage : Usage }.

Definition NewClaudeError (errorType message : string) : error :=
  ClaudeError errorType message.

Definition NewInvalidRequestError (message : string) : error :=
  NewClaudeError "invalid_request_error" message.

Definition NewAuthenticationError (message : string) : error :=
  NewClaudeError "authentication_error" message.

Definition NewAPIError (message : string) : error :=
  NewClaudeError "api_error" message.

Definition NewRateLimitError (message : string) : error :=
  NewClaudeError "rate_limit_error" message.

(** The body of the [for i, msg := range r.Messages] loop of [Validate]. *)
Definition validateMsg (i : nat) (msg : ClaudeMessage) : option error :=
  if negb (String.eqb (Role msg) RoleUser) && negb (String.eqb (Role msg) RoleAssistant)
  then Some (ClaudeError "invalid_request_error"
               ("invalid role at message " +:+ pretty i +:+ ": " +:+ Role msg))
  else if (length (Content msg) =? 0)%nat
  then Some (ClaudeError "invalid_request_error"
               ("message " +:+ pretty i +:+ " content cannot be empty"))
  else None.

Fixpoint validateMsgs (i : nat) (msgs : list ClaudeMessage) : option error :=
  match msgs with
  | [] => None
  | msg :: rest =>
      match validateMsg i msg with
      | Some err => Some err
      | None => validateMsgs (S i) rest
      end
  end.

(** [ClaudeRequest.Validate]. *)
Definition Validate (r : ClaudeRequest) : option error :=
  if String.eqb (Model r) ""
  then Some (ClaudeError "invalid_request_error" "model is required")
  else if (MaxTokens r <=? 0)%Z
  then Some (ClaudeError "invalid_request_error" "max_tokens must be positive")
  else if (length (Messages r) =? 0)%nat
  then Some (ClaudeError "invalid_request_error" "messages cannot be empty")
  else validateMsgs 0 (Messages r).

(** The payload structs that are marshalled into [StreamEvent.Data]. *)
Inductive payload : Type :=
| MessageStartEvent (type id msgType role : string) (content : list ContentItem)
    (model : string) (usage : Usage)
| ContentBlockStartEvent (type : string) (index : Z) (contentBlock : ContentItem)
| ContentBlockDeltaEvent (type : string) (index : Z) (deltaType deltaText : string)
| ContentBlockStopEvent (type : string) (index : Z)
| MessageDeltaEvent (type stopReason stopSequence : string) (usage : Usage)
| MessageStopEvent (type : string)
| PingEvent (type : string)
| ErrorEvent (type errorType errorMessage : string).

Record StreamEvent := {
  ev_Type : string;
  Event : string;
  Data : payload }.

(** *** Further functions of [claude.go] *)

Definition DefaultModel := "claude-3-sonnet-20240229".

Definition NewTextContent (text : string) : ContentItem :=
  {| Type_ := ContentTypeText; Text := text; Source := None; ImageURL := "" |}.

Definition NewImageContent (imageURL : string) : ContentItem :=
  {| Type_ := ContentTypeImage; Text := ""; Source := None; ImageURL := imageURL |}.

(** The loop of [ClaudeResponse.GetFirstTextContent]. *)
Fixpoint firstTextOf (items : list ContentItem) : string :=
  match items with
  | [] => ""
  | content :: rest =>
      if String.eqb (Type_ content) ContentTypeText then Text content else firstTextOf rest
  end.

Definition GetFirstTextContent (r : ClaudeResponse) : string := firstTextOf (resp_Content r).

(** [ClaudeRequest.SetDefaults]. *)
Definition SetDefaults (r : ClaudeRequest) : ClaudeRequest :=
  {| Model := if String.eqb (Model r) "" then DefaultModel else Model r;
     MaxTokens := MaxTokens r;
     Messages := Messages r;
     System := System r;
     Temperature := if Qeq_bool (Temperature r) 0 then 1 else Temperature r;
     TopP := if Qeq_bool (TopP r) 0 then 1 else TopP r;
     TopK := TopK r;
     StopSequences := StopSequences r;
     Stream := Stream r;
     req_Metadata := req_Metadata r |}.

End ClaudeTypes.

(** ** Package [proxy/converter], file [claude_to_newapi.go] *)


Module ClaudeToNewAPI.
Import Strings ClaudeTypes.

Definition Qltb (x y : Q) : bool := negb (Qle_bool y x).

Record ClaudeToNewAPIConverter := { modelMapping : gmap string string }.

Definition modelTable : list (string * string) :=
  [ ("claude-3-opus-20240229", "claude-3-opus-20240229");
    ("claude-3-sonnet-20240229", "claude-3-sonnet-20240229");
    ("claude-3-haiku-20240307", "claude-3-haiku-20240307");
    ("claude-3-5-sonnet-20241022", "claude-3-5-sonnet-20241022");
    ("claude-3-5-haiku-20241022", "claude-3-5-haiku-20241022");
    ("claude-3-opus", "claude-3-opus-20240229");
    ("claude-3-sonnet", "claude-3-sonnet-20240229");
    ("claude-3-haiku", "claude-3-haiku-20240307");
    ("claude-3.5-sonnet", "claude-3-5-sonnet-20241022");
    ("claude-3.5-haiku", "claude-3-5-haiku-20241022");
    ("opus", "claude-3-opus-20240229");
    ("sonnet", "claude-3-sonnet-20240229");
    ("haiku", "claude-3-haiku-20240307") ].

Definition getModelMapping : gmap string string := list_to_map modelTable.

Definition NewClaudeToNewAPIConverter : ClaudeToNewAPIConverter :=
  {| modelMapping := getModelMapping |}.

(** The [for pattern, mapped := range c.modelMapping] loop of [mapModel],
    over the entries in the order the runtime visits them. *)
Fixpoint rangeMatch (claudeModel : string) (order : list (string * string))
  : option string :=
  match order with
  | [] => None
  | (pattern, mapped) :: rest =>
      if Contains claudeModel (ToLower pattern) then Some mapped
      else rangeMatch claudeModel rest
  end.

(** [mapModel]. The parameter [claudeModel] is overwritten by its lower-case
    form before the loop, and it is that variable which the last line
    returns. *)
Definition mapModel (c : ClaudeToNewAPIConverter) (order : list (string * string))
    (claudeModel : string) : string :=
  match modelMapping c !! claudeModel with
  | Some mapped => mapped
  | None =>
      let claudeModel := ToLower claudeModel in
      match rangeMatch claudeModel order with
      | Some mapped => mapped
      | None => claudeModel
      end
  end.

(** An order in which [range] may visit the converter's table. *)
Definition rangeOrder (c : ClaudeToNewAPIConverter) (order : list (string * string)) : Prop :=
  order ≡ₚ map_to_list (modelMapping c).

(** [convertContent] returns [(interface{}, error)]; the loop over the items
    of a message that is not a single text item. *)
Fixpoint convertItems (claudeContent : list ContentItem)
    (messageContents : list Types.MessageContent) : result (list Types.MessageContent) :=
  match claudeContent with
  | [] => Ok messageContents
  | item :: rest =>
      if String.eqb (Type_ item) ContentTypeText then
        convertItems rest
          (messageContents ++
             [ {| Types.mc_Type := Types.ChatMessageTypeText; Types.mc_Text := Text item;
                  Types.mc_ImageURL := ""; Types.mc_Detail := "" |} ])
      else if String.eqb (Type_ item) ContentTypeImage then
        if negb (String.eqb (ImageURL item) "") then
          convertItems rest
            (messageContents ++
               [ {| Types.mc_Type := Types.ChatMessageTypeImageURL; Types.mc_Text := "";
                    Types.mc_ImageURL := ImageURL item; Types.mc_Detail := "" |} ])
        else convertItems rest messageContents
      else Err (ErrorString ("unsupported content type: " +:+ Type_ item))
  end.

Definition convertContent (claudeContent : list ContentItem) : result Types.content :=
  match claudeContent with
  | [] => Err (ErrorString "content cannot be empty")
  | first :: others =>
      if (length claudeContent =? 1)%nat && String.eqb (Type_ first) ContentTypeText
      then Ok (Types.ContentString (Text first))
      else match convertItems claudeContent [] with
           | Ok messageContents => Ok (Types.ContentParts messageContents)
           | Err e => Err e
           end
  end.

Definition convertMessage (claudeMsg : ClaudeMessage) : result Types.ChatMessage :=
  let role :=
    if String.eqb (Role claudeMsg) RoleUser then Some Types.ChatRoleUser
    else if String.eqb (Role claudeMsg) RoleAssistant then Some Types.ChatRoleAssistant
    else if String.eqb (Role claudeMsg) RoleSystem then Some Types.ChatRoleSystem
    else None in
  match role with
  | None => Err (ErrorString ("unsupported role: " +:+ Role claudeMsg))
  | Some role =>
      match convertContent (Content claudeMsg) with
      | Err e => Err e
      | Ok content => Ok {| Types.Role := role; Types.Content := content |}
      end
  end.

Fixpoint convertEach (claudeMessages : list ClaudeMessage)
    (messages : list Types.ChatMessage) : result (list Types.ChatMessage) :=
  match claudeMessages with
  | [] => Ok messages
  | claudeMsg :: rest =>
      match convertMessage claudeMsg with
      | Err e => Err e
      | Ok newAPIMsg => convertEach rest (messages ++ [newAPIMsg])
      end
  end.

Definition convertMessages (claudeMessages : list ClaudeMessage) (systemMessage : string)
  : result (list Types.ChatMessage) :=
  let messages :=
    if negb (String.eqb systemMessage "") then [Types.NewSystemMessage systemMessage] else [] in
  convertEach claudeMessages messages.

(** [convertOptions]; [order] is the visiting order of the model table. *)
Definition convertOptions (c : ClaudeToNewAPIConverter) (order : list (string * string))
    (claudeReq : ClaudeRequest) : result (list Chat.ChatOption) :=
  let options := [] in
  let options :=
    if negb (String.eqb (Model claudeReq) "")
    then options ++ [Chat.WithModel (mapModel c order (Model claudeReq))] else options in
  let options :=
    if (0 <? MaxTokens claudeReq)%Z
    then options ++ [Chat.WithMaxTokens (MaxTokens claudeReq)] else options in
  let options :=
    if Qltb 0 (Temperature claudeReq)
    then options ++ [Chat.WithTemperature (Temperature claudeReq)] else options in
  let options :=
    if Qltb 0 (TopP claudeReq)
    then options ++ [Chat.WithTopP (TopP claudeReq)] else options in
  let options :=
    if (0 <? length (StopSequences claudeReq))%nat
    then options ++ [Chat.WithStop (StopSequences claudeReq)] else options in
  let options :=
    if Stream claudeReq then options ++ [Chat.WithStream true] else options in
  Ok options.

(** [ConvertRequest]; a [nil] request pointer is [None]. *)
Definition ConvertRequest (c : ClaudeToNewAPIConverter) (order : list (string * string))
    (claudeReq : option ClaudeRequest)
  : result (list Types.ChatMessage * list Chat.ChatOption) :=
  match claudeReq with
  | None => Err (ErrorString "claude request is nil")
  | Some claudeReq =>
      match Validate claudeReq with
      | Some err => Err err
      | None =>
          match convertMessages (Messages claudeReq) (System claudeReq) with
          | Err err => Err (WrapError "failed to convert messages" err)
          | Ok messages =>
              match convertOptions c order claudeReq with
              | Err err => Err (WrapError "failed to convert options" err)
              | Ok options => Ok (messages, options)
              end
          end
      end
  end.

Definition validateContent (content : ContentItem) (msgIndex contentIndex : nat)
  : option error :=
  if String.eqb (Type_ content) ContentTypeText then
    if String.eqb (Text content) ""
    then Some (NewInvalidRequestError
                 ("text content cannot be empty at message " +:+ pretty msgIndex
                    +:+ ", content " +:+ pretty contentIndex))
    else None
  else if String.eqb (Type_ content) ContentTypeImage then
    if String.eqb (ImageURL content) "" && isNil (Source content)
    then Some (NewInvalidRequestError
                 ("image content must have either image_url or source at message "
                    +:+ pretty msgIndex +:+ ", content " +:+ pretty contentIndex))
    else None
  else Some (NewInvalidRequestError
               ("unsupported content type: " +:+ Type_ content +:+ " at message "
                  +:+ pretty msgIndex +:+ ", content " +:+ pretty contentIndex)).

Fixpoint validateContents (contents : list ContentItem) (index j : nat) : option error :=
  match contents with
  | [] => None
  | content :: rest =>
      match validateContent content index j with
      | Some err => Some err
      | None => validateContents rest index (S j)
      end
  end.

Definition validateMessage (msg : ClaudeMessage) (index : nat) : option error :=
  if negb (String.eqb (Role msg) RoleUser) && negb (String.eqb (Role msg) RoleAssistant)
  then Some (NewInvalidRequestError
               ("invalid role at message " +:+ pretty index +:+ ": " +:+ Role msg))
  else if (length (Content msg) =? 0)%nat
  then Some (NewInvalidRequestError
               ("message " +:+ pretty index +:+ " content cannot be empty"))
  else validateContents (Content msg) index 0.

Fixpoint validateMessages (msgs : list ClaudeMessage) (i : nat) : option error :=
  match msgs with
  | [] => None
  | msg :: rest =>
      match validateMessage msg i with
      | Some err => Some err
      | None => validateMessages rest (S i)
      end
  end.

Definition ValidateRequest (claudeReq : option ClaudeRequest) : option error :=
  match claudeReq with
  | None => Some (NewInvalidRequestError "request is nil")
  | Some claudeReq =>
  if String.eqb (Model claudeReq) ""
  then Some (NewInvalidRequestError "model is required")
  else if (MaxTokens claudeReq <=? 0)%Z
  then Some (NewInvalidRequestError "max_tokens must be positive")
  else if (200000 <? MaxTokens claudeReq)%Z
  then Some (NewInvalidRequestError "max_tokens cannot exceed 200000")
  else if (length (Messages claudeReq) =? 0)%nat
  then Some (NewInvalidRequestError "messages cannot be empty")
  else if Qltb (Temperature claudeReq) 0 || Qltb 1 (Temperature claudeReq)
  then Some (NewInvalidRequestError "temperature must be between 0 and 1")
  else if Qltb (TopP claudeReq) 0 || Qltb 1 (TopP claudeReq)
  then Some (NewInvalidRequestError "top_p must be between 0 and 1")
  else if (TopK claudeReq <? 0)%Z
  then Some (NewInvalidRequestError "top_k must be non-negative")
  else validateMessages (Messages claudeReq) 0
  end.

(** [GetSupportedModels]: the keys of the table, in the order they are
    visited. *)
Definition GetSupportedModels (c : ClaudeToNewAPIConverter) (order : list (string * string))
  : list string :=
  map fst order.

(** [IsModelSupported]. *)
Definition IsModelSupported (c : ClaudeToNewAPIConverter) (model : string) : bool :=
  match modelMapping c !! model with
  | Some _ => true
  | None => false
  end.

End ClaudeToNewAPI.

(** ** Package [proxy/converter], file [newapi_to_claude.go] *)

Module NewAPIToClaude.
Import ClaudeTypes.

Record NewAPIToClaudeConverter := { stopReasonMapping : gmap string string }.

Definition getStopReasonMapping : gmap string string :=
  list_to_map
    [ (Types.FinishReasonStop, StopReasonEndTurn);
      (Types.FinishReasonLength, StopReasonMaxTokens);
      (Types.FinishReasonContentFilter, StopReasonEndTurn);
      (Types.FinishReasonToolCalls, StopReasonToolUse);
      (Types.FinishReasonFunctionCall, StopReasonToolUse);
      ("", StopReasonEndTurn) ].

Definition NewNewAPIToClaudeConverter : NewAPIToClaudeConverter :=
  {| stopReasonMapping := getStopReasonMapping |}.

Definition mapStopReason (c : NewAPIToClaudeConverter) (finishReason : string) : string :=
  match stopReasonMapping c !! finishReason with
  | Some mapped => mapped
  | None => StopReasonEndTurn
  end.

Definition textItem (text : string) : ContentItem :=
  {| Type_ := ContentTypeText; Text := text; Source := None; ImageURL := "" |}.

(** The loop of [convertContent] over a [[]types.MessageContent]. *)
Fixpoint convertParts (msgContent : list Types.MessageContent) (content : list ContentItem)
  : list ContentItem :=
  match msgContent with
  | [] => content
  | item :: rest =>
      if String.eqb (Types.mc_Type item) Types.ChatMessageTypeText then
        if negb (String.eqb (Types.mc_Text item) "")
        then convertParts rest (content ++ [textItem (Types.mc_Text item)])
        else convertParts rest content
      else if String.eqb (Types.mc_Type item) Types.ChatMessageTypeImageURL then
        if negb (String.eqb (Types.mc_ImageURL item) "")
        then convertParts rest
               (content ++ [ {| Type_ := ContentTypeImage; Text := ""; Source := None;
                                ImageURL := Types.mc_ImageURL item |} ])
        else convertParts rest content
      else convertParts rest content
  end.

Definition convertContent (message : Types.ChatMessage) : list ContentItem :=
  let content :=
    match Types.Content message with
    | Types.ContentString msgContent =>
        if negb (String.eqb msgContent "") then [textItem msgContent] else []
    | Types.ContentParts msgContent => convertParts msgContent []
    | _ =>
        let str := Types.GetTextContent message in
        if negb (String.eqb str "") then [textItem str] else []
    end in
  if (length content =? 0)%nat then content ++ [textItem ""] else content.

Definition convertError (err : option Types.ErrorResponse) : error :=
  match err with
  | None => NewAPIError "unknown error"
  | Some err =>
      if String.eqb (Types.er_Type err) Types.ErrTypeInvalidRequest
      then NewInvalidRequestError (Types.er_Message err)
      else if String.eqb (Types.er_Type err) Types.ErrTypeAuthentication
      then NewAuthenticationError (Types.er_Message err)
      else if String.eqb (Types.er_Type err) Types.ErrTypeRateLimit
      then NewRateLimitError (Types.er_Message err)
      else NewAPIError (Types.er_Message err)
  end.

Definition ConvertResponse (c : NewAPIToClaudeConverter)
    (newAPIResp : option Types.ChatCompletionResponse) (originalModel : string)
  : result ClaudeResponse :=
  match newAPIResp with
  | None => Err (ErrorString "newapi response is nil")
  | Some newAPIResp =>
      if Types.IsError newAPIResp then Err (convertError (Types.GetError newAPIResp))
      else match Types.GetFirstChoice newAPIResp with
           | None => Err (ErrorString "no choices in response")
           | Some choice =>
               Ok {| ID := Types.ID newAPIResp;
                     resp_Type := "message";
                     resp_Role := RoleAssistant;
                     resp_Content := convertContent (Types.Message choice);
                     resp_Model := originalModel;
                     StopReason := mapStopReason c (Types.cc_FinishReason choice);
                     StopSequence := "";
                     resp_Usage :=
                       {| InputTokens := Types.PromptTokens (Types.resp_Usage newAPIResp);
                          OutputTokens := Types.CompletionTokens (Types.resp_Usage newAPIResp) |}
                  |}
           end
  end.

Definition createMessageStartEvent (id model : string) : StreamEvent :=
  {| ev_Type := EventMessageStart;
     Event := "message_start";
     Data := MessageStartEvent EventMessageStart id "message" RoleAssistant [] model
               {| InputTokens := 0; OutputTokens := 0 |} |}.

Definition createContentBlockStartEvent (index : Z) : StreamEvent :=
  {| ev_Type := EventContentBlockStart;
     Event := "content_block_start";
     Data := ContentBlockStartEvent EventContentBlockStart index (textItem "") |}.

Definition createContentDeltaEvent (delta : Types.ChatMessage) (index : Z) : StreamEvent :=
  let text := Types.GetTextContent delta in
  {| ev_Type := EventContentBlockDelta;
     Event := "content_block_delta";
     Data := ContentBlockDeltaEvent EventContentBlockDelta index ContentTypeText text |}.

Definition createContentBlockStopEvent (index : Z) : StreamEvent :=
  {| ev_Type := EventContentBlockStop;
     Event := "content_block_stop";
     Data := ContentBlockStopEvent EventContentBlockStop index |}.

Definition createMessageDeltaEvent (c : NewAPIToClaudeConverter) (stopReason : string)
    (usage : option Types.Usage) : StreamEvent :=
  let claudeUsage :=
    match usage with
    | Some usage => {| InputTokens := Types.PromptTokens usage;
                       OutputTokens := Types.CompletionTokens usage |}
    | None => {| InputTokens := 0; OutputTokens := 0 |}
    end in
  {| ev_Type := EventMessageDelta;
     Event := "message_delta";
     Data := MessageDeltaEvent EventMessageDelta (mapStopReason c stopReason) "" claudeUsage |}.

Definition createMessageStopEvent : StreamEvent :=
  {| ev_Type := EventMessageStop;
     Event := "message_stop";
     Data := MessageStopEvent EventMessageStop |}.

Definition createPingEvent : StreamEvent :=
  {| ev_Type := EventPing; Event := "ping"; Data := PingEvent EventPing |}.

Definition createErrorEvent (err : error) : StreamEvent :=
  {| ev_Type := EventError;
     Event := "error";
     Data := ErrorEvent EventError "api_error" (Error err) |}.

Definition ConvertStreamChunk (c : NewAPIToClaudeConverter)
    (chunk : option Types.ChatCompletionChunk) (originalModel : string)
  : result StreamEvent :=
  match chunk with
  | None => Err (ErrorString "chunk is nil")
  | Some chunk =>
      match Types.chunk_Choices chunk with
      | [] => Err (ErrorString "no choices in chunk")
      | choice :: _ =>
          if negb (String.eqb (Types.FinishReason choice) "")
          then Ok createMessageStopEvent
          else Ok (createContentDeltaEvent (Types.Delta choice) 0)
      end
  end.

Definition GenerateStreamEvents (messageID model : string) : list StreamEvent :=
  let events := [] in
  let events := events ++ [createMessageStartEvent messageID model] in
  let events := events ++ [createContentBlockStartEvent 0] in
  let events := events ++ [createPingEvent] in
  events.

Definition GenerateStreamEndEvents (c : NewAPIToClaudeConverter) (stopReason : string)
    (usage : option Types.Usage) : list StreamEvent :=
  let events := [] in
  let events := events ++ [createContentBlockStopEvent 0] in
  let events := events ++ [createMessageDeltaEvent c stopReason usage] in
  let events := events ++ [createMessageStopEvent] in
  events.

End NewAPIToClaude.

(** ** Package [proxy/server], file [handlers.go] *)

Module Server.
Import ClaudeTypes.

(** What a handler writes to its [http.ResponseWriter]: the frames of the
    event stream, or one JSON response with its status code. *)
Inductive jsonBody : Type :=
| BodyError (claudeErr : error)
| BodyMessage (claudeResp : ClaudeResponse).

Inductive written : Type :=
| Frame (event : StreamEvent)
| Response (statusCode : Z) (body : jsonBody).

(** The collaborators of a [MessageHandler]: the two converters, the order
    in which the model table is ranged over, the SDK client (what its two
    calls answer; a stream is the sequence of results of its [Next]), the
    identifier [GenerateID] draws from the clock, and the state of the
    request context at each turn of the streaming loop. *)
Record MessageHandler := {
  claudeToNewAPI : ClaudeToNewAPI.ClaudeToNewAPIConverter;
  modelOrder : list (string * string);
  newAPIToClaudeConverter : NewAPIToClaude.NewAPIToClaudeConverter;
  CreateChatCompletion :
    list Types.ChatMessage -> list Chat.ChatOption -> result Types.ChatCompletionResponse;
  CreateChatCompletionStream :
    list Types.ChatMessage -> list Chat.ChatOption -> result (list (result Types.StreamEvent));
  GenerateID : string;
  ctxDone : nat -> bool }.

Definition sendStreamEvent (event : StreamEvent) : list written := [Frame event].

Definition sendStreamError (err : error) : list written :=
  let errorEvent := ErrorEvent EventError "api_error" (Error err) in
  let streamEvent := {| ev_Type := EventError; Event := "error"; Data := errorEvent |} in
  sendStreamEvent streamEvent.

Definition sendJSONResponse (statusCode : Z) (data : jsonBody) : list written :=
  [Response statusCode data].

Definition sendErrorResponse (statusCode : Z) (err : error) : list written :=
  let claudeErr :=
    match err with
    | ClaudeError _ _ => err
    | _ => NewAPIError (Error err)
    end in
  sendJSONResponse statusCode (BodyError claudeErr).

(** [processStreamEvent]: the frames written and the error returned. *)
Definition processStreamEvent (h : MessageHandler) (event : Types.StreamEvent)
  : list written * option error :=
  if String.eqb (Types.Type_ event) Types.StreamEventTypeData then
    match Types.Unmarshal (Types.Data event) with
    | Err err => ([], Some err)
    | Ok chunk =>
        match NewAPIToClaude.ConvertStreamChunk (newAPIToClaudeConverter h) (Some chunk) "" with
        | Err err => ([], Some err)
        | Ok claudeEvent => (sendStreamEvent claudeEvent, None)
        end
    end
  else ([], None).

(** How the [for] loop of [handleStreamMessage] is left. *)
Inductive loopExit : Type :=
| Break      (* the stream reported io.EOF *)
| Return.    (* the function returned from inside the loop *)

(** The [for] loop of [handleStreamMessage], turn [i], over the results the
    stream's [Next] has yet to give. A stream that gives no further result
    keeps the loop waiting until the context's deadline, which returns. *)
Fixpoint streamLoop (h : MessageHandler) (i : nat) (nexts : list (result Types.StreamEvent))
  : list written * loopExit :=
  if ctxDone h i then ([], Return)
  else
    match nexts with
    | [] => ([], Return)
    | Err EOF :: _ => ([], Break)
    | Err err :: _ => (sendStreamError err, Return)
    | Ok event :: rest =>
        match processStreamEvent h event with
        | (out, Some err) => (out ++ sendStreamError err, Return)
        | (out, None) =>
            let '(out', exit) := streamLoop h (S i) rest in
            (out ++ out', exit)
        end
    end.

Definition handleStreamMessage (h : MessageHandler) (flusher : bool)
    (claudeReq : ClaudeRequest) : list written :=
  if negb flusher
  then sendErrorResponse 500 (ErrorString "streaming not supported")
  else
    match ClaudeToNewAPI.ConvertRequest (claudeToNewAPI h) (modelOrder h) (Some claudeReq) with
    | Err err => sendStreamError err
    | Ok (messages, options) =>
        match CreateChatCompletionStream h messages options with
        | Err err => sendStreamError err
        | Ok stream =>
            let messageID := GenerateID h in
            let startEvents :=
              NewAPIToClaude.GenerateStreamEvents messageID (Model claudeReq) in
            let '(out, exit) := streamLoop h 0 stream in
            let endEvents :=
              match exit with
              | Break =>
                  NewAPIToClaude.GenerateStreamEndEvents (newAPIToClaudeConverter h) "" None
              | Return => []
              end in
            flat_map sendStreamEvent startEvents ++ out ++ flat_map sendStreamEvent endEvents
        end
    end.

Definition handleNormalMessage (h : MessageHandler) (claudeReq : ClaudeRequest)
  : list written :=
  match ClaudeToNewAPI.ConvertRequest (claudeToNewAPI h) (modelOrder h) (Some claudeReq) with
  | Err err => sendErrorResponse 400 err
  | Ok (messages, options) =>
      match CreateChatCompletion h messages options with
      | Err err => sendErrorResponse 500 err
      | Ok response =>
          match NewAPIToClaude.ConvertResponse (newAPIToClaudeConverter h) (Some response)
                  (Model claudeReq) with
          | Err err => sendErrorResponse 500 err
          | Ok claudeResp => sendJSONResponse 200 (BodyMessage claudeResp)
          end
      end
  end.

(** Request translation as a handler runs it: the [ValidateRequest] of
    [HandleMessage], then the [ConvertRequest] of [handleNormalMessage] or
    [handleStreamMessage]. *)
Definition translateRequest (c : ClaudeToNewAPI.ClaudeToNewAPIConverter)
    (order : list (string * string)) (claudeReq : ClaudeRequest)
  : result (list Types.ChatMessage * list Chat.ChatOption) :=
  match ClaudeToNewAPI.ValidateRequest (Some claudeReq) with
  | Some err => Err err
  | None => ClaudeToNewAPI.ConvertRequest c order (Some claudeReq)
  end.

Section parse.
(** [json.Unmarshal] of a request body into a [ClaudeRequest]. *)
Context (Unmarshal : string -> ClaudeRequest + string).

(** [parseClaudeRequest]: [contentType] and [ContentLength] are those of
    the request, [MaxRequestSize] that of the configuration, and [body] is
    what reading the body gives. *)
Definition parseClaudeRequest (contentType : string) (ContentLength MaxRequestSize : Z)
    (body : result string) : result ClaudeRequest :=
  if negb (Strings.Contains contentType "application/json")
  then Err (ErrorString "content-type must be application/json")
  else if (MaxRequestSize <? ContentLength)%Z
  then Err (ErrorString "request body too large")
  else
    match body with
    | Err err => Err (WrapError "failed to read request body" err)
    | Ok body =>
        match Unmarshal body with
        | inr jsonError => Err (WrapError "failed to parse request" (ErrorString jsonError))
        | inl claudeReq => Ok (SetDefaults claudeReq)
        end
    end.

End parse.

(** [HandleMessage], from the outcome of [parseClaudeRequest] on. *)
Definition HandleMessage (h : MessageHandler) (flusher : bool)
    (parsed : result ClaudeRequest) : list written :=
  match parsed with
  | Err err => sendErrorResponse 400 err
  | Ok claudeReq =>
      match ClaudeToNewAPI.ValidateRequest (Some claudeReq) with
      | Some err => sendErrorResponse 400 err
      | None =>
          if Stream claudeReq then handleStreamMessage h flusher claudeReq
          else handleNormalMessage h claudeReq
      end
  end.

End Server.

(** ** The conditions of the specification on a request *)

Module RequestRules.
Import ClaudeTypes.

(** "lies outside [0,1]". *)
Definition outsideUnit (x : Q) : bool := negb (Qle_bool 0 x && Qle_bool x 1).

(** "some message role is neither user nor assistant". *)
Definition badRole (m : ClaudeMessage) : bool :=
  negb (String.eqb (Role m) "user" || String.eqb (Role m) "assistant").

(** "some text item has empty text". *)
Definition emptyText (item : ContentItem) : bool :=
  String.eqb (Type_ item) "text" && String.eqb (Text item) "".

(** "some image item has neither an inline source nor a URL". *)
Definition bareImage (item : ContentItem) : bool :=
  String.eqb (Type_ item) "image" && String.eqb (ImageURL item) ""
  && isNil (Source item).

Definition listedMessage (m : ClaudeMessage) : bool :=
  badRole m || (length (Content m) =? 0)%nat
  || existsb (fun item => emptyText item || bareImage item) (Content m).

(** The conditions the specification lists for [InvalidRequest]. *)
Definition listedInvalid (r : ClaudeRequest) : bool :=
  String.eqb (Model r) ""
  || (MaxTokens r <=? 0)%Z || (200000 <? MaxTokens r)%Z
  || (length (Messages r) =? 0)%nat
  || existsb listedMessage (Messages r)
  || outsideUnit (Temperature r) || outsideUnit (TopP r).

(** An item that is neither a text item nor an image item. *)
Definition unknownType (item : ContentItem) : bool :=
  negb (String.eqb (Type_ item) "text") && negb (String.eqb (Type_ item) "image").

(** The listed conditions together with the two further guards of
    [ValidateRequest]: a negative [top_k], and an item of unknown type. *)
Definition amendedInvalid (r : ClaudeRequest) : bool :=
  listedInvalid r
  || (TopK r <? 0)%Z
  || existsb (fun m => existsb unknownType (Content m)) (Messages r).

(** An error of the kind [invalid_request_error]. *)
Definition invalidRequest (e : error) : Prop :=
  exists message, e = ClaudeError "invalid_request_error" message.

(** The guards of [validateContent] and [validateMessage]. *)
Definition itemRejected (item : ContentItem) : bool :=
  emptyText item || bareImage item || unknownType item.

Definition messageRejected (m : ClaudeMessage) : bool :=
  badRole m || (length (Content m) =? 0)%nat || existsb itemRejected (Content m).

(** The guards of [ValidateRequest], in the order of the source. *)
Definition requestRejected (r : ClaudeRequest) : bool :=
  String.eqb (Model r) ""
  || (MaxTokens r <=? 0)%Z || (200000 <? MaxTokens r)%Z
  || (length (Messages r) =? 0)%nat
  || (ClaudeToNewAPI.Qltb (Temperature r) 0 || ClaudeToNewAPI.Qltb 1 (Temperature r))
  || (ClaudeToNewAPI.Qltb (TopP r) 0 || ClaudeToNewAPI.Qltb 1 (TopP r))
  || (TopK r <? 0)%Z
  || existsb messageRejected (Messages r).

(** The backend part an item of known type turns into, if any. *)
Definition partOf (item : ContentItem) : list Types.MessageContent :=
  if String.eqb (Type_ item) "text" then
    [ {| Types.mc_Type := "text"; Types.mc_Text := Text item;
         Types.mc_ImageURL := ""; Types.mc_Detail := "" |} ]
  else if negb (String.eqb (ImageURL item) "") then
    [ {| Types.mc_Type := "image_url"; Types.mc_Text := "";
         Types.mc_ImageURL := ImageURL item; Types.mc_Detail := "" |} ]
  else [].

(** A well-formed request but for its [top_k]. *)
Definition negativeTopK : ClaudeRequest :=
  {| Model := "sonnet"; MaxTokens := 100;
     Messages := [ {| Role := "user"; Content := [NewAPIToClaude.textItem "hi"] |} ];
     System := ""; Temperature := 1; TopP := 1; TopK := -1;
     StopSequences := []; Stream := false; req_Metadata := None |}.

(** A well-formed request but for its [max_tokens]. *)
Definition overCeiling : ClaudeRequest :=
  {| Model := "sonnet"; MaxTokens := 200001;
     Messages := [ {| Role := "user"; Content := [NewAPIToClaude.textItem "hi"] |} ];
     System := ""; Temperature := 1; TopP := 1; TopK := 0;
     StopSequences := []; Stream := false; req_Metadata := None |}.

(** The request of scenario A of the specification. *)
Definition scenarioA : ClaudeRequest :=
  {| Model := "sonnet"; MaxTokens := 100;
     Messages := [ {| Role := "user"; Content := [NewAPIToClaude.textItem "hi"] |} ];
     System := ""; Temperature := 1; TopP := 1; TopK := 0;
     StopSequences := []; Stream := false; req_Metadata := None |}.

(** An image given by its inline source only. *)
Definition inlineImage : ContentItem :=
  {| Type_ := "image"; Text := "";
     Source := Some {| img_Type := "base64"; MediaType := "image/png"; img_Data := "iVBORw0KGgo=" |};
     ImageURL := "" |}.

End RequestRules.

(** ** Streams and backends used as examples *)

Module Scenarios.
Import ClaudeTypes.

(** A chunk with one choice: a text delta and a finish reason. *)
Definition chunk (text finish : string) : Types.ChatCompletionChunk :=
  {| Types.chunk_ID := "chatcmpl-1";
     Types.chunk_Choices :=
       [ {| Types.Index := 0;
            Types.Delta := {| Types.Role := ""; Types.Content := Types.ContentString text |};
            Types.FinishReason := finish |} ];
     Types.chunk_Usage := None |}.

Definition dataEvent (c : Types.ChatCompletionChunk) : Types.StreamEvent :=
  {| Types.Type_ := Types.StreamEventTypeData; Types.Data := Types.RawChunk c |}.

(** The results of [Next] on a backend stream that delivers the chunks and
    then ends. *)
Definition backendStream (chunks : list Types.ChatCompletionChunk)
  : list (result Types.StreamEvent) :=
  map (fun c => Ok (dataEvent c)) chunks ++ [Err EOF].

(** A handler whose client answers every streaming call with [stream], and
    whose request context is never done. *)
Definition handler (stream : result (list (result Types.StreamEvent))) : Server.MessageHandler :=
  {| Server.claudeToNewAPI := ClaudeToNewAPI.NewClaudeToNewAPIConverter;
     Server.modelOrder := map_to_list ClaudeToNewAPI.getModelMapping;
     Server.newAPIToClaudeConverter := NewAPIToClaude.NewNewAPIToClaudeConverter;
     Server.CreateChatCompletion := fun _ _ => Err (ErrorString "not a streaming backend");
     Server.CreateChatCompletionStream := fun _ _ => stream;
     Server.GenerateID := "msg_1";
     Server.ctxDone := fun _ => false |}.

Definition streamRequest : ClaudeRequest :=
  {| Model := "sonnet"; MaxTokens := 100;
     Messages := [ {| Role := "user"; Content := [NewAPIToClaude.textItem "hi"] |} ];
     System := ""; Temperature := 1; TopP := 1; TopK := 0;
     StopSequences := []; Stream := true; req_Metadata := None |}.

(** The chunks of scenario C of the specification. *)
Definition scenarioC : list Types.ChatCompletionChunk :=
  [chunk "Hel" ""; chunk "lo" ""; chunk "" "length"].

(** The shortest stream that ends in a finish reason. *)
Definition finishOnly : list Types.ChatCompletionChunk := [chunk "" "stop"].

(** The frames among what a handler has written. *)
Definition frames (out : list Server.written) : list StreamEvent :=
  flat_map (fun w => match w with Server.Frame event => [event] | _ => [] end) out.

(** The frame [ConvertStreamChunk] makes of a chunk that has a choice. *)
Definition chunkEvent (c : Types.ChatCompletionChunk) : StreamEvent :=
  match Types.chunk_Choices c with
  | choice :: _ =>
      if negb (String.eqb (Types.FinishReason choice) "")
      then NewAPIToClaude.createMessageStopEvent
      else NewAPIToClaude.createContentDeltaEvent (Types.Delta choice) 0
  | [] => NewAPIToClaude.createPingEvent
  end.

Definition hasChoice (c : Types.ChatCompletionChunk) : bool :=
  (0 <? length (Types.chunk_Choices c))%nat.

(** A non-empty text block or a non-empty image reference. *)
Definition representable (item : ContentItem) : bool :=
  (String.eqb (Type_ item) "text" && negb (String.eqb (Text item) ""))
  || (String.eqb (Type_ item) "image" && negb (String.eqb (ImageURL item) "")).

(** The error frame of the streaming path. *)
Definition apiErrorEvent (message : string) : StreamEvent :=
  {| ev_Type := "error"; Event := "error"; Data := ErrorEvent "error" "api_error" message |}.

(** A frame that is either no error frame or one of kind [api_error]
    carrying the message of some error. *)
Definition errorIsAPIError (w : Server.written) : Prop :=
  match w with
  | Server.Frame event =>
      Event event = "error" -> exists err, event = apiErrorEvent (Error err)
  | Server.Response _ _ => True
  end.

(** A request context that is never done. *)
Definition background : Transport.Context :=
  {| Transport.ctx_Err := fun _ => None; Transport.DoneWhile := fun _ => None |}.

Definition respond (statusCode : Z) : Transport.reply :=
  (Some {| Transport.StatusCode := statusCode |}, None).

(** A backend that answers 503 to the first two requests and 200 from the
    third on, behind a client with the default retry policy. *)
Definition unavailableTwice : Transport.HTTPClient (P := Transport.DefaultRetryPolicy) :=
  {| Transport.client_Do := fun n => if (n <? 2)%nat then respond 503 else respond 200;
     Transport.retryPolicy := Transport.NewDefaultRetryPolicy;
     Transport.middleware := [Transport.LoggingMiddleware] |}.

(** The error of [http.Client.Do] for a connection that is refused: a
    [url.Error], which is a [net.Error] that is neither temporary nor a
    timeout. *)
Definition connectionRefused : error :=
  NetError false false
    "Post http://127.0.0.1:3000/v1/chat/completions: dial tcp 127.0.0.1:3000: connect: connection refused".

(** The error of [http.Client.Do] for a request that exceeds the timeout of
    the client: a [url.Error] that is a timeout. *)
Definition clientTimeout : error :=
  NetError true true
    "Post http://127.0.0.1:3000/v1/chat/completions: context deadline exceeded (Client.Timeout exceeded while awaiting headers)".

(** A backend that refuses the first two connections. *)
Definition refusedTwice : Transport.HTTPClient (P := Transport.DefaultRetryPolicy) :=
  {| Transport.client_Do :=
       fun n => if (n <? 2)%nat then (None, Some connectionRefused) else respond 200;
     Transport.retryPolicy := Transport.NewDefaultRetryPolicy;
     Transport.middleware := [Transport.LoggingMiddleware] |}.

(** A backend that lets the first two requests time out. *)
Definition timedOutTwice : Transport.HTTPClient (P := Transport.DefaultRetryPolicy) :=
  {| Transport.client_Do :=
       fun n => if (n <? 2)%nat then (None, Some clientTimeout) else respond 200;
     Transport.retryPolicy := Transport.NewDefaultRetryPolicy;
     Transport.middleware := [Transport.LoggingMiddleware] |}.

(** A backend that lets every request time out. *)
Definition timedOutAlways : Transport.HTTPClient (P := Transport.DefaultRetryPolicy) :=
  {| Transport.client_Do := fun _ => (None, Some clientTimeout);
     Transport.retryPolicy := Transport.NewDefaultRetryPolicy;
     Transport.middleware := [Transport.LoggingMiddleware] |}.

(** The channels of a reader whose goroutine is still running: events are
    queued, nothing else is, and the context of the reader is live. *)
Definition running (events : list Transport.StreamEvent) : Transport.channels :=
  {| Transport.ctxErr := None; Transport.eventChan := events; Transport.errorChan := [];
     Transport.done := []; Transport.closed := false |}.

Definition dataOnly (data : string) : Transport.StreamEvent :=
  {| Transport.Event := ""; Transport.Data := data; Transport.ID := ""; Transport.Retry := 0 |}.

(** The channels of a reader whose goroutine has ended before the reader
    receives anything: what [processStream] sent is queued (the channels
    are buffered, for 100 events, 10 errors and one signal of completion) and
    its deferred function has closed the three channels. The context of the
    reader is live. *)
Definition ended (sent : Transport.pumped) : Transport.channels :=
  {| Transport.ctxErr := None; Transport.eventChan := Transport.sentEvents sent;
     Transport.errorChan := Transport.sentErrors sent; Transport.done := Transport.sentDone sent;
     Transport.closed := true |}.

(** The lines of a response body with one event of data, whose payload is a
    JSON object, and the sentinel, after which the backend closes the
    connection. *)
Definition objectThenDone : list string := [ "data: {}"; ""; "data: [DONE]"; "" ].

(** The processor [p] with the queue of its running reader replaced. *)
Definition queued (p : Chat.ChatStreamProcessor) (events : list Transport.StreamEvent)
  : Chat.ChatStreamProcessor :=
  {| Chat.stream := running events; Chat.chunks := Chat.chunks p;
     Chat.finished := Chat.finished p; Chat.err := Chat.err p |}.

(** What [streamReaderAdapter.Next] makes of a queued event whose data
    decodes. *)
Definition deliver {J : Type} (Unmarshal : string -> J + string)
    (Marshal : option J -> Types.RawMessage + string) (event : Transport.StreamEvent)
  : option Types.StreamEvent :=
  match Unmarshal (Transport.Data event) with
  | inl data =>
      match Marshal (Some data) with
      | inl jsonData =>
          Some {| Types.Type_ := Types.StreamEventTypeData; Types.Data := jsonData |}
      | inr _ => None
      end
  | inr _ => None
  end.

(** A queued event that is delivered as [delivered]. *)
Definition delivers {J : Type} (Unmarshal : string -> J + string)
    (Marshal : option J -> Types.RawMessage + string)
    (event : Transport.StreamEvent) (delivered : Types.StreamEvent) : Prop :=
  Transport.Data event <> "" /\ Transport.Data event <> "[DONE]" /\
  deliver Unmarshal Marshal event = Some delivered.

(** What a queue of events delivers, in order: an event without data is
    passed over, any other event of the queue is delivered. *)
Inductive queueDelivers {J : Type} (Unmarshal : string -> J + string)
    (Marshal : option J -> Types.RawMessage + string)
  : list Transport.StreamEvent -> list Types.StreamEvent -> Prop :=
| queue_empty : queueDelivers Unmarshal Marshal [] []
| queue_skip (event : Transport.StreamEvent) (queue : list Transport.StreamEvent)
    (delivered : list Types.StreamEvent) :
    Transport.Data event = "" ->
    queueDelivers Unmarshal Marshal queue delivered ->
    queueDelivers Unmarshal Marshal (event :: queue) delivered
| queue_deliver (event : Transport.StreamEvent) (d : Types.StreamEvent)
    (queue : list Transport.StreamEvent) (delivered : list Types.StreamEvent) :
    delivers Unmarshal Marshal event d ->
    queueDelivers Unmarshal Marshal queue delivered ->
    queueDelivers Unmarshal Marshal (event :: queue) (d :: delivered).

(** A stand-in for the JSON codec: the text itself is the decoded value,
    and it is encoded as the chunk whose delta is that text. *)
Definition decodeText (data : string) : string + string := inl data.

Definition encodeText (data : option string) : Types.RawMessage + string :=
  inl (Types.RawChunk (chunk (default "" data) "")).

(** A backend response whose only choice carries a plain text. *)
Definition helloAnswer : Types.ChatCompletionResponse :=
  {| Types.ID := "chatcmpl-2";
     Types.Choices :=
       [ {| Types.cc_Index := 0;
            Types.Message := {| Types.Role := "assistant";
                                Types.Content := Types.ContentString "hello" |};
            Types.cc_FinishReason := "stop" |} ];
     Types.resp_Usage := {| Types.PromptTokens := 5; Types.CompletionTokens := 7;
                            Types.TotalTokens := 12 |};
     Types.resp_Error := None |}.

(** A backend response whose only choice carries an empty message. *)
Definition emptyAnswer : Types.ChatCompletionResponse :=
  {| Types.ID := "chatcmpl-1";
     Types.Choices :=
       [ {| Types.cc_Index := 0;
            Types.Message := {| Types.Role := "assistant"; Types.Content := Types.ContentNil |};
            Types.cc_FinishReason := "stop" |} ];
     Types.resp_Usage := {| Types.PromptTokens := 5; Types.CompletionTokens := 7;
                            Types.TotalTokens := 12 |};
     Types.resp_Error := None |}.

(** A conversation: a system message and three turns, of 17, 15, 22 and 13
    tokens by the estimate of [CountTokens]. *)
Definition conversation : list Types.ChatMessage :=
  [ {| Types.Role := "system";
       Types.Content := Types.ContentString "Answer in one short sentence." |};
    {| Types.Role := "user"; Types.Content := Types.ContentString "What is a goroutine?" |};
    {| Types.Role := "assistant";
       Types.Content :=
         Types.ContentString "A function that runs concurrently with its caller." |};
    {| Types.Role := "user"; Types.Content := Types.ContentString "And a channel?" |} ].

(** A request context that is done from the start. *)
Definition cancelled : Transport.Context :=
  {| Transport.ctx_Err := fun _ => Some Canceled;
     Transport.DoneWhile := fun _ => Some Canceled |}.

(** An answer of the backend that carries an error object. *)
Definition rateLimited : Types.ChatCompletionResponse :=
  {| Types.ID := ""; Types.Choices := [];
     Types.resp_Usage := {| Types.PromptTokens := 0; Types.CompletionTokens := 0;
                            Types.TotalTokens := 0 |};
     Types.resp_Error :=
       Some {| Types.er_Type := "rate_limit_error"; Types.er_Code := "rate_limit_exceeded";
               Types.er_Message := "slow down" |} |}.

(** A handler whose client is the SDK with its default configuration over
    the transport [Post]. *)
Definition sdkHandler
    (Post : Types.ChatCompletionRequest -> result (result Types.ChatCompletionResponse))
  : Server.MessageHandler :=
  {| Server.claudeToNewAPI := ClaudeToNewAPI.NewClaudeToNewAPIConverter;
     Server.modelOrder := map_to_list ClaudeToNewAPI.getModelMapping;
     Server.newAPIToClaudeConverter := NewAPIToClaude.NewNewAPIToClaudeConverter;
     Server.CreateChatCompletion := Chat.CreateChatCompletion (Chat.NewChatService []) Post;
     Server.CreateChatCompletionStream := fun _ _ => Err (ErrorString "not a streaming backend");
     Server.GenerateID := "msg_1";
     Server.ctxDone := fun _ => false |}.

(** A handler like [handler] whose request context is done from turn [k]
    of the streaming loop on. *)
Definition handlerUntil (k : nat) (stream : result (list (result Types.StreamEvent)))
  : Server.MessageHandler :=
  {| Server.claudeToNewAPI := ClaudeToNewAPI.NewClaudeToNewAPIConverter;
     Server.modelOrder := map_to_list ClaudeToNewAPI.getModelMapping;
     Server.newAPIToClaudeConverter := NewAPIToClaude.NewNewAPIToClaudeConverter;
     Server.CreateChatCompletion := fun _ _ => Err (ErrorString "not a streaming backend");
     Server.CreateChatCompletionStream := fun _ _ => stream;
     Server.GenerateID := "msg_1";
     Server.ctxDone := fun i => (k <=? i)%nat |}.

(** A request as it is decoded from a body that names no model and asks
    for a temperature of 0. *)
Definition zeroTemperature : ClaudeRequest :=
  {| Model := ""; MaxTokens := 100;
     Messages := [ {| Role := "user"; Content := [NewAPIToClaude.textItem "hi"] |} ];
     System := ""; Temperature := 0; TopP := 0; TopK := 0;
     StopSequences := []; Stream := false; req_Metadata := None |}.

(** The request that the SDK posts for [scenarioA] and for
    [zeroTemperature]. *)
Definition postedRequest : Types.ChatCompletionRequest :=
  {| Types.req_Model := "claude-3-sonnet-20240229";
     Types.req_Messages :=
       [ {| Types.Role := "user"; Types.Content := Types.ContentString "hi" |} ];
     Types.req_MaxTokens := 100; Types.req_Temperature := 1; Types.req_TopP := 1;
     Types.req_N := 1; Types.req_Stream := false; Types.req_Stop := None;
     Types.req_PresencePenalty := 0; Types.req_FrequencyPenalty := 0 |}.

End Scenarios.

(** ** The lines of an event stream, and what a processor keeps *)

Module EventStreams.

(** The payloads of the data lines among the lines of an event. *)
Definition dataPayloads (lines : list string) : list string :=
  flat_map (fun line =>
              if Strings.HasPrefix line "data: " then [Strings.TrimPrefix line "data: "]
              else []) lines.

(** The names given by the event lines among the lines of an event. *)
Definition eventNames (lines : list string) : list string :=
  flat_map (fun line =>
              if Strings.HasPrefix line "data: " then []
              else if Strings.HasPrefix line "event: "
                   then [Strings.TrimPrefix line "event: "]
                   else []) lines.

(** A list of strings without the empty strings it starts with. *)
Fixpoint afterEmpty (l : list string) : list string :=
  match l with
  | [] => []
  | s :: rest => if String.eqb s "" then afterEmpty rest else l
  end.

(** An event that [processStream] sends on. *)
Definition worthSending (event : Transport.StreamEvent) : bool :=
  negb (String.eqb (Transport.Data event) "") || negb (String.eqb (Transport.Event event) "").

(** A line as the scanner loop keeps it: trimmed and not blank. *)
Definition keptLine (line : string) : Prop :=
  Strings.TrimSpace line = line /\ line <> "".

(** The chunk that [ChatStreamProcessor.Next] keeps of what it returns. *)
Definition keptChunk (r : result Types.StreamEvent) : list Types.ChatCompletionChunk :=
  match r with
  | Ok event =>
      if String.eqb (Types.Type_ event) Types.StreamEventTypeData then
        match Chat.parseChunk (Types.Data event) with
        | Ok chunk => [chunk]
        | Err _ => []
        end
      else []
  | Err _ => []
  end.

(** The texts of the choices of some chunks, in order. *)
Definition choiceTexts (chunks : list Types.ChatCompletionChunk) : list string :=
  flat_map (fun chunk => map Types.GetContent (Types.chunk_Choices chunk)) chunks.

End EventStreams.

(** * Properties *)

Import Strings.

(** ** Byte strings *)

Lemma lower_ascii_idem (c : ascii) : lower_ascii (lower_ascii c) = lower_ascii c.
Proof. destruct c as [[] [] [] [] [] [] [] []]; reflexivity. Qed.

Lemma ToLower_idem (s : string) : ToLower (ToLower s) = ToLower s.
Proof.
  induction s as [|c s IH]; simpl; [reflexivity|].
  by rewrite lower_ascii_idem, IH.
Qed.

Lemma HasPrefix_refl (s : string) : HasPrefix s s = true.
Proof.
  induction s as [|c s IH]; simpl; [reflexivity|].
  by rewrite Ascii.eqb_refl, IH.
Qed.

Lemma Contains_refl (s : string) : Contains s s = true.
Proof. destruct s; simpl; [reflexivity|]. by rewrite Ascii.eqb_refl, HasPrefix_refl. Qed.

(** ** Model aliases *)

Section mapModel.
Import ClaudeToNewAPI.

Abbreviation c0 := NewClaudeToNewAPIConverter.

Lemma rangeMatch_None (s : string) (order : list (string * string)) :
  rangeMatch s order = None <->
  Forall (fun kv => Contains s (ToLower kv.1) = false) order.
Proof.
  induction order as [|[k v] order IH]; simpl.
  - split; [constructor|reflexivity].
  - destruct (Contains s (ToLower k)) eqn:E.
    + split; [discriminate|]. inversion 1; simpl in *; congruence.
    + rewrite IH. split; [by constructor|]. by inversion 1.
Qed.

Lemma rangeMatch_Some (s : string) (order : list (string * string)) (v : string) :
  rangeMatch s order = Some v ->
  exists k, (k, v) ∈ order /\ Contains s (ToLower k) = true.
Proof.
  induction order as [|[k w] order IH]; simpl; [discriminate|].
  destruct (Contains s (ToLower k)) eqn:E.
  - intros [= <-]. exists k. split; [left|done].
  - intros H. destruct (IH H) as (k' & Hin & Hc). exists k'. split; [by right|done].
Qed.

(** Every entry of the table, by cases. *)
Lemma table_entry (k v : string) :
  getModelMapping !! k = Some v -> (k, v) ∈ modelTable.
Proof. apply elem_of_list_to_map_2. Qed.

Lemma order_entry (order : list (string * string)) (k v : string) :
  rangeOrder c0 order -> (k, v) ∈ order -> getModelMapping !! k = Some v.
Proof.
  unfold rangeOrder. intros Hp Hin. rewrite Hp in Hin.
  by apply elem_of_map_to_list in Hin.
Qed.

Lemma entry_order (order : list (string * string)) (k v : string) :
  rangeOrder c0 order -> getModelMapping !! k = Some v -> (k, v) ∈ order.
Proof.
  unfold rangeOrder. intros Hp Hk. rewrite Hp. by apply elem_of_map_to_list.
Qed.

Ltac table_cases H :=
  apply table_entry in H; unfold modelTable in H;
  repeat (apply elem_of_cons in H as [H|H]; [injection H as -> ->|]);
  [..|by apply elem_of_nil in H].

(** The canonical identifiers are keys of the table, mapped to themselves. *)
Lemma canonical_fixed (k v : string) :
  getModelMapping !! k = Some v -> getModelMapping !! v = Some v.
Proof. intros H. table_cases H; reflexivity. Qed.

(** The keys of the table are in lower case. *)
Lemma key_lower (k v : string) :
  getModelMapping !! k = Some v -> ToLower k = k.
Proof. intros H. table_cases H; reflexivity. Qed.

Lemma mapModel_exact (order : list (string * string)) (s v : string) :
  getModelMapping !! s = Some v -> mapModel c0 order s = v.
Proof. unfold mapModel. simpl. by intros ->. Qed.

Lemma mapModel_fuzzy (order : list (string * string)) (s v : string) :
  getModelMapping !! s = None -> rangeMatch (ToLower s) order = Some v ->
  mapModel c0 order s = v.
Proof. unfold mapModel. simpl. by intros -> ->. Qed.

Lemma mapModel_unmatched (order : list (string * string)) (s : string) :
  getModelMapping !! s = None -> rangeMatch (ToLower s) order = None ->
  mapModel c0 order s = ToLower s.
Proof. unfold mapModel. simpl. by intros -> ->. Qed.

(** A result of [mapModel] is a canonical identifier or the lower-cased
    input, and in the second case no key occurs in it. *)
Lemma mapModel_result (order : list (string * string)) (s : string) :
  rangeOrder c0 order ->
  getModelMapping !! mapModel c0 order s = Some (mapModel c0 order s) \/
  (mapModel c0 order s = ToLower s /\ rangeMatch (ToLower s) order = None).
Proof.
  intros Hord. unfold mapModel. simpl.
  destruct (getModelMapping !! s) as [v|] eqn:E.
  - left. by apply canonical_fixed in E.
  - destruct (rangeMatch (ToLower s) order) as [v|] eqn:R.
    + left. apply rangeMatch_Some in R as (k & Hin & _).
      apply (order_entry _ _ _ Hord) in Hin. by apply canonical_fixed in Hin.
    + by right.
Qed.

Lemma rangeMatch_None_perm (s : string) (order1 order2 : list (string * string)) :
  order1 ≡ₚ order2 -> rangeMatch s order1 = None -> rangeMatch s order2 = None.
Proof. rewrite !rangeMatch_None. by intros ->. Qed.

(** C5 (the code departs from the claim). Whatever the order in which the
    table is ranged over, the alias "GPT-Unknown-9000", which matches no
    key, does not resolve to itself: [mapModel] returns its lower-cased
    form. *)
Theorem mapModel_unmatched_is_lowercased (order : list (string * string)) :
  rangeOrder c0 order ->
  mapModel c0 order "GPT-Unknown-9000" = "gpt-unknown-9000" /\
  mapModel c0 order "GPT-Unknown-9000" <> "GPT-Unknown-9000".
Proof.
  intros Hord.
  assert (mapModel c0 order "GPT-Unknown-9000" = "gpt-unknown-9000") as ->; [|done].
  apply mapModel_unmatched; [by vm_compute|].
  apply (rangeMatch_None_perm _ (map_to_list getModelMapping)); [done|].
  by vm_compute.
Qed.

Lemma mapModel_unmatched_is_lowercased_witness :
  mapModel c0 (map_to_list getModelMapping) "GPT-Unknown-9000" = "gpt-unknown-9000" /\
  mapModel c0 (map_to_list getModelMapping) "GPT-Unknown-9000" <> "GPT-Unknown-9000".
Proof. apply mapModel_unmatched_is_lowercased. unfold rangeOrder. reflexivity. Defined.

(** What does hold of the three stages of the lookup: an exact match wins;
    failing that, the result is the canonical identifier of some key that
    occurs in the lower-cased input; failing that, the lower-cased input.
    In particular the all-lower-case "gpt-unknown-9000" resolves to
    itself. *)
Lemma mapModel_stages (order : list (string * string)) (s : string) :
  rangeOrder c0 order ->
  match getModelMapping !! s with
  | Some v => mapModel c0 order s = v
  | None =>
      (exists k, getModelMapping !! k = Some (mapModel c0 order s)
                 /\ Contains (ToLower s) (ToLower k) = true)
      \/ (mapModel c0 order s = ToLower s
          /\ forall k v, getModelMapping !! k = Some v ->
                         Contains (ToLower s) (ToLower k) = false)
  end.
Proof.
  intros Hord. destruct (getModelMapping !! s) as [v|] eqn:E.
  - by apply mapModel_exact.
  - destruct (rangeMatch (ToLower s) order) as [v|] eqn:R.
    + left. rewrite (mapModel_fuzzy _ _ _ E R).
      apply rangeMatch_Some in R as (k & Hin & Hc).
      exists k. split; [by eapply order_entry|done].
    + right. rewrite (mapModel_unmatched _ _ E R). split; [done|].
      intros k v Hk. apply rangeMatch_None in R.
      rewrite Forall_forall in R. by apply (R (k, v)), entry_order.
Qed.

Lemma mapModel_lowercase_unknown (order : list (string * string)) :
  rangeOrder c0 order -> mapModel c0 order "gpt-unknown-9000" = "gpt-unknown-9000".
Proof.
  intros Hord. apply mapModel_unmatched; [by vm_compute|].
  apply (rangeMatch_None_perm _ (map_to_list getModelMapping)); [done|].
  by vm_compute.
Qed.

(** C6. Resolution is idempotent, whatever the two visiting orders, and a
    canonical identifier (a value of the table) resolves to itself. *)
Theorem mapModel_idempotent (order1 order2 : list (string * string)) (s : string) :
  rangeOrder c0 order1 -> rangeOrder c0 order2 ->
  mapModel c0 order2 (mapModel c0 order1 s) = mapModel c0 order1 s /\
  (forall k canonical, getModelMapping !! k = Some canonical ->
                       mapModel c0 order2 canonical = canonical).
Proof.
  intros H1 H2. split.
  - destruct (mapModel_result order1 s H1) as [Hc|[Hs Hn]].
    + by apply mapModel_exact.
    + rewrite Hs.
      assert (getModelMapping !! ToLower s = None) as Hnone.
      { destruct (getModelMapping !! ToLower s) as [v|] eqn:E; [|done].
        apply rangeMatch_None in Hn. rewrite Forall_forall in Hn.
        specialize (Hn (ToLower s, v) (entry_order _ _ _ H1 E)). simpl in Hn.
        by rewrite ToLower_idem, Contains_refl in Hn. }
      rewrite (mapModel_unmatched order2 (ToLower s) Hnone); rewrite ToLower_idem; [done|].
      apply (rangeMatch_None_perm _ order1); [|done].
      unfold rangeOrder in *. by rewrite H1, H2.
  - intros k canonical Hk. apply mapModel_exact. by apply canonical_fixed in Hk.
Qed.

Lemma mapModel_idempotent_witness :
  mapModel c0 (map_to_list getModelMapping)
    (mapModel c0 (map_to_list getModelMapping) "My-Sonnet")
  = mapModel c0 (map_to_list getModelMapping) "My-Sonnet" /\
  mapModel c0 (map_to_list getModelMapping) "claude-3-haiku-20240307"
  = "claude-3-haiku-20240307".
Proof.
  assert (rangeOrder c0 (map_to_list getModelMapping)) as Hord
    by (unfold rangeOrder; reflexivity).
  destruct (mapModel_idempotent _ _ "My-Sonnet" Hord Hord) as [Hidem Hcanon].
  split; [exact Hidem|]. apply (Hcanon "haiku"). reflexivity.
Defined.

End mapModel.

(** ** Request validation and translation *)

Section requests.
Import ClaudeTypes ClaudeToNewAPI RequestRules.

Lemma validateContent_cases (item : ContentItem) (i j : nat) :
  match validateContent item i j with
  | None => itemRejected item = false
  | Some e => itemRejected item = true /\ invalidRequest e
  end.
Proof.
  unfold validateContent, itemRejected, emptyText, bareImage, unknownType,
    ContentTypeText, ContentTypeImage.
  destruct (String.eqb (Type_ item) "text") eqn:Et.
  - apply String.eqb_eq in Et. rewrite Et. simpl.
    destruct (String.eqb (Text item) ""); simpl; [split; [done|by eexists]|done].
  - destruct (String.eqb (Type_ item) "image") eqn:Ei,
      (String.eqb (ImageURL item) ""), (Source item); simpl;
      first [done | split; [done|by eexists]].
Qed.

Lemma validateContents_cases (items : list ContentItem) (i j : nat) :
  match validateContents items i j with
  | None => existsb itemRejected items = false
  | Some e => existsb itemRejected items = true /\ invalidRequest e
  end.
Proof.
  revert j. induction items as [|item items IH]; intros j; simpl; [done|].
  pose proof (validateContent_cases item i j) as Hc.
  destruct (validateContent item i j) as [e|].
  - destruct Hc as [-> He]. by split.
  - rewrite Hc. simpl. apply IH.
Qed.

Lemma validateMessage_cases (m : ClaudeMessage) (i : nat) :
  match validateMessage m i with
  | None => messageRejected m = false
  | Some e => messageRejected m = true /\ invalidRequest e
  end.
Proof.
  unfold validateMessage, messageRejected, badRole, RoleUser, RoleAssistant.
  destruct (String.eqb (Role m) "user"), (String.eqb (Role m) "assistant"); simpl;
    try (destruct (length (Content m) =? 0)%nat; simpl;
         [split; [done|by eexists]|apply validateContents_cases]).
  split; [done|by eexists].
Qed.

Lemma validateMessages_cases (msgs : list ClaudeMessage) (i : nat) :
  match validateMessages msgs i with
  | None => existsb messageRejected msgs = false
  | Some e => existsb messageRejected msgs = true /\ invalidRequest e
  end.
Proof.
  revert i. induction msgs as [|m msgs IH]; intros i; simpl; [done|].
  pose proof (validateMessage_cases m i) as Hc.
  destruct (validateMessage m i) as [e|].
  - destruct Hc as [-> He]. by split.
  - rewrite Hc. simpl. apply IH.
Qed.

Lemma ValidateRequest_cases (r : ClaudeRequest) :
  match ValidateRequest (Some r) with
  | None => requestRejected r = false
  | Some e => requestRejected r = true /\ invalidRequest e
  end.
Proof.
  unfold ValidateRequest, requestRejected.
  repeat match goal with
         | |- context [if ?b then Some _ else _] =>
             destruct b; simpl; [split; [by rewrite ?orb_true_r|by eexists]|]
         end.
  apply validateMessages_cases.
Qed.

Lemma existsb_orb {A : Type} (f g : A -> bool) (l : list A) :
  existsb (fun x => f x || g x) l = existsb f l || existsb g l.
Proof.
  induction l as [|x l IH]; simpl; [done|]. rewrite IH.
  destruct (f x), (g x), (existsb f l), (existsb g l); reflexivity.
Qed.

Lemma messageRejected_split (msgs : list ClaudeMessage) :
  existsb messageRejected msgs
  = existsb listedMessage msgs || existsb (fun m => existsb unknownType (Content m)) msgs.
Proof.
  rewrite <- existsb_orb. induction msgs as [|m msgs IH]; simpl; [done|].
  rewrite IH. f_equal. unfold messageRejected, listedMessage, itemRejected.
  rewrite !existsb_orb.
  destruct (badRole m), (length (Content m) =? 0)%nat, (existsb emptyText (Content m)),
    (existsb bareImage (Content m)), (existsb unknownType (Content m)); reflexivity.
Qed.

Lemma requestRejected_amended (r : ClaudeRequest) :
  requestRejected r = amendedInvalid r.
Proof.
  unfold requestRejected, amendedInvalid, listedInvalid, outsideUnit, Qltb.
  rewrite messageRejected_split, !negb_andb.
  destruct (String.eqb (Model r) ""), (MaxTokens r <=? 0)%Z, (200000 <? MaxTokens r)%Z,
    (length (Messages r) =? 0)%nat, (Qle_bool 0 (Temperature r)),
    (Qle_bool (Temperature r) 1), (Qle_bool 0 (TopP r)), (Qle_bool (TopP r) 1),
    (TopK r <? 0)%Z, (existsb listedMessage (Messages r)),
    (existsb (fun m => existsb unknownType (Content m)) (Messages r)); reflexivity.
Qed.

Lemma convertItems_parts (items : list ContentItem) (acc : list Types.MessageContent) :
  existsb unknownType items = false ->
  convertItems items acc = Ok (acc ++ flat_map partOf items).
Proof.
  revert acc. induction items as [|item items IH]; intros acc; simpl.
  - by rewrite app_nil_r.
  - unfold unknownType at 1, partOf, ContentTypeText, ContentTypeImage.
    destruct (String.eqb (Type_ item) "text") eqn:Et; simpl.
    + intros H. rewrite (IH _ H). by rewrite <- app_assoc.
    + destruct (String.eqb (Type_ item) "image") eqn:Ei; simpl; [|discriminate].
      intros H. destruct (String.eqb (ImageURL item) ""); simpl; rewrite (IH _ H);
        [done|by rewrite <- app_assoc].
Qed.

Lemma convertContent_ok (items : list ContentItem) :
  (length items =? 0)%nat = false -> existsb unknownType items = false ->
  exists content, convertContent items = Ok content.
Proof.
  intros Hlen Hty. unfold convertContent. destruct items as [|first others]; [done|].
  destruct ((length (first :: others) =? 1)%nat && _); [by eexists|].
  rewrite (convertItems_parts _ _ Hty). by eexists.
Qed.

Lemma convertMessage_ok (m : ClaudeMessage) :
  messageRejected m = false -> exists out, convertMessage m = Ok out.
Proof.
  unfold messageRejected, badRole, convertMessage, RoleUser, RoleAssistant.
  intros H. apply orb_false_elim in H as [H Hitems].
  apply orb_false_elim in H as [Hrole Hlen].
  assert (existsb unknownType (Content m) = false) as Hty.
  { unfold itemRejected in Hitems. rewrite existsb_orb in Hitems.
    by apply orb_false_elim in Hitems as [_ ?]. }
  destruct (convertContent_ok _ Hlen Hty) as [content ->].
  destruct (String.eqb (Role m) "user"); [by eexists|].
  destruct (String.eqb (Role m) "assistant"); [by eexists|done].
Qed.

Lemma convertEach_ok (msgs : list ClaudeMessage) (acc : list Types.ChatMessage) :
  existsb messageRejected msgs = false -> exists out, convertEach msgs acc = Ok out.
Proof.
  revert acc. induction msgs as [|m msgs IH]; intros acc; simpl; [by eexists|].
  intros H. apply orb_false_elim in H as [Hm Hrest].
  destruct (convertMessage_ok m Hm) as [out ->]. by apply IH.
Qed.

Lemma validateMsgs_ok (msgs : list ClaudeMessage) (i : nat) :
  existsb messageRejected msgs = false -> validateMsgs i msgs = None.
Proof.
  revert i. induction msgs as [|m msgs IH]; intros i; simpl; [done|].
  intros H. apply orb_false_elim in H as [Hm Hrest].
  unfold messageRejected, badRole in Hm.
  apply orb_false_elim in Hm as [Hm _]. apply orb_false_elim in Hm as [Hrole Hlen].
  unfold validateMsg, RoleUser, RoleAssistant. rewrite Hlen.
  destruct (String.eqb (Role m) "user"), (String.eqb (Role m) "assistant");
    simpl in *; try done; by apply IH.
Qed.

Lemma ConvertRequest_ok (c : ClaudeToNewAPIConverter) (order : list (string * string))
    (r : ClaudeRequest) :
  requestRejected r = false -> exists out, ConvertRequest c order (Some r) = Ok out.
Proof.
  unfold requestRejected. intros H.
  repeat (apply orb_false_elim in H as [H ?]).
  unfold ConvertRequest, Validate.
  rewrite H. match goal with Hm : (MaxTokens r <=? 0)%Z = false |- _ => rewrite Hm end.
  match goal with Hm : (length (Messages r) =? 0)%nat = false |- _ => rewrite Hm end.
  rewrite validateMsgs_ok by done.
  unfold convertMessages.
  match goal with |- context [convertEach ?l ?a] =>
    destruct (convertEach_ok l a) as [messages ->]; [done|] end.
  by eexists.
Qed.

(** C4, as amended. Translation fails, and then with an error of the kind
    [invalid_request_error], exactly when the request meets one of the
    conditions listed by the specification, or has a negative [top_k], or
    has a content item that is neither a text nor an image; otherwise it
    succeeds. *)
Theorem translateRequest_fails_iff (c : ClaudeToNewAPIConverter)
    (order : list (string * string)) (r : ClaudeRequest) :
  match Server.translateRequest c order r with
  | Err e => amendedInvalid r = true /\ invalidRequest e
  | Ok _ => amendedInvalid r = false
  end.
Proof.
  unfold Server.translateRequest. rewrite <- requestRejected_amended.
  pose proof (ValidateRequest_cases r) as Hv.
  destruct (ValidateRequest (Some r)) as [e|]; [done|].
  destruct (ConvertRequest_ok c order r Hv) as [out ->]. done.
Qed.

(** C4, as stated, fails: a request with [top_k = -1] meets none of the
    listed conditions, and its translation is refused. *)
Lemma negative_top_k_is_refused :
  listedInvalid negativeTopK = false /\
  Server.translateRequest NewClaudeToNewAPIConverter (map_to_list getModelMapping) negativeTopK
  = Err (ClaudeError "invalid_request_error" "top_k must be non-negative").
Proof. split; reflexivity. Qed.

(** [ConvertRequest] on its own runs [Validate] only, which has neither the
    ceiling on [max_tokens] nor the checks of the sampling parameters and
    of the items: the conditions of C4 are those of [ValidateRequest]. *)
Lemma ConvertRequest_alone_is_laxer :
  ValidateRequest (Some overCeiling)
  = Some (ClaudeError "invalid_request_error" "max_tokens cannot exceed 200000") /\
  exists out,
    ConvertRequest NewClaudeToNewAPIConverter (map_to_list getModelMapping) (Some overCeiling)
    = Ok out.
Proof. split; [reflexivity|]. eexists. by vm_compute. Qed.

(** The request of scenario A is translated. *)
Lemma scenarioA_translated :
  Server.translateRequest NewClaudeToNewAPIConverter (map_to_list getModelMapping) scenarioA
  = Ok ([ {| Types.Role := "user"; Types.Content := Types.ContentString "hi" |} ],
        [ Chat.WithModel "claude-3-sonnet-20240229"; Chat.WithMaxTokens 100;
          Chat.WithTemperature 1; Chat.WithTopP 1 ]).
Proof. by vm_compute. Qed.

(** *** Images given by an inline source *)

Lemma convertItems_skips (item : ContentItem) (pre post : list ContentItem)
    (acc : list Types.MessageContent) :
  Type_ item = "image" -> ImageURL item = "" ->
  convertItems (pre ++ item :: post) acc = convertItems (pre ++ post) acc.
Proof.
  intros Hty Hurl. revert acc. induction pre as [|p pre IH]; intros acc; simpl.
  - by rewrite Hty, Hurl.
  - repeat match goal with |- context [if ?b then _ else _] => destruct b end;
      by rewrite ?IH.
Qed.

(** C9. An image item with an inline source and no URL passes validation,
    and conversion leaves it out: it contributes nothing to the backend
    content, wherever it stands in a message; a message made of that item
    alone is accepted and converts, without error, to an empty content
    list. *)
Theorem inline_image_dropped (item : ContentItem) :
  Type_ item = "image" -> ImageURL item = "" -> is_Some (Source item) ->
  (forall i j, validateContent item i j = None) /\
  (forall pre post acc,
      convertItems (pre ++ item :: post) acc = convertItems (pre ++ post) acc) /\
  (forall pre post content,
      convertContent (pre ++ item :: post) = Ok content ->
      content = Types.ContentParts (flat_map partOf (pre ++ post))) /\
  (forall role i, role = "user" \/ role = "assistant" ->
      validateMessage {| Role := role; Content := [item] |} i = None /\
      convertMessage {| Role := role; Content := [item] |}
      = Ok {| Types.Role := role; Types.Content := Types.ContentParts [] |}).
Proof.
  intros Hty Hurl [img Hsrc].
  assert (forall i j, validateContent item i j = None) as Hval.
  { intros i j. unfold validateContent. by rewrite Hty, Hurl, Hsrc. }
  split; [done|]. split; [intros; by apply convertItems_skips|]. split.
  - intros pre post content. unfold convertContent.
    destruct (pre ++ item :: post) as [|first others] eqn:El; [done|].
    assert ((length (first :: others) =? 1)%nat && String.eqb (Type_ first) ContentTypeText
            = false) as ->.
    { destruct pre as [|p pre]; simpl in El.
      - injection El as <- <-. rewrite Hty. by rewrite andb_false_r.
      - injection El as <- <-. rewrite length_cons, length_app, length_cons.
        by rewrite Nat.add_succ_r. }
    rewrite <- El, convertItems_skips by done.
    destruct (existsb unknownType (pre ++ post)) eqn:Eu.
    + destruct (convertItems (pre ++ post) []) as [parts|e] eqn:Ec; [|done].
      exfalso. revert Ec Eu. generalize (@nil Types.MessageContent).
      induction (pre ++ post) as [|x l IH]; intros acc; simpl; [done|].
      unfold unknownType at 1, ContentTypeText, ContentTypeImage.
      destruct (String.eqb (Type_ x) "text"); simpl; [by apply IH|].
      destruct (String.eqb (Type_ x) "image"); simpl; [|done].
      destruct (String.eqb (ImageURL x) ""); simpl; by apply IH.
    + rewrite (convertItems_parts _ _ Eu). simpl. by intros [= <-].
  - intros role i Hrole. split.
    + unfold validateMessage, RoleUser, RoleAssistant. simpl.
      rewrite Hval. by destruct Hrole as [-> | ->].
    + unfold convertMessage, convertContent, RoleUser, RoleAssistant, RoleSystem. simpl.
      rewrite Hty, Hurl. simpl. by destruct Hrole as [-> | ->].
Qed.

Lemma inline_image_dropped_witness :
  validateMessage {| Role := "user"; Content := [inlineImage] |} 0 = None /\
  convertMessage {| Role := "user"; Content := [inlineImage] |}
  = Ok {| Types.Role := "user"; Types.Content := Types.ContentParts [] |}.
Proof.
  apply (inline_image_dropped inlineImage); [reflexivity|reflexivity|by eexists|by left].
Defined.

End requests.

(** ** The response translator *)

Section responses.
Import ClaudeTypes NewAPIToClaude Scenarios.

Lemma convertParts_representable (parts : list Types.MessageContent)
    (acc : list ContentItem) :
  forallb representable acc = true ->
  forallb representable (convertParts parts acc) = true.
Proof.
  revert acc. induction parts as [|p parts IH]; intros acc Hacc; simpl; [done|].
  destruct (String.eqb (Types.mc_Type p) Types.ChatMessageTypeText).
  - destruct (String.eqb (Types.mc_Text p) "") eqn:Et; simpl; apply IH; [done|].
    rewrite forallb_app, Hacc. simpl. unfold representable. simpl. by rewrite Et.
  - destruct (String.eqb (Types.mc_Type p) Types.ChatMessageTypeImageURL); [|by apply IH].
    destruct (String.eqb (Types.mc_ImageURL p) "") eqn:Eu; simpl; apply IH; [done|].
    rewrite forallb_app, Hacc. simpl. unfold representable. simpl. by rewrite Eu.
Qed.

Lemma convertContent_shape (message : Types.ChatMessage) :
  convertContent message = [textItem ""] \/
  (convertContent message <> [] /\ forallb representable (convertContent message) = true).
Proof.
  unfold convertContent.
  match goal with |- context [length ?l] => set (content := l) end.
  assert (forallb representable content = true) as Hrep.
  { unfold content. destruct message as [role [|s|parts|]]; simpl.
    - reflexivity.
    - destruct (String.eqb s "") eqn:E; simpl; [done|].
      unfold representable. simpl. by rewrite E.
    - by apply convertParts_representable.
    - reflexivity. }
  destruct content as [|item content]; simpl; [by left|right]. done.
Qed.

(** C7. The content of a translated response is never empty: it is a single
    empty text block, or a non-empty list of non-empty blocks. *)
Theorem ConvertResponse_content_nonempty (c : NewAPIToClaudeConverter)
    (newAPIResp : option Types.ChatCompletionResponse) (originalModel : string)
    (claudeResp : ClaudeResponse) :
  ConvertResponse c newAPIResp originalModel = Ok claudeResp ->
  resp_Content claudeResp <> [] /\
  (resp_Content claudeResp = [textItem ""] \/
   forallb representable (resp_Content claudeResp) = true).
Proof.
  unfold ConvertResponse. destruct newAPIResp as [resp|]; [|done].
  destruct (Types.IsError resp); [done|].
  destruct (Types.GetFirstChoice resp) as [choice|]; [|done].
  intros [= <-]. simpl.
  destruct (convertContent_shape (Types.Message choice)) as [-> | [Hne Hrep]].
  - split; [done|by left].
  - split; [done|by right].
Qed.

Lemma ConvertResponse_content_nonempty_witness :
  resp_Content
    {| ID := "chatcmpl-1"; resp_Type := "message"; resp_Role := "assistant";
       resp_Content := [textItem ""]; resp_Model := "sonnet"; StopReason := "end_turn";
       StopSequence := ""; resp_Usage := {| InputTokens := 5; OutputTokens := 7 |} |} <> [] /\
  (resp_Content
     {| ID := "chatcmpl-1"; resp_Type := "message"; resp_Role := "assistant";
        resp_Content := [textItem ""]; resp_Model := "sonnet"; StopReason := "end_turn";
        StopSequence := ""; resp_Usage := {| InputTokens := 5; OutputTokens := 7 |} |}
   = [textItem ""] \/
   forallb representable
     (resp_Content
        {| ID := "chatcmpl-1"; resp_Type := "message"; resp_Role := "assistant";
           resp_Content := [textItem ""]; resp_Model := "sonnet"; StopReason := "end_turn";
           StopSequence := ""; resp_Usage := {| InputTokens := 5; OutputTokens := 7 |} |})
   = true).
Proof.
  apply (ConvertResponse_content_nonempty NewNewAPIToClaudeConverter (Some emptyAnswer) "sonnet").
  reflexivity.
Defined.

End responses.

(** ** The streaming handler *)

Section streaming.
Import ClaudeTypes NewAPIToClaude Server Scenarios.

Lemma sendStreamError_frame (err : error) :
  sendStreamError err = [Frame (apiErrorEvent (Error err))].
Proof. reflexivity. Qed.

Lemma createErrorEvent_event (err : error) :
  createErrorEvent err = apiErrorEvent (Error err).
Proof. reflexivity. Qed.

Lemma ConvertStreamChunk_event (c : NewAPIToClaudeConverter)
    (chunk : Types.ChatCompletionChunk) (model : string) (event : StreamEvent) :
  ConvertStreamChunk c (Some chunk) model = Ok event ->
  event = chunkEvent chunk /\ Event event <> "error".
Proof.
  unfold ConvertStreamChunk, chunkEvent.
  destruct (Types.chunk_Choices chunk) as [|choice rest]; [done|].
  destruct (negb (String.eqb (Types.FinishReason choice) "")); by intros [= <-].
Qed.

Lemma processStreamEvent_frames (h : MessageHandler) (event : Types.StreamEvent) :
  Forall errorIsAPIError (processStreamEvent h event).1.
Proof.
  unfold processStreamEvent.
  destruct (String.eqb (Types.Type_ event) Types.StreamEventTypeData); [|by constructor].
  destruct (Types.Unmarshal (Types.Data event)) as [chunk|e]; [|by constructor].
  destruct (ConvertStreamChunk _ (Some chunk) "") as [claudeEvent|e] eqn:Ec; [|by constructor].
  apply ConvertStreamChunk_event in Ec as [_ Hne].
  simpl. constructor; [|constructor]. simpl. by intros ?.
Qed.

Lemma sendStreamError_frames (err : error) : Forall errorIsAPIError (sendStreamError err).
Proof. rewrite sendStreamError_frame. constructor; [|constructor]. simpl. by eexists. Qed.

Lemma streamLoop_frames (h : MessageHandler) (i : nat)
    (nexts : list (result Types.StreamEvent)) :
  Forall errorIsAPIError (streamLoop h i nexts).1.
Proof.
  revert i. induction nexts as [|next nexts IH]; intros i; simpl.
  - destruct (ctxDone h i); by constructor.
  - destruct (ctxDone h i); [by constructor|].
    destruct next as [event|err].
    + pose proof (processStreamEvent_frames h event) as Hp.
      destruct (processStreamEvent h event) as [out [err|]]; simpl in *.
      * apply Forall_app. split; [done|apply sendStreamError_frames].
      * specialize (IH (S i)). destruct (streamLoop h (S i) nexts) as [out' exit].
        simpl in *. by apply Forall_app.
    + destruct err; simpl; try apply sendStreamError_frames. constructor.
Qed.

(** C10. On the streaming path every error frame has the type [api_error]
    and carries the message of the error it reports, whatever that error
    is: this is what [sendStreamError] and [createErrorEvent] build, and
    [handleStreamMessage] writes no other error frame. *)
Theorem stream_errors_are_api_errors :
  (forall err, sendStreamError err = [Frame (apiErrorEvent (Error err))]) /\
  (forall err, createErrorEvent err = apiErrorEvent (Error err)) /\
  (forall h flusher claudeReq event,
      Frame event ∈ handleStreamMessage h flusher claudeReq ->
      Event event = "error" ->
      exists err, Data event = ErrorEvent "error" "api_error" (Error err)).
Proof.
  split; [exact sendStreamError_frame|]. split; [exact createErrorEvent_event|].
  intros h flusher claudeReq event Hin Hev.
  assert (Forall errorIsAPIError (handleStreamMessage h flusher claudeReq)) as Hall.
  { unfold handleStreamMessage. destruct flusher; cbn [negb]; [|by repeat constructor].
    destruct (ClaudeToNewAPI.ConvertRequest (claudeToNewAPI h) (modelOrder h) (Some claudeReq))
      as [[messages options]|e]; [|apply sendStreamError_frames].
    destruct (CreateChatCompletionStream h messages options) as [stream|e];
      [|apply sendStreamError_frames].
    pose proof (streamLoop_frames h 0 stream) as Hloop.
    destruct (streamLoop h 0 stream) as [out exit]. simpl in Hloop.
    repeat (constructor; [simpl; by intros ?|]).
    apply Forall_app. split; [done|].
    destruct exit; simpl; repeat (constructor; [simpl; by intros ?|]); constructor. }
  rewrite Forall_forall in Hall. destruct (Hall _ Hin Hev) as [err ->]. by exists err.
Qed.

Lemma stream_errors_are_api_errors_witness :
  exists err,
    Data (apiErrorEvent "model is required")
    = ErrorEvent "error" "api_error" (Error err).
Proof.
  destruct stream_errors_are_api_errors as (_ & _ & H).
  apply (H (handler (Ok [])) true
           {| Model := ""; MaxTokens := 100; Messages := []; System := "";
              Temperature := 1; TopP := 1; TopK := 0; StopSequences := [];
              Stream := true; req_Metadata := None |}).
  - vm_compute. left.
  - reflexivity.
Defined.

(** The kind of the underlying error is not kept; the JSON path keeps it. *)
Lemma invalid_request_streamed_as_api_error (message : string) :
  sendStreamError (ClaudeError "invalid_request_error" message)
  = [Frame (apiErrorEvent message)] /\
  sendErrorResponse 400 (ClaudeError "invalid_request_error" message)
  = [Response 400 (BodyError (ClaudeError "invalid_request_error" message))].
Proof. split; reflexivity. Qed.

(** *** Streams that end in a finish reason *)

Lemma streamLoop_chunks (h : MessageHandler) (chunks : list Types.ChatCompletionChunk)
    (i : nat) :
  (forall k, ctxDone h k = false) ->
  forallb hasChoice chunks = true ->
  streamLoop h i (backendStream chunks) = (map (fun c => Frame (chunkEvent c)) chunks, Break).
Proof.
  intros Hctx. revert i. unfold backendStream.
  induction chunks as [|c chunks IH]; intros i Hc; simpl.
  - by rewrite Hctx.
  - apply andb_prop in Hc as [Hc Hcs]. rewrite Hctx.
    unfold processStreamEvent, ConvertStreamChunk, chunkEvent, hasChoice in *. simpl.
    destruct (Types.chunk_Choices c) as [|choice rest]; [done|].
    destruct (negb (String.eqb (Types.FinishReason choice) "")); simpl;
      by rewrite (IH (S i) Hcs).
Qed.

Lemma frames_app (a b : list written) : frames (a ++ b) = frames a ++ frames b.
Proof. induction a as [|w a IH]; simpl; [done|]. by rewrite IH, app_assoc. Qed.

Lemma frames_map {A : Type} (f : A -> StreamEvent) (l : list A) :
  frames (map (fun x => Frame (f x)) l) = map f l.
Proof. induction l as [|x l IH]; simpl; [done|]. by rewrite IH. Qed.

(** What the handler writes for a backend stream of chunks that all have
    a choice: the three opening frames, one frame per chunk, and the three
    closing frames, whose stop reason is that of the empty finish reason. *)
Lemma handleStreamMessage_chunks (h : MessageHandler) (claudeReq : ClaudeRequest)
    (chunks : list Types.ChatCompletionChunk)
    (messages : list Types.ChatMessage) (options : list Chat.ChatOption) :
  (forall k, ctxDone h k = false) ->
  ClaudeToNewAPI.ConvertRequest (claudeToNewAPI h) (modelOrder h) (Some claudeReq)
  = Ok (messages, options) ->
  CreateChatCompletionStream h messages options = Ok (backendStream chunks) ->
  forallb hasChoice chunks = true ->
  frames (handleStreamMessage h true claudeReq)
  = GenerateStreamEvents (GenerateID h) (Model claudeReq)
    ++ map chunkEvent chunks
    ++ GenerateStreamEndEvents (newAPIToClaudeConverter h) "" None.
Proof.
  intros Hctx Hconv Hstream Hc. unfold handleStreamMessage. cbn [negb].
  rewrite Hconv, Hstream, (streamLoop_chunks h chunks 0 Hctx Hc). simpl.
  do 3 f_equal. by rewrite frames_app, frames_map.
Qed.

(** Hence a stream whose last chunk carries a finish reason is answered
    with at least two [message_stop] frames. *)
Lemma finished_stream_stops_twice (h : MessageHandler) (claudeReq : ClaudeRequest)
    (chunks : list Types.ChatCompletionChunk) (last : Types.ChatCompletionChunk)
    (choice : Types.ChatCompletionChunkChoice) (rest : list Types.ChatCompletionChunkChoice)
    (messages : list Types.ChatMessage) (options : list Chat.ChatOption) :
  (forall k, ctxDone h k = false) ->
  ClaudeToNewAPI.ConvertRequest (claudeToNewAPI h) (modelOrder h) (Some claudeReq)
  = Ok (messages, options) ->
  CreateChatCompletionStream h messages options = Ok (backendStream (chunks ++ [last])) ->
  forallb hasChoice chunks = true ->
  Types.chunk_Choices last = choice :: rest ->
  Types.FinishReason choice <> "" ->
  exists before,
    map Event (frames (handleStreamMessage h true claudeReq))
    = before ++ ["message_stop"; "content_block_stop"; "message_delta"; "message_stop"].
Proof.
  intros Hctx Hconv Hstream Hc Hlast Hfin.
  rewrite (handleStreamMessage_chunks h claudeReq (chunks ++ [last]) messages options);
    try done.
  - exists (["message_start"; "content_block_start"; "ping"] ++ map Event (map chunkEvent chunks)).
    rewrite !map_app. simpl. rewrite <- !app_assoc. simpl. do 4 f_equal.
    unfold chunkEvent. rewrite Hlast.
    destruct (String.eqb (Types.FinishReason choice) "") eqn:E; [|done].
    by apply String.eqb_eq in E.
  - rewrite forallb_app, Hc. simpl. unfold hasChoice. by rewrite Hlast.
Qed.

(** C1 (the code departs from the claim). For the backend stream made of a
    single chunk with finish reason "stop", the handler writes
    [message_stop] twice, the first time before [content_block_stop]. *)
Theorem finish_chunk_stops_twice :
  map Event (frames (handleStreamMessage (handler (Ok (backendStream finishOnly))) true
                       streamRequest))
  = [ "message_start"; "content_block_start"; "ping";
      "message_stop"; "content_block_stop"; "message_delta"; "message_stop" ].
Proof. by vm_compute. Qed.

(** C3 (the code departs from the claim). For the chunks of scenario C the
    handler writes the two deltas, then a [message_stop] for the chunk that
    carries the finish reason, then the closing frames, whose stop reason is
    "end_turn": the finish reason "length" of the stream is not used. *)
Theorem scenarioC_frames :
  map Data (frames (handleStreamMessage (handler (Ok (backendStream scenarioC))) true
                      streamRequest))
  = [ MessageStartEvent "message_start" "msg_1" "message" "assistant" [] "sonnet"
        {| InputTokens := 0; OutputTokens := 0 |};
      ContentBlockStartEvent "content_block_start" 0 (textItem "");
      PingEvent "ping";
      ContentBlockDeltaEvent "content_block_delta" 0 "text" "Hel";
      ContentBlockDeltaEvent "content_block_delta" 0 "text" "lo";
      MessageStopEvent "message_stop";
      ContentBlockStopEvent "content_block_stop" 0;
      MessageDeltaEvent "message_delta" "end_turn" "" {| InputTokens := 0; OutputTokens := 0 |};
      MessageStopEvent "message_stop" ].
Proof. by vm_compute. Qed.

(** The table itself maps "length" to "max_tokens", and the non-streaming
    translator uses it on the finish reason of the response. *)
Lemma mapStopReason_table :
  mapStopReason NewNewAPIToClaudeConverter "stop" = "end_turn" /\
  mapStopReason NewNewAPIToClaudeConverter "length" = "max_tokens" /\
  mapStopReason NewNewAPIToClaudeConverter "content_filter" = "end_turn" /\
  mapStopReason NewNewAPIToClaudeConverter "tool_calls" = "tool_use" /\
  mapStopReason NewNewAPIToClaudeConverter "function_call" = "tool_use" /\
  mapStopReason NewNewAPIToClaudeConverter "" = "end_turn".
Proof. repeat split; by vm_compute. Qed.

End streaming.

(** ** The retrying client *)

Section retry.
Import Transport Scenarios.
Context {P : Type} `{RetryPolicy P}.

(** The loop of [doWithRetry] is left within the turns it is given. *)
Lemma retryLoop_returns (turns : nat) (hc : HTTPClient) (ctx : Context)
    (maxRetries retryCount : Z) (delays : list Z) (sentSoFar : nat) :
  (Z.to_nat (maxRetries - retryCount) < turns)%nat ->
  is_Some (retryLoop turns hc ctx maxRetries retryCount delays sentSoFar).
Proof.
  revert retryCount delays sentSoFar.
  induction turns as [|turns IH]; intros retryCount delays sentSoFar Hlt; [lia|].
  simpl.
  match goal with
  | |- context [foldr ?f ?a ?l sentSoFar] =>
      destruct (foldr f a l sentSoFar) as [[resp err] sentNow]
  end.
  destruct (isNil err); simpl; [by eexists|].
  destruct (maxRetries <=? retryCount)%Z eqn:Hmax; [by eexists|].
  destruct (shouldRetry hc ctx resp err retryCount); simpl; [|by eexists].
  destruct (DoneWhile ctx retryCount); [by eexists|].
  apply IH. apply Z.leb_gt in Hmax. lia.
Qed.

Lemma doWithRetry_returns (hc : HTTPClient) (ctx : Context) :
  is_Some (doWithRetry hc ctx).
Proof. apply retryLoop_returns. rewrite Z.sub_0_r. lia. Qed.

(** A reply without an error ends the loop at once, whatever its status. *)
Lemma doWithRetry_first_reply (hc : HTTPClient) (ctx : Context) (resp : option Response) :
  middleware hc = [] \/ middleware hc = [LoggingMiddleware] ->
  client_Do hc 0 = (resp, None) ->
  doWithRetry hc ctx = Some {| returned := (resp, None); slept := []; sent := 1 |}.
Proof.
  intros [Hm|Hm] Hr; unfold doWithRetry; simpl; rewrite Hm; simpl;
    unfold LoggingMiddleware, executeRequest; by rewrite Hr.
Qed.

End retry.

Section retry_default.
Import Transport Scenarios.

(** The statuses and errors the default policy classifies as retryable. *)
Lemma ShouldRetry_status (p : DefaultRetryPolicy) (resp : Response) (retryCount : Z) :
  ShouldRetry p None (Some resp) None retryCount = true <->
  StatusCode resp ∈ [429; 500; 502; 503; 504]%Z.
Proof.
  simpl. unfold DefaultRetryPolicy_ShouldRetry, retryableStatus.
  rewrite !orb_true_iff, !Z.eqb_eq, !elem_of_cons, elem_of_nil. tauto.
Qed.

(** An error that is a [net.Error] is retried when it is temporary or a
    timeout, any other error is. *)
Lemma ShouldRetry_net_error (p : DefaultRetryPolicy) (resp : option Response)
    (temporary timeout : bool) (message : string) (retryCount : Z) :
  ShouldRetry p None resp (Some (NetError temporary timeout message)) retryCount
  = temporary || timeout.
Proof. reflexivity. Qed.

Lemma ShouldRetry_other_error (p : DefaultRetryPolicy) (message : string)
    (retryCount : Z) :
  ShouldRetry p None None (Some (ErrorString message)) retryCount = true.
Proof. reflexivity. Qed.

(** The backoff lies between the base delay and the cap of 30 seconds, for
    the attempt numbers for which the product does not leave the range of a
    [time.Duration]. *)
Lemma BackoffDelay_bounds (p : DefaultRetryPolicy) (retryCount : Z) :
  (0 <= retryCount)%Z -> (0 <= baseDelay p <= 30 * Second)%Z ->
  (baseDelay p * 2 ^ retryCount < 2 ^ 63)%Z ->
  (baseDelay p <= BackoffDelay p retryCount <= 30 * Second)%Z.
Proof.
  intros Hn Hb _. simpl. unfold DefaultRetryPolicy_BackoffDelay.
  assert (0 < 2 ^ retryCount)%Z by (apply Z.pow_pos_nonneg; lia).
  destruct (30 * Second <? baseDelay p * 2 ^ retryCount)%Z eqn:E.
  - lia.
  - apply Z.ltb_ge in E. nia.
Qed.

(** C2 (the code departs from the claim). Against a backend that answers
    503, 503, 200, the client with the default policy sends one request and
    returns the first 503 response, without waiting: a reply that carries
    no error leaves the loop before the status is looked at. *)
Theorem unavailable_not_retried :
  doWithRetry unavailableTwice background
  = Some {| returned := respond 503; slept := []; sent := 1 |}.
Proof. reflexivity. Qed.

(** A request that times out is retried, with the delays of the claim. *)
Lemma timeout_is_retried :
  doWithRetry timedOutTwice background
  = Some {| returned := respond 200; slept := [1 * Second; 2 * Second]%Z; sent := 3 |}.
Proof. reflexivity. Qed.

(** A refused connection is not: its error is a [net.Error] that is neither
    temporary nor a timeout, and the client returns it after one request. *)
Lemma refused_is_not_retried :
  doWithRetry refusedTwice background
  = Some {| returned := (None, Some connectionRefused); slept := []; sent := 1 |}.
Proof. reflexivity. Qed.

End retry_default.

(** ** The event-stream reader *)

Section reader.
Import Transport Chat Scenarios.
Context {J : Type} (Unmarshal : string -> J + string).
Context (Marshal : option J -> Types.RawMessage + string).

(** While the goroutine runs and an event is queued, [select] can only
    receive that event. *)
Lemma selected_running (choice : selectCase) (e : StreamEvent) (rest : list StreamEvent) :
  selected choice (running (e :: rest)) = Some CaseEvent.
Proof. destruct choice; reflexivity. Qed.

(** With the sentinel next in the queue, after events without data at most,
    [Read] reports [io.EOF] whatever the scheduler chooses, be the signal
    of completion queued already or not. *)
Lemma Read_sentinel (skipped : list StreamEvent) :
  forall (sched : list selectCase) (st : channels) (e : StreamEvent)
         (rest : list StreamEvent),
    length skipped < length sched ->
    ctxErr st = None -> errorChan st = [] -> closed st = false ->
    eventChan st = skipped ++ e :: rest ->
    Forall (fun s => Data s = "") skipped -> Data e = "[DONE]" ->
    (Read Unmarshal sched st).1 = Returned (None, Some EOF).
Proof.
  induction skipped as [|s skipped IH];
    intros sched st e rest Hlen Hctx Herr Hcl Hev Hsk Hd;
    (destruct sched as [|choice sched]; [simpl in Hlen; lia|]);
    destruct st as [c ev er dn cl]; simpl in Hctx, Herr, Hcl, Hev; subst.
  - destruct choice; try (cbn; by rewrite Hd).
    destruct dn as [|b dn]; cbn; [by rewrite Hd|done].
  - apply Forall_cons in Hsk as [Hs Hsk]. simpl in Hlen.
    assert ((Read Unmarshal sched
               {| ctxErr := None; eventChan := skipped ++ e :: rest; errorChan := [];
                  done := dn; closed := false |}).1 = Returned (None, Some EOF)) as Hnext.
    { apply (IH sched _ e rest); simpl; try done. lia. }
    destruct choice; try (cbn; by rewrite Hs).
    destruct dn as [|b dn]; cbn; [by rewrite Hs|done].
Qed.

(** A completion signal that is already queued may be received before the
    events still queued: [Read] then reports [io.EOF] although the event at
    the head of the queue is no sentinel. *)
Lemma Read_done_overtakes (st : channels) (b : bool) (dn : list bool)
    (sched : list selectCase) :
  done st = b :: dn -> (Read Unmarshal (CaseDone :: sched) st).1 = Returned (None, Some EOF).
Proof. intros Hd. simpl. unfold selected, ready. by rewrite Hd. Qed.

(** Once the goroutine has closed the channels, the closed error channel
    can be received from: [Read] then returns neither data nor error. *)
Lemma Read_closed_errors (st : channels) (sched : list selectCase) :
  closed st = true -> errorChan st = [] ->
  (Read Unmarshal (CaseError :: sched) st).1 = Returned (None, None).
Proof.
  intros Hc He. destruct st as [c ev er dn cl]. simpl in Hc, He. by subst.
Qed.

Lemma Read_running_skip (choice : selectCase) (sched : list selectCase) (e : StreamEvent)
    (rest : list StreamEvent) :
  Data e = "" ->
  Read Unmarshal (choice :: sched) (running (e :: rest)) = Read Unmarshal sched (running rest).
Proof. intros Hd. simpl. rewrite selected_running. simpl. by rewrite Hd. Qed.

Lemma Read_running_sentinel (sched : list selectCase) (e : StreamEvent)
    (rest : list StreamEvent) :
  sched <> [] -> Data e = "[DONE]" ->
  Read Unmarshal sched (running (e :: rest)) = (Returned (None, Some EOF), running rest).
Proof.
  intros Hs Hd. destruct sched as [|choice sched]; [done|].
  simpl. rewrite selected_running. simpl. by rewrite Hd.
Qed.

Lemma Read_running_data (sched : list selectCase) (e : StreamEvent)
    (rest : list StreamEvent) (data : J) :
  sched <> [] -> Data e <> "" -> Data e <> "[DONE]" -> Unmarshal (Data e) = inl data ->
  Read Unmarshal sched (running (e :: rest)) = (Returned (Some data, None), running rest).
Proof.
  intros Hs Hne Hnd Hu. destruct sched as [|choice sched]; [done|].
  simpl. rewrite selected_running. simpl.
  apply String.eqb_neq in Hne, Hnd. by rewrite Hne, Hnd, Hu.
Qed.

Lemma Next_skips (choice : selectCase) (sched : list selectCase) (p : ChatStreamProcessor)
    (e : StreamEvent) (rest : list StreamEvent) :
  finished p = false -> Data e = "" ->
  Next Unmarshal Marshal (choice :: sched) (queued p (e :: rest))
  = Next Unmarshal Marshal sched (queued p rest).
Proof.
  intros Hf Hd. unfold Next, adapter_Next, queued. cbn [stream finished chunks err].
  rewrite Hf. by rewrite (Read_running_skip choice sched e rest Hd).
Qed.

Lemma Next_delivers (sched : list selectCase) (p : ChatStreamProcessor) (e : StreamEvent)
    (rest : list StreamEvent) (d : Types.StreamEvent) :
  sched <> [] -> finished p = false -> delivers Unmarshal Marshal e d ->
  exists p', Next Unmarshal Marshal sched (queued p (e :: rest))
             = (Returned (Ok d), queued p' rest)
             /\ finished p' = false.
Proof.
  intros Hs Hf (Hne & Hnd & Hdel). unfold Next, adapter_Next, queued.
  cbn [stream finished chunks err]. rewrite Hf. unfold deliver in Hdel.
  destruct (Unmarshal (Data e)) as [data|] eqn:Hu; [|done].
  rewrite (Read_running_data sched e rest data Hs Hne Hnd Hu).
  destruct (Marshal (Some data)) as [jsonData|]; [|done].
  injection Hdel as <-.
  match goal with
  | |- context [{| stream := _; chunks := ?c; finished := _; err := ?x |}] =>
      exists {| stream := running rest; chunks := c; finished := false; err := x |}
  end.
  by split.
Qed.

Lemma Next_sentinel (sched : list selectCase) (p : ChatStreamProcessor) (e : StreamEvent)
    (rest : list StreamEvent) :
  sched <> [] -> finished p = false -> Data e = "[DONE]" ->
  exists p', Next Unmarshal Marshal sched (queued p (e :: rest))
             = (Returned (Err EOF), p')
             /\ finished p' = true /\ stream p' = running rest.
Proof.
  intros Hs Hf Hd. unfold Next, adapter_Next, queued. cbn [stream finished chunks err].
  rewrite Hf. rewrite (Read_running_sentinel sched e rest Hs Hd).
  eexists. split; [reflexivity|]. by split.
Qed.

(** Once [finished], every call reports [io.EOF] and reads nothing. *)
Lemma nextResults_finished (scheds : list (list selectCase)) (p : ChatStreamProcessor) :
  finished p = true ->
  nextResults Unmarshal Marshal scheds p = (repeat (Err EOF) (length scheds), p).
Proof.
  intros Hf. induction scheds as [|sched scheds IH]; simpl; [done|].
  unfold Next. by rewrite Hf, IH.
Qed.

Lemma nextResults_until_sentinel (pre : list StreamEvent)
    (delivered : list Types.StreamEvent) :
  queueDelivers Unmarshal Marshal pre delivered ->
  forall (p : ChatStreamProcessor) (e : StreamEvent) (post : list StreamEvent)
         (scheds more : list (list selectCase)),
    finished p = false -> Data e = "[DONE]" ->
    length scheds = S (length delivered) ->
    Forall (fun sched => length pre < length sched) scheds ->
    (nextResults Unmarshal Marshal (scheds ++ more) (queued p (pre ++ e :: post))).1
    = map Ok delivered ++ repeat (Err EOF) (S (length more))
    /\ stream (nextResults Unmarshal Marshal (scheds ++ more) (queued p (pre ++ e :: post))).2
       = running post.
Proof.
  induction 1 as [|ev pre delivered Hskip Hrest IH|ev d pre delivered Hd Hrest IH];
    intros p e post scheds more Hf He Hlen Hne.
  - destruct scheds as [|sched [|? ?]]; try done. simpl in *.
    apply Forall_cons in Hne as [Hs _].
    assert (sched <> []) as Hs' by (destruct sched; [simpl in Hs; lia|done]).
    destruct (Next_sentinel sched p e post Hs' Hf He) as (p' & -> & Hf' & Hst').
    rewrite (nextResults_finished more p' Hf'). by simpl.
  - destruct scheds as [|sched scheds]; [done|].
    apply Forall_cons in Hne as [Hs Hne]. simpl in Hs.
    destruct sched as [|choice sched]; [simpl in Hs; lia|].
    specialize (IH p e post (sched :: scheds) more Hf He Hlen).
    assert (Forall (fun sched0 => length pre < length sched0) (sched :: scheds)) as Hne'.
    { constructor; [simpl in Hs; lia|]. eapply Forall_impl; [exact Hne|]. simpl. lia. }
    specialize (IH Hne'). simpl in IH |- *.
    by rewrite (Next_skips choice sched p ev (pre ++ e :: post) Hf Hskip).
  - destruct scheds as [|sched scheds]; [done|]. simpl in Hlen.
    apply Forall_cons in Hne as [Hs Hne]. injection Hlen as Hlen.
    assert (sched <> []) as Hs' by (destruct sched; [simpl in Hs; lia|done]).
    destruct (Next_delivers sched p ev (pre ++ e :: post) d Hs' Hf Hd) as (p' & Hn & Hf').
    assert (Forall (fun sched0 => length pre < length sched0) scheds) as Hne'.
    { eapply Forall_impl; [exact Hne|]. simpl. lia. }
    destruct (IH p' e post scheds more Hf' He Hlen Hne') as [Hres Hstream].
    simpl. rewrite Hn.
    destruct (nextResults Unmarshal Marshal (scheds ++ more) (queued p' (pre ++ e :: post)))
      as [rs p''].
    simpl in *. by rewrite Hres.
Qed.

(** As long as the goroutine of the reader has neither signalled completion
    nor closed its channels, the sentinel ends the stream in order. When
    the data of the next event is the sentinel, [Read] reports [io.EOF], not
    an error, whatever the scheduler chooses. Through the stream processor
    the events queued before the sentinel are delivered in order, the call
    that meets the sentinel reports [io.EOF], and so does every later call:
    nothing queued after the sentinel is delivered. *)
Theorem sentinel_ends_running_stream :
  (forall (skipped : list StreamEvent) (sched : list selectCase) (st : channels)
          (e : StreamEvent) (rest : list StreamEvent),
      length skipped < length sched ->
      ctxErr st = None -> errorChan st = [] -> closed st = false ->
      eventChan st = skipped ++ e :: rest ->
      Forall (fun s => Data s = "") skipped -> Data e = "[DONE]" ->
      (Read Unmarshal sched st).1 = Returned (None, Some EOF)) /\
  (forall (pre : list StreamEvent) (delivered : list Types.StreamEvent) (e : StreamEvent)
          (post : list StreamEvent) (scheds more : list (list selectCase)),
      queueDelivers Unmarshal Marshal pre delivered -> Data e = "[DONE]" ->
      length scheds = S (length delivered) ->
      Forall (fun sched => length pre < length sched) scheds ->
      (nextResults Unmarshal Marshal (scheds ++ more)
         (NewChatStreamProcessor (running (pre ++ e :: post)))).1
      = map Ok delivered ++ repeat (Err EOF) (S (length more))).
Proof.
  split; [exact Read_sentinel|].
  intros pre delivered e post scheds more Hdel He Hlen Hne.
  by apply (nextResults_until_sentinel pre delivered Hdel
              (NewChatStreamProcessor (running [])) e post scheds more).
Qed.

End reader.

Section reader_examples.
Import Transport Chat Scenarios.

Lemma sentinel_ends_running_stream_example :
  (Read decodeText [CaseError; CaseDone]
     {| ctxErr := None; eventChan := [dataOnly ""; dataOnly "[DONE]"; dataOnly "late"];
        errorChan := []; done := []; closed := false |}).1
  = Returned (None, Some EOF) /\
  (nextResults decodeText encodeText
     ([[CaseEvent; CaseDone; CaseEvent]; [CaseDone; CaseCtxDone; CaseError]] ++ [[CaseEvent]])
     (NewChatStreamProcessor
        (running ([dataOnly ""; dataOnly "Hel"] ++ dataOnly "[DONE]" :: [dataOnly "late"])))).1
  = map Ok [dataEvent (chunk "Hel" "")] ++ repeat (Err EOF) (S (length [[CaseEvent]])).
Proof.
  destruct (sentinel_ends_running_stream decodeText encodeText) as [Hread Hnext]. split.
  - apply (Hread [dataOnly ""] _ _ (dataOnly "[DONE]") [dataOnly "late"]);
      try reflexivity; [simpl; lia|by repeat constructor].
  - apply Hnext.
    + apply queue_skip; [reflexivity|].
      apply queue_deliver; [by repeat split|]. constructor.
    + reflexivity.
    + reflexivity.
    + repeat constructor; simpl; lia.
Defined.

(** [Read] itself keeps no trace of the sentinel: called again it goes on
    with the queue. It is the stream processor that does not call it
    again. *)
Lemma Read_past_sentinel :
  Read decodeText [CaseEvent] (running [dataOnly "[DONE]"; dataOnly "late"])
  = (Returned (None, Some EOF), running [dataOnly "late"]) /\
  Read decodeText [CaseEvent] (running [dataOnly "late"])
  = (Returned (Some "late", None), running []).
Proof. split; reflexivity. Qed.

(** From the lines of an event stream to the queue of the reader: comment
    lines are ignored, a blank line closes an event, and the goroutine
    keeps queueing what follows the sentinel. *)
Lemma processStream_queue :
  processStream (fun _ => None) (fun _ => false)
    [ ": keep-alive"; "data: Hel"; ""; "data: [DONE]"; ""; "data: late"; "" ] None
  = {| sentEvents := [dataOnly "Hel"; dataOnly "[DONE]"; dataOnly "late"];
       sentErrors := []; sentDone := [true] |}.
Proof. reflexivity. Qed.

(** The frames the handler writes for that queue, read through the stream
    processor: the delta of the event before the sentinel, and the closing
    frames. *)
Lemma queue_to_frames :
  map ClaudeTypes.Data
    (frames
       (Server.handleStreamMessage
          (handler
             (Ok (nextResults decodeText encodeText [[CaseEvent]; [CaseEvent]; [CaseEvent]]
                    (NewChatStreamProcessor
                       (running [dataOnly "Hel"; dataOnly "[DONE]"; dataOnly "late"]))).1))
          true streamRequest))
  = [ ClaudeTypes.MessageStartEvent "message_start" "msg_1" "message" "assistant" [] "sonnet"
        {| ClaudeTypes.InputTokens := 0; ClaudeTypes.OutputTokens := 0 |};
      ClaudeTypes.ContentBlockStartEvent "content_block_start" 0 (NewAPIToClaude.textItem "");
      ClaudeTypes.PingEvent "ping";
      ClaudeTypes.ContentBlockDeltaEvent "content_block_delta" 0 "text" "Hel";
      ClaudeTypes.ContentBlockStopEvent "content_block_stop" 0;
      ClaudeTypes.MessageDeltaEvent "message_delta" "end_turn" ""
        {| ClaudeTypes.InputTokens := 0; ClaudeTypes.OutputTokens := 0 |};
      ClaudeTypes.MessageStopEvent "message_stop" ].
Proof. by vm_compute. Qed.

End reader_examples.

(** ** The reader once the goroutine has ended *)

Section reader_race.
Import Transport Chat Scenarios.
Context (Sscanf_d : string -> option Z).
Context {J : Type} (Unmarshal : string -> J + string).
Context (Marshal : option J -> Types.RawMessage + string).

(** A context that is not done never stops the scanning loop. *)
Lemma scanLoop_live (tokens : list string) :
  forall (i : nat) (lines : list string) (events : list StreamEvent),
    (scanLoop Sscanf_d (fun _ => false) i tokens lines events).1.1 = false.
Proof.
  induction tokens as [|text tokens IH]; intros i lines events; cbn [scanLoop]; [done|].
  destruct (String.eqb (TrimSpace text) ""); [|by apply IH].
  destruct (0 <? length lines)%nat; by apply IH.
Qed.

(** The goroutine then ends with the signal of completion sent. *)
Lemma processStream_signals (tokens : list string) (scanErr : option error) :
  sentDone (processStream Sscanf_d (fun _ => false) tokens scanErr) = [true].
Proof.
  unfold processStream. pose proof (scanLoop_live tokens 0 [] []) as Hlive.
  destruct (scanLoop Sscanf_d (fun _ => false) 0 tokens [] []) as [[stopped lines] events].
  simpl in Hlive. by subst.
Qed.

(** Whatever the body of the response holds, once the goroutine has ended
    the first [Read] may receive the signal of completion: it reports
    [io.EOF] with every event still in the queue. *)
Lemma Read_ended_done (tokens : list string) (scanErr : option error)
    (sched : list selectCase) :
  (Read Unmarshal (CaseDone :: sched)
     (ended (processStream Sscanf_d (fun _ => false) tokens scanErr))).1
  = Returned (None, Some EOF).
Proof.
  cbn [Read]. unfold selected, ready, ended. cbn [done closed].
  by rewrite processStream_signals.
Qed.

(** The stream processor then delivers nothing at all. *)
Lemma nextResults_ended_done (tokens : list string) (scanErr : option error)
    (sched : list selectCase) (scheds : list (list selectCase)) :
  (nextResults Unmarshal Marshal ((CaseDone :: sched) :: scheds)
     (NewChatStreamProcessor
        (ended (processStream Sscanf_d (fun _ => false) tokens scanErr)))).1
  = repeat (Err EOF) (S (length scheds)).
Proof.
  pose proof (Read_ended_done tokens scanErr sched) as Hread.
  cbn [nextResults]. unfold Next, adapter_Next, NewChatStreamProcessor.
  cbn [finished stream chunks err].
  destruct (Read Unmarshal (CaseDone :: sched)
              (ended (processStream Sscanf_d (fun _ => false) tokens scanErr)))
    as [r reader].
  simpl in Hread. subst r.
  by rewrite nextResults_finished.
Qed.

(** With the events received first, the event before the sentinel is read.
    Which of the runs happens is the choice of the scheduler. *)
Lemma Read_ended_event (sched : list selectCase) (data : J) :
  Unmarshal "{}" = inl data ->
  (Read Unmarshal (CaseEvent :: sched)
     (ended (processStream Sscanf_d (fun _ => false) objectThenDone None))).1
  = Returned (Some data, None).
Proof. intros Hu. vm_compute. by rewrite Hu. Qed.

(** C8 (the code departs from the claim). The body of the lines [data: {}],
    blank, [data: [DONE]], blank is read to its end by the goroutine of
    [processStream] before the reader asks for anything: the event and the
    sentinel are queued, the completion signal is sent and the channels are
    closed. The [select] of [Read] may then receive the signal of
    completion first: [Read] reports [io.EOF] although the event before the
    sentinel was not delivered, and the stream processor, finished by that,
    never delivers it. It may also receive from the closed error channel:
    [Read] then returns neither data nor [io.EOF]. *)
Theorem sentinel_race_drops_events (sched : list selectCase)
    (scheds : list (list selectCase)) :
  ended (processStream Sscanf_d (fun _ => false) objectThenDone None)
  = {| ctxErr := None; eventChan := [dataOnly "{}"; dataOnly "[DONE]"]; errorChan := [];
       done := [true]; closed := true |} /\
  (Read Unmarshal (CaseDone :: sched)
     (ended (processStream Sscanf_d (fun _ => false) objectThenDone None))).1
  = Returned (None, Some EOF) /\
  (nextResults Unmarshal Marshal ((CaseDone :: sched) :: scheds)
     (NewChatStreamProcessor
        (ended (processStream Sscanf_d (fun _ => false) objectThenDone None)))).1
  = repeat (Err EOF) (S (length scheds)) /\
  (Read Unmarshal (CaseError :: sched)
     (ended (processStream Sscanf_d (fun _ => false) objectThenDone None))).1
  = Returned (None, None).
Proof.
  split; [reflexivity|]. split; [apply Read_ended_done|].
  split; [apply nextResults_ended_done|]. reflexivity.
Qed.

End reader_race.


(** ** Requests on their way to the backend *)

Section upstream.
Import ClaudeTypes ClaudeToNewAPI RequestRules.

Lemma convertMessage_shape (m : ClaudeMessage) (out : Types.ChatMessage) :
  convertMessage m = Ok out ->
  Types.Role out = Role m /\ convertContent (Content m) = Ok (Types.Content out).
Proof.
  unfold convertMessage, RoleUser, RoleAssistant, RoleSystem,
    Types.ChatRoleUser, Types.ChatRoleAssistant, Types.ChatRoleSystem.
  destruct (convertContent (Content m)) as [content|e].
  - destruct (String.eqb (Role m) "user") eqn:Eu;
      [apply String.eqb_eq in Eu; by intros [= <-]|].
    destruct (String.eqb (Role m) "assistant") eqn:Ea;
      [apply String.eqb_eq in Ea; by intros [= <-]|].
    destruct (String.eqb (Role m) "system") eqn:Es;
      [apply String.eqb_eq in Es; by intros [= <-]|done].
  - by repeat destruct (String.eqb _ _).
Qed.

Lemma convertEach_shape (msgs : list ClaudeMessage) (acc out : list Types.ChatMessage) :
  convertEach msgs acc = Ok out ->
  exists converted,
    out = acc ++ converted /\
    Forall2 (fun m o => Types.Role o = Role m /\
                        convertContent (Content m) = Ok (Types.Content o)) msgs converted.
Proof.
  revert acc. induction msgs as [|m msgs IH]; intros acc; simpl.
  - intros [= <-]. exists []. by rewrite app_nil_r.
  - destruct (convertMessage m) as [o|e] eqn:Em; [|done].
    intros Hrest. destruct (IH _ Hrest) as (converted & -> & Hall).
    exists (o :: converted). rewrite <- app_assoc. split; [done|].
    constructor; [by apply convertMessage_shape|done].
Qed.

(** X1. When [convertMessages] succeeds, the backend messages are the system
    prompt, if there is one, as a first message of role "system", followed
    by one message for each message of the request, in the same order, with
    the same role and with the converted content. *)
Theorem convertMessages_keeps_order (msgs : list ClaudeMessage) (systemMessage : string)
    (out : list Types.ChatMessage) :
  convertMessages msgs systemMessage = Ok out ->
  exists converted,
    out = (if String.eqb systemMessage "" then []
           else [ {| Types.Role := "system";
                     Types.Content := Types.ContentString systemMessage |} ])
          ++ converted /\
    Forall2 (fun m o => Types.Role o = Role m /\
                        convertContent (Content m) = Ok (Types.Content o)) msgs converted.
Proof.
  unfold convertMessages. intros Hc.
  destruct (convertEach_shape _ _ _ Hc) as (converted & -> & Hall).
  exists converted. split; [|done]. by destruct (String.eqb systemMessage "").
Qed.

Lemma convertMessages_keeps_order_witness :
  exists converted,
    [ {| Types.Role := "system"; Types.Content := Types.ContentString "be brief" |};
      {| Types.Role := "user"; Types.Content := Types.ContentString "hi" |} ]
    = (if String.eqb "be brief" "" then []
       else [ {| Types.Role := "system"; Types.Content := Types.ContentString "be brief" |} ])
      ++ converted /\
    Forall2 (fun m o => Types.Role o = Role m /\
                        convertContent (Content m) = Ok (Types.Content o))
      (Messages scenarioA) converted.
Proof.
  apply (convertMessages_keeps_order (Messages scenarioA) "be brief"). reflexivity.
Defined.

(** *** Supported models *)

(** X2. [IsModelSupported] holds of exactly the names that
    [GetSupportedModels] lists, and the list has no duplicates, in whatever
    order the table is ranged over. *)
Theorem supported_models_agree (c : ClaudeToNewAPIConverter)
    (order : list (string * string)) :
  rangeOrder c order ->
  (forall model, IsModelSupported c model = true <-> model ∈ GetSupportedModels c order) /\
  NoDup (GetSupportedModels c order) /\
  length (GetSupportedModels c order) = size (modelMapping c).
Proof.
  unfold rangeOrder, GetSupportedModels, IsModelSupported. intros Hord.
  split; [|split].
  - intros model. rewrite Hord. split.
    + destruct (modelMapping c !! model) as [v|] eqn:E; [|done]. intros _.
      apply list_elem_of_fmap. exists (model, v). split; [done|].
      by apply elem_of_map_to_list.
    + intros Hin. apply list_elem_of_fmap in Hin as ([k v] & -> & Hkv).
      apply elem_of_map_to_list in Hkv. simpl. by rewrite Hkv.
  - rewrite Hord. apply NoDup_fst_map_to_list.
  - rewrite length_map, Hord. by rewrite length_map_to_list.
Qed.

Lemma supported_models_agree_witness :
  (forall model,
      IsModelSupported NewClaudeToNewAPIConverter model = true <->
      model ∈ GetSupportedModels NewClaudeToNewAPIConverter (map_to_list getModelMapping)) /\
  NoDup (GetSupportedModels NewClaudeToNewAPIConverter (map_to_list getModelMapping)) /\
  length (GetSupportedModels NewClaudeToNewAPIConverter (map_to_list getModelMapping))
  = size (modelMapping NewClaudeToNewAPIConverter).
Proof.
  apply (supported_models_agree NewClaudeToNewAPIConverter (map_to_list getModelMapping)).
  unfold rangeOrder. reflexivity.
Defined.

End upstream.

Section sdk.
Import ClaudeTypes ClaudeToNewAPI RequestRules.

(** The configuration a call is made with, after the options of a request
    have been applied to the configuration of the service. *)
Lemma applyOptions_convertOptions (c : ClaudeToNewAPIConverter)
    (order : list (string * string)) (r : ClaudeRequest) (cfg : Chat.ChatConfig) :
  String.eqb (Model r) "" = false -> (0 <? MaxTokens r)%Z = true ->
  exists options,
    convertOptions c order r = Ok options /\
    Chat.applyOptions cfg options
    = {| Chat.cfg_Model := mapModel c order (Model r);
         Chat.cfg_MaxTokens := MaxTokens r;
         Chat.cfg_Temperature :=
           if Qltb 0 (Temperature r) then Temperature r else Chat.cfg_Temperature cfg;
         Chat.cfg_TopP := if Qltb 0 (TopP r) then TopP r else Chat.cfg_TopP cfg;
         Chat.cfg_N := Chat.cfg_N cfg;
         Chat.cfg_Stream := if Stream r then true else Chat.cfg_Stream cfg;
         Chat.cfg_Stop :=
           if (0 <? length (StopSequences r))%nat then Some (StopSequences r)
           else Chat.cfg_Stop cfg;
         Chat.cfg_PresencePenalty := Chat.cfg_PresencePenalty cfg;
         Chat.cfg_FrequencyPenalty := Chat.cfg_FrequencyPenalty cfg;
         Chat.cfg_TopLogProbs := Chat.cfg_TopLogProbs cfg;
         Chat.cfg_Timeout := Chat.cfg_Timeout cfg |}.
Proof.
  intros Hmodel Hmax. unfold convertOptions. rewrite Hmodel, Hmax. cbn [negb app].
  eexists. split; [reflexivity|].
  destruct cfg.
  destruct (Qltb 0 (Temperature r)), (Qltb 0 (TopP r)),
    (0 <? length (StopSequences r))%nat, (Stream r); reflexivity.
Qed.

Lemma Qltb_false (x y : Q) : Qltb x y = false <-> (y <= x)%Q.
Proof. unfold Qltb. rewrite negb_false_iff. apply Qle_bool_iff. Qed.

Lemma Qltb_true (x y : Q) : Qltb x y = true <-> (x < y)%Q.
Proof.
  unfold Qltb. rewrite negb_true_iff. split.
  - intros Hb. apply Qnot_le_lt. intros Hle. apply Qle_bool_iff in Hle. congruence.
  - intros Hlt. destruct (Qle_bool y x) eqn:E; [|done].
    apply Qle_bool_iff in E. exfalso. by apply (Qlt_not_le x y).
Qed.

Lemma within_bounds (lo hi x : Q) :
  Types.Qlt_bool x lo || Types.Qlt_bool hi x = false <-> (lo <= x /\ x <= hi)%Q.
Proof.
  rewrite orb_false_iff. change Types.Qlt_bool with Qltb. by rewrite !Qltb_false.
Qed.

Lemma defaulted_within (hi x : Q) :
  (1 <= hi)%Q -> (0 <= x /\ x <= hi)%Q ->
  (0 <= (if Qeq_bool x 0 then 1 else x) /\ (if Qeq_bool x 0 then 1 else x) <= hi)%Q.
Proof. intros Hhi Hx. destruct (Qeq_bool x 0); [|done]. split; [done|exact Hhi]. Qed.

Lemma mapModel_nonempty (order : list (string * string)) (model : string) :
  rangeOrder NewClaudeToNewAPIConverter order -> model <> "" ->
  mapModel NewClaudeToNewAPIConverter order model <> "".
Proof.
  intros Hord Hne.
  destruct (mapModel_result order model Hord) as [Hkey|[-> _]].
  - intros Hempty. rewrite Hempty in Hkey. by vm_compute in Hkey.
  - by destruct model.
Qed.

Lemma converted_messages_valid (msgs : list ClaudeMessage)
    (converted : list Types.ChatMessage) (i : nat) :
  Forall (fun m => Role m = "user" \/ Role m = "assistant") msgs ->
  Forall2 (fun m o => Types.Role o = Role m /\
                      convertContent (Content m) = Ok (Types.Content o)) msgs converted ->
  Types.validateRequestMessages i converted = None.
Proof.
  intros Hroles Hall. revert i.
  induction Hall as [|m o msgs converted [Hrole Hcontent] Hall IH]; intros i; simpl; [done|].
  apply Forall_cons in Hroles as [Hm Hroles].
  assert (Types.IsValidRole o = true) as ->.
  { unfold Types.IsValidRole. rewrite Hrole. by destruct Hm as [-> | ->]. }
  cbn [negb].
  assert (Types.Content o <> Types.ContentNil) as Hnil.
  { unfold convertContent in Hcontent. destruct (Content m) as [|first others]; [done|].
    destruct (_ && _); [by injection Hcontent as <-|].
    destruct (convertItems _ _); [by injection Hcontent as <-|done]. }
  destruct (Types.Content o); [done|..]; by apply IH.
Qed.

Lemma accepted_roles (msgs : list ClaudeMessage) :
  existsb messageRejected msgs = false ->
  Forall (fun m => Role m = "user" \/ Role m = "assistant") msgs.
Proof.
  induction msgs as [|m msgs IH]; simpl; [constructor|].
  intros H. apply orb_false_elim in H as [Hm Hrest]. constructor; [|by apply IH].
  unfold messageRejected, badRole in Hm.
  apply orb_false_elim in Hm as [Hm _]. apply orb_false_elim in Hm as [Hm _].
  apply negb_false_iff, orb_true_iff in Hm as [Hm|Hm]; apply String.eqb_eq in Hm; auto.
Qed.

(** X3. A request that [ValidateRequest] accepts is never refused by the
    SDK, whatever valid configuration the service has: its translation
    succeeds, the configuration made of the options passes [Validate], and
    the request that [CreateChatCompletion] or [CreateChatCompletionStream]
    then posts passes [ValidateParameters]; that request names the model
    [mapModel] resolves, carries the [max_tokens] of the request and the
    translated messages, and streams exactly when the streaming call is
    made. *)
Theorem accepted_request_passes_the_sdk (order : list (string * string))
    (s : Chat.ChatService) (stream : bool) (r : ClaudeRequest) :
  rangeOrder NewClaudeToNewAPIConverter order ->
  Chat.Validate (Chat.config s) = None ->
  ValidateRequest (Some r) = None ->
  exists messages options req,
    ConvertRequest NewClaudeToNewAPIConverter order (Some r) = Ok (messages, options) /\
    Chat.buildRequest s stream messages options = Ok req /\
    Types.ValidateParameters req = None /\
    Types.req_Model req = mapModel NewClaudeToNewAPIConverter order (Model r) /\
    Types.req_MaxTokens req = MaxTokens r /\
    Types.req_Messages req = messages /\
    Types.req_Stream req = stream.
Proof.
  intros Hord Hcfg Hvalid.
  pose proof (ValidateRequest_cases r) as Hrej. rewrite Hvalid in Hrej.
  unfold requestRejected in Hrej.
  repeat (apply orb_false_elim in Hrej as [Hrej ?]).
  rename Hrej into Hmodel.
  match goal with Hm : (MaxTokens r <=? 0)%Z = false |- _ => rename Hm into Hmax end.
  match goal with Hm : (length (Messages r) =? 0)%nat = false |- _ => rename Hm into Hlen end.
  match goal with Hm : existsb messageRejected _ = false |- _ => rename Hm into Hmsgs end.
  match goal with Hm : Qltb (Temperature r) 0 || _ = false |- _ => rename Hm into Htemp end.
  match goal with Hm : Qltb (TopP r) 0 || _ = false |- _ => rename Hm into Htopp end.
  assert ((0 <? MaxTokens r)%Z = true) as Hpos by (apply Z.leb_gt in Hmax; by apply Z.ltb_lt).
  (* the translation *)
  destruct (applyOptions_convertOptions NewClaudeToNewAPIConverter order r (Chat.config s)
              Hmodel Hpos) as (options & Hopts & Happlied).
  assert (exists messages,
             convertMessages (Messages r) (System r) = Ok messages) as [messages Hconv].
  { unfold convertMessages.
    match goal with |- context [convertEach ?l ?a] =>
      destruct (convertEach_ok l a Hmsgs) as [messages ->] end. by eexists. }
  exists messages, options.
  assert (ConvertRequest NewClaudeToNewAPIConverter order (Some r) = Ok (messages, options))
    as Hreq.
  { unfold ConvertRequest, Validate. rewrite Hmodel, Hmax, Hlen.
    by rewrite (validateMsgs_ok _ _ Hmsgs), Hconv, Hopts. }
  (* the messages *)
  destruct (convertEach_shape _ _ _ Hconv) as (converted & Hout & Hall).
  assert ((length messages =? 0)%nat = false) as Hnonempty.
  { apply Nat.eqb_neq. rewrite Hout, length_app.
    apply Forall2_length in Hall. apply Nat.eqb_neq in Hlen. lia. }
  assert (Types.validateRequestMessages 0 messages = None) as Hvalidated.
  { rewrite Hout. destruct (String.eqb (System r) "").
    - apply (converted_messages_valid (Messages r)); [by apply accepted_roles|done].
    - cbn [negb app Types.validateRequestMessages]. unfold Types.IsValidRole. cbn.
      apply (converted_messages_valid (Messages r)); [by apply accepted_roles|done]. }
  (* the configuration *)
  unfold Chat.Validate in Hcfg.
  repeat match type of Hcfg with
         | (if ?b then Some _ else _) = None => destruct b eqn:?; [discriminate Hcfg|]
         end.
  clear Hcfg.
  repeat match goal with
         | Hb : Types.Qlt_bool _ _ || Types.Qlt_bool _ _ = false |- _ =>
             apply within_bounds in Hb
         end.
  change (Qltb (Temperature r) 0 || Qltb 1 (Temperature r) = false)
    with (Types.Qlt_bool (Temperature r) 0 || Types.Qlt_bool 1 (Temperature r) = false)
    in Htemp.
  change (Qltb (TopP r) 0 || Qltb 1 (TopP r) = false)
    with (Types.Qlt_bool (TopP r) 0 || Types.Qlt_bool 1 (TopP r) = false) in Htopp.
  apply within_bounds in Htemp, Htopp.
  assert (mapModel NewClaudeToNewAPIConverter order (Model r) <> "") as Hmapped.
  { apply mapModel_nonempty; [done|]. intros Hempty. by rewrite Hempty in Hmodel. }
  apply String.eqb_neq in Hmapped.
  set (temperature :=
         if Qltb 0 (Temperature r) then Temperature r
         else Chat.cfg_Temperature (Chat.config s)) in *.
  set (topP := if Qltb 0 (TopP r) then TopP r else Chat.cfg_TopP (Chat.config s)) in *.
  assert (0 <= temperature /\ temperature <= 2)%Q as Htemperature.
  { subst temperature. destruct (Qltb 0 (Temperature r)); [|done].
    split; [tauto|]. apply Qle_trans with 1%Q; [tauto|done]. }
  assert (0 <= topP /\ topP <= 1)%Q as HtopP.
  { subst topP. by destruct (Qltb 0 (TopP r)). }
  assert (Chat.Validate (Chat.applyOptions (Chat.config s) options) = None) as Hvalidcfg.
  { rewrite Happlied. unfold Chat.Validate. cbn [Chat.cfg_Model Chat.cfg_MaxTokens
      Chat.cfg_Temperature Chat.cfg_TopP Chat.cfg_N Chat.cfg_PresencePenalty
      Chat.cfg_FrequencyPenalty Chat.cfg_TopLogProbs Chat.cfg_Timeout].
    rewrite Hmapped.
    assert ((MaxTokens r <? 0)%Z = false) as -> by (apply Z.ltb_ge; apply Z.ltb_lt in Hpos; lia).
    apply within_bounds in Htemperature as ->. apply within_bounds in HtopP as ->.
    repeat match goal with
           | Hb : (_ /\ _)%Q |- _ => apply within_bounds in Hb; rewrite Hb; clear Hb
           | Hb : _ = false |- _ => rewrite Hb; clear Hb
           end.
    done. }
  eexists. split; [exact Hreq|].
  unfold Chat.buildRequest. rewrite Hnonempty, Hvalidcfg, Happlied.
  split; [reflexivity|].
  split; [|by repeat split].
  unfold Types.ValidateParameters, Chat.ToRequest, Types.SetDefaults.
  cbn [Types.req_Model Types.req_Messages Types.req_MaxTokens Types.req_Temperature
       Types.req_TopP Types.req_N Types.req_PresencePenalty Types.req_FrequencyPenalty
       Chat.cfg_Model Chat.cfg_MaxTokens Chat.cfg_Temperature Chat.cfg_TopP Chat.cfg_N
       Chat.cfg_PresencePenalty Chat.cfg_FrequencyPenalty Chat.cfg_Stop Chat.cfg_Stream].
  rewrite Hmapped, Hnonempty.
  assert ((MaxTokens r <? 0)%Z = false) as -> by (apply Z.ltb_ge; apply Z.ltb_lt in Hpos; lia).
  apply (defaulted_within 2) in Htemperature; [|done].
  apply (defaulted_within 1) in HtopP; [|done].
  apply within_bounds in Htemperature as ->. apply within_bounds in HtopP as ->.
  assert (((if (Chat.cfg_N (Chat.config s) =? 0)%Z then 1 else Chat.cfg_N (Chat.config s))
           <? 1)%Z = false) as ->.
  { match goal with Hn : (Chat.cfg_N _ <? 1)%Z = false |- _ => apply Z.ltb_ge in Hn end.
    destruct (Chat.cfg_N (Chat.config s) =? 0)%Z; apply Z.ltb_ge; lia. }
  repeat match goal with
         | Hb : (_ /\ _)%Q |- _ => apply within_bounds in Hb; rewrite Hb; clear Hb
         end.
  exact Hvalidated.
Qed.

Lemma accepted_request_passes_the_sdk_witness :
  exists messages options req,
    ConvertRequest NewClaudeToNewAPIConverter (map_to_list getModelMapping) (Some scenarioA)
    = Ok (messages, options) /\
    Chat.buildRequest (Chat.NewChatService []) true messages options = Ok req /\
    Types.ValidateParameters req = None /\
    Types.req_Model req
    = mapModel NewClaudeToNewAPIConverter (map_to_list getModelMapping) (Model scenarioA) /\
    Types.req_MaxTokens req = MaxTokens scenarioA /\
    Types.req_Messages req = messages /\
    Types.req_Stream req = true.
Proof.
  apply (accepted_request_passes_the_sdk (map_to_list getModelMapping)
           (Chat.NewChatService []) true scenarioA).
  - unfold rangeOrder. reflexivity.
  - reflexivity.
  - reflexivity.
Defined.

(** A sampling parameter after [SetDefaults], once it is known not to be
    negative, is positive. *)
Lemma defaulted_positive (x : Q) :
  Qltb (if Qeq_bool x 0 then 1 else x) 0 = false ->
  Qltb 0 (if Qeq_bool x 0 then 1 else x) = true.
Proof.
  destruct (Qeq_bool x 0) eqn:E; [done|]. intros Hle.
  apply Qltb_false in Hle. apply Qltb_true.
  apply Qle_lt_or_eq in Hle as [Hlt|Heq]; [done|].
  assert (x == 0)%Q as Hx by (by symmetry). apply Qeq_bool_iff in Hx. congruence.
Qed.

Lemma defaulted_twice (x : Q) :
  (if Qeq_bool (if Qeq_bool x 0 then 1 else x) 0 then 1 else (if Qeq_bool x 0 then 1 else x))%Q
  = (if Qeq_bool x 0 then 1 else x)%Q.
Proof. destruct (Qeq_bool x 0) eqn:E; [done|]. by rewrite E. Qed.

(** X4. What reaches the backend of a request, decoded as [d], that went
    through [SetDefaults] and was accepted: the model of the request, or the
    default model if it names none; and the temperature and the [top_p] of
    the request, or 1 where it gives 0 or none. The sampling parameters of
    the configuration of the service are never used, and a temperature of 0
    is never sent. *)
Theorem defaults_reach_the_backend (c : ClaudeToNewAPIConverter)
    (order : list (string * string)) (s : Chat.ChatService) (stream : bool)
    (d : ClaudeRequest) (messages : list Types.ChatMessage)
    (options : list Chat.ChatOption) (req : Types.ChatCompletionRequest) :
  ValidateRequest (Some (SetDefaults d)) = None ->
  ConvertRequest c order (Some (SetDefaults d)) = Ok (messages, options) ->
  Chat.buildRequest s stream messages options = Ok req ->
  Types.req_Model req
  = mapModel c order (if String.eqb (Model d) "" then DefaultModel else Model d) /\
  Types.req_Temperature req = (if Qeq_bool (Temperature d) 0 then 1 else Temperature d)%Q /\
  Types.req_TopP req = (if Qeq_bool (TopP d) 0 then 1 else TopP d)%Q /\
  Types.req_MaxTokens req = MaxTokens d.
Proof.
  intros Hvalid Hconv Hbuild.
  pose proof (ValidateRequest_cases (SetDefaults d)) as Hrej. rewrite Hvalid in Hrej.
  unfold requestRejected in Hrej.
  repeat (apply orb_false_elim in Hrej as [Hrej ?]).
  rename Hrej into Hmodel.
  match goal with Hm : (MaxTokens _ <=? 0)%Z = false |- _ => rename Hm into Hmax end.
  match goal with Hm : Qltb (Temperature _) 0 || _ = false |- _ =>
    apply orb_false_elim in Hm as [Htemp _] end.
  match goal with Hm : Qltb (TopP _) 0 || _ = false |- _ =>
    apply orb_false_elim in Hm as [Htopp _] end.
  assert ((0 <? MaxTokens (SetDefaults d))%Z = true) as Hpos
      by (apply Z.leb_gt in Hmax; by apply Z.ltb_lt).
  destruct (applyOptions_convertOptions c order (SetDefaults d) (Chat.config s) Hmodel Hpos)
    as (options' & Hopts & Happlied).
  assert (options' = options) as ->.
  { unfold ConvertRequest in Hconv.
    destruct (Validate (SetDefaults d)); [done|].
    destruct (convertMessages _ _); [|done].
    rewrite Hopts in Hconv. by injection Hconv as _ <-. }
  unfold Chat.buildRequest in Hbuild.
  destruct (length messages =? 0)%nat; [done|].
  destruct (Chat.Validate _); [done|].
  injection Hbuild as <-. rewrite Happlied.
  cbn [Types.req_Model Types.req_Temperature Types.req_TopP Types.req_MaxTokens
       Chat.ToRequest Types.SetDefaults Chat.cfg_Model Chat.cfg_Temperature Chat.cfg_TopP
       Chat.cfg_MaxTokens].
  cbn [SetDefaults Model Temperature TopP MaxTokens] in *.
  rewrite (defaulted_positive _ Htemp), (defaulted_positive _ Htopp).
  by rewrite !defaulted_twice.
Qed.

Lemma defaults_reach_the_backend_witness :
  Types.req_Model Scenarios.postedRequest
  = mapModel NewClaudeToNewAPIConverter (map_to_list getModelMapping)
      (if String.eqb (Model Scenarios.zeroTemperature) "" then DefaultModel
       else Model Scenarios.zeroTemperature) /\
  Types.req_Temperature Scenarios.postedRequest
  = (if Qeq_bool (Temperature Scenarios.zeroTemperature) 0 then 1
     else Temperature Scenarios.zeroTemperature)%Q /\
  Types.req_TopP Scenarios.postedRequest
  = (if Qeq_bool (TopP Scenarios.zeroTemperature) 0 then 1
     else TopP Scenarios.zeroTemperature)%Q /\
  Types.req_MaxTokens Scenarios.postedRequest = MaxTokens Scenarios.zeroTemperature.
Proof.
  apply (defaults_reach_the_backend NewClaudeToNewAPIConverter (map_to_list getModelMapping)
           (Chat.NewChatService [Chat.WithTemperature 0]) false Scenarios.zeroTemperature
           [ {| Types.Role := "user"; Types.Content := Types.ContentString "hi" |} ]
           [ Chat.WithModel "claude-3-sonnet-20240229"; Chat.WithMaxTokens 100;
             Chat.WithTemperature 1; Chat.WithTopP 1 ]).
  - reflexivity.
  - by vm_compute.
  - reflexivity.
Defined.

End sdk.

Section answers.
Import ClaudeTypes Server RequestRules.

(** X5. A request that cannot be read or parsed, or that [ValidateRequest]
    refuses, is answered with a single JSON response of status 400, also
    when it asks for a stream: with an [api_error] that carries the message
    of the failure in the first case, with the [invalid_request_error] of
    the validation in the second. A request that parses comes with a model:
    none is refused for naming no model. *)
Theorem refused_requests_get_400 (Unmarshal : string -> ClaudeRequest + string)
    (contentType : string) (ContentLength MaxRequestSize : Z) (body : result string)
    (h : MessageHandler) (flusher : bool) :
  match parseClaudeRequest Unmarshal contentType ContentLength MaxRequestSize body with
  | Err e =>
      HandleMessage h flusher (Err e)
      = [Response 400 (BodyError (ClaudeError "api_error" (Error e)))]
  | Ok r =>
      Model r <> "" /\
      (forall e, ClaudeToNewAPI.ValidateRequest (Some r) = Some e ->
         HandleMessage h flusher (Ok r) = [Response 400 (BodyError e)] /\ invalidRequest e)
  end.
Proof.
  unfold parseClaudeRequest.
  destruct (negb (Contains contentType "application/json")); [done|].
  destruct (MaxRequestSize <? ContentLength)%Z; [done|].
  destruct body as [body|e]; [|done].
  destruct (Unmarshal body) as [d|jsonError]; [|done].
  split.
  - unfold SetDefaults. cbn [Model]. destruct (String.eqb (Model d) "") eqn:E; [done|].
    by apply String.eqb_neq in E.
  - intros e He. pose proof (ValidateRequest_cases (SetDefaults d)) as Hc.
    unfold HandleMessage. rewrite He in *. destruct Hc as [_ (message & ->)].
    split; [done|by eexists].
Qed.

(** X6. [handleNormalMessage] writes exactly one JSON response, of status
    200, 400 or 500. With status 200 the body is a message of role
    "assistant" that names the model as the request spelled it, not as
    [mapModel] resolved it, and has some content; with any other status the
    body is an error in the format of the Claude API. *)
Theorem handleNormalMessage_answers_once (h : MessageHandler) (r : ClaudeRequest) :
  exists statusCode body,
    handleNormalMessage h r = [Response statusCode body] /\
    match body with
    | BodyMessage m =>
        statusCode = 200%Z /\ resp_Model m = Model r /\ resp_Role m = "assistant" /\
        resp_Type m = "message" /\ resp_Content m <> []
    | BodyError e =>
        (statusCode = 400%Z \/ statusCode = 500%Z) /\
        exists errType message, e = ClaudeError errType message
    end.
Proof.
  assert (forall statusCode err,
             statusCode = 400%Z \/ statusCode = 500%Z ->
             exists statusCode' body,
               sendErrorResponse statusCode err = [Response statusCode' body] /\
               match body with
               | BodyMessage m =>
                   statusCode' = 200%Z /\ resp_Model m = Model r /\ resp_Role m = "assistant" /\
                   resp_Type m = "message" /\ resp_Content m <> []
               | BodyError e =>
                   (statusCode' = 400%Z \/ statusCode' = 500%Z) /\
                   exists errType message, e = ClaudeError errType message
               end) as Herr.
  { intros statusCode err Hcode. unfold sendErrorResponse, sendJSONResponse.
    do 2 eexists. split; [reflexivity|]. split; [done|].
    destruct err; by do 2 eexists. }
  unfold handleNormalMessage.
  destruct (ClaudeToNewAPI.ConvertRequest _ _ _) as [[messages options]|e];
    [|apply Herr; by left].
  destruct (CreateChatCompletion h messages options) as [response|e];
    [|apply Herr; by right].
  destruct (NewAPIToClaude.ConvertResponse _ _ _) as [claudeResp|e] eqn:Hresp;
    [|apply Herr; by right].
  do 2 eexists. split; [reflexivity|]. cbn beta iota.
  unfold NewAPIToClaude.ConvertResponse in Hresp.
  destruct (Types.IsError response); [done|].
  destruct (Types.GetFirstChoice response) as [choice|]; [|done].
  injection Hresp as <-. cbn.
  repeat split; try done.
  destruct (convertContent_shape (Types.Message choice)) as [-> | [Hne _]]; done.
Qed.

(** X7. Behind the SDK, an answer of the backend that carries an error
    object never reaches [ConvertResponse], whose [convertError] would keep
    the kind of the error: [CreateChatCompletion] returns it as a plain
    error, and the handler answers with status 500 and an [api_error] whose
    message is that of the backend after "API error: ". *)
Theorem upstream_error_object_is_500 (h : MessageHandler) (s : Chat.ChatService)
    (Post : Types.ChatCompletionRequest -> result (result Types.ChatCompletionResponse))
    (r : ClaudeRequest) (messages : list Types.ChatMessage) (options : list Chat.ChatOption)
    (req : Types.ChatCompletionRequest) (chatResp : Types.ChatCompletionResponse)
    (apiErr : Types.ErrorResponse) :
  CreateChatCompletion h = Chat.CreateChatCompletion s Post ->
  ClaudeToNewAPI.ConvertRequest (claudeToNewAPI h) (modelOrder h) (Some r)
  = Ok (messages, options) ->
  Chat.buildRequest s false messages options = Ok req ->
  Post req = Ok (Ok chatResp) ->
  Types.resp_Error chatResp = Some apiErr ->
  handleNormalMessage h r
  = [Response 500
       (BodyError (ClaudeError "api_error" ("API error: " +:+ Types.er_Message apiErr)))] /\
  NewAPIToClaude.ConvertResponse (newAPIToClaudeConverter h) (Some chatResp) (Model r)
  = Err (NewAPIToClaude.convertError (Some apiErr)).
Proof.
  intros Hsdk Hconv Hbuild Hpost Herror. split.
  - unfold handleNormalMessage. rewrite Hconv, Hsdk.
    unfold Chat.CreateChatCompletion. rewrite Hbuild, Hpost.
    unfold Types.IsError, Types.GetError. by rewrite Herror.
  - unfold NewAPIToClaude.ConvertResponse, Types.IsError, Types.GetError. by rewrite Herror.
Qed.

Lemma upstream_error_object_is_500_witness :
  handleNormalMessage (Scenarios.sdkHandler (fun _ => Ok (Ok Scenarios.rateLimited))) scenarioA
  = [Response 500
       (BodyError
          (ClaudeError "api_error"
             ("API error: "
              +:+ Types.er_Message
                    {| Types.er_Type := "rate_limit_error";
                       Types.er_Code := "rate_limit_exceeded";
                       Types.er_Message := "slow down" |})))] /\
  NewAPIToClaude.ConvertResponse
    (newAPIToClaudeConverter (Scenarios.sdkHandler (fun _ => Ok (Ok Scenarios.rateLimited))))
    (Some Scenarios.rateLimited) (Model scenarioA)
  = Err (NewAPIToClaude.convertError
           (Some {| Types.er_Type := "rate_limit_error";
                    Types.er_Code := "rate_limit_exceeded";
                    Types.er_Message := "slow down" |})).
Proof.
  apply (upstream_error_object_is_500
           (Scenarios.sdkHandler (fun _ => Ok (Ok Scenarios.rateLimited)))
           (Chat.NewChatService []) (fun _ => Ok (Ok Scenarios.rateLimited)) scenarioA
           [ {| Types.Role := "user"; Types.Content := Types.ContentString "hi" |} ]
           [ Chat.WithModel "claude-3-sonnet-20240229"; Chat.WithMaxTokens 100;
             Chat.WithTemperature 1; Chat.WithTopP 1 ]
           Scenarios.postedRequest Scenarios.rateLimited).
  - reflexivity.
  - by vm_compute.
  - reflexivity.
  - reflexivity.
  - reflexivity.
Defined.

End answers.

(** ** Answers on their way back *)

Section back.
Import ClaudeTypes NewAPIToClaude Scenarios.

(** X8. The stop reason of a translated answer is "end_turn", "max_tokens"
    or "tool_use" and nothing else: "length" gives "max_tokens",
    "tool_calls" and "function_call" give "tool_use", and every other
    finish reason, known or not, gives "end_turn". In particular no answer
    has the stop reason "stop_sequence". *)
Theorem mapStopReason_range (finishReason : string) :
  mapStopReason NewNewAPIToClaudeConverter finishReason
  = (if String.eqb finishReason "length" then "max_tokens"
     else if String.eqb finishReason "tool_calls" || String.eqb finishReason "function_call"
          then "tool_use"
          else "end_turn") /\
  mapStopReason NewNewAPIToClaudeConverter finishReason <> "stop_sequence".
Proof.
  assert (mapStopReason NewNewAPIToClaudeConverter finishReason
          = (if String.eqb finishReason "length" then "max_tokens"
             else if String.eqb finishReason "tool_calls"
                     || String.eqb finishReason "function_call"
                  then "tool_use"
                  else "end_turn")) as Heq.
  { unfold mapStopReason. cbn [stopReasonMapping NewNewAPIToClaudeConverter].
    destruct (getStopReasonMapping !! finishReason) as [mapped|] eqn:E.
    - apply elem_of_list_to_map_2 in E.
      repeat (apply elem_of_cons in E as [E|E]; [injection E as -> ->; reflexivity|]).
      by apply elem_of_nil in E.
    - apply not_elem_of_list_to_map_2 in E. cbn in E.
      destruct (String.eqb finishReason "length") eqn:E1.
      { apply String.eqb_eq in E1. subst. exfalso. apply E. set_solver. }
      destruct (String.eqb finishReason "tool_calls") eqn:E2.
      { apply String.eqb_eq in E2. subst. exfalso. apply E. set_solver. }
      destruct (String.eqb finishReason "function_call") eqn:E3.
      { apply String.eqb_eq in E3. subst. exfalso. apply E. set_solver. }
      reflexivity. }
  split; [done|]. rewrite Heq.
  by destruct (String.eqb finishReason "length"),
       (String.eqb finishReason "tool_calls" || String.eqb finishReason "function_call").
Qed.

(** X9. [ConvertResponse] fails in three cases only: on a nil response; on a
    response that carries an error object, with an error of the same kind
    if that is [invalid_request_error], [authentication_error] or
    [rate_limit_error] and of the kind [api_error] otherwise, and with the
    same message; and on a response without choices. Otherwise it answers
    from the first choice alone: the identifier and the token counts are
    those of the response, the model is the name it is given, and the stop
    reason is the finish reason of that choice, mapped. *)
Theorem ConvertResponse_outcomes (c : NewAPIToClaudeConverter)
    (newAPIResp : option Types.ChatCompletionResponse) (originalModel : string) :
  match ConvertResponse c newAPIResp originalModel with
  | Err e =>
      (newAPIResp = None /\ e = ErrorString "newapi response is nil") \/
      (exists resp apiErr,
          newAPIResp = Some resp /\ Types.resp_Error resp = Some apiErr /\
          e = ClaudeError
                (if String.eqb (Types.er_Type apiErr) "invalid_request_error"
                    || String.eqb (Types.er_Type apiErr) "authentication_error"
                    || String.eqb (Types.er_Type apiErr) "rate_limit_error"
                 then Types.er_Type apiErr else "api_error")
                (Types.er_Message apiErr)) \/
      (exists resp,
          newAPIResp = Some resp /\ Types.resp_Error resp = None /\
          Types.Choices resp = [] /\ e = ErrorString "no choices in response")
  | Ok claudeResp =>
      exists resp choice rest,
        newAPIResp = Some resp /\ Types.resp_Error resp = None /\
        Types.Choices resp = choice :: rest /\
        ID claudeResp = Types.ID resp /\
        resp_Model claudeResp = originalModel /\
        resp_Content claudeResp = convertContent (Types.Message choice) /\
        StopReason claudeResp = mapStopReason c (Types.cc_FinishReason choice) /\
        StopSequence claudeResp = "" /\
        InputTokens (resp_Usage claudeResp) = Types.PromptTokens (Types.resp_Usage resp) /\
        OutputTokens (resp_Usage claudeResp) = Types.CompletionTokens (Types.resp_Usage resp)
  end.
Proof.
  unfold ConvertResponse. destruct newAPIResp as [resp|]; [|by left].
  unfold Types.IsError, Types.GetError, Types.GetFirstChoice.
  destruct (Types.resp_Error resp) as [apiErr|] eqn:Herr.
  - right. left. exists resp, apiErr. split; [done|]. split; [done|].
    unfold convertError, Types.ErrTypeInvalidRequest, Types.ErrTypeAuthentication,
      Types.ErrTypeRateLimit.
    destruct (String.eqb (Types.er_Type apiErr) "invalid_request_error") eqn:E1.
    { apply String.eqb_eq in E1. by rewrite E1. }
    destruct (String.eqb (Types.er_Type apiErr) "authentication_error") eqn:E2.
    { apply String.eqb_eq in E2. by rewrite E2. }
    destruct (String.eqb (Types.er_Type apiErr) "rate_limit_error") eqn:E3.
    { apply String.eqb_eq in E3. by rewrite E3. }
    done.
  - destruct (Types.Choices resp) as [|choice rest] eqn:Hchoices.
    + right. right. by exists resp.
    + exists resp, choice, rest. by repeat split.
Qed.

(** X10. The text of an answer survives the translation: when the message of
    the first choice holds a plain string (or nothing), the first text of
    the translated answer is what [GetFirstContent] reads off the answer of
    the backend. *)
Theorem first_text_is_kept (c : NewAPIToClaudeConverter)
    (resp : Types.ChatCompletionResponse) (originalModel : string)
    (claudeResp : ClaudeResponse) (message : Types.ChatMessage) :
  ConvertResponse c (Some resp) originalModel = Ok claudeResp ->
  Types.GetFirstMessage resp = Some message ->
  (forall parts, Types.Content message <> Types.ContentParts parts) ->
  GetFirstTextContent claudeResp = Types.GetFirstContent resp.
Proof.
  unfold ConvertResponse, Types.GetFirstContent, Types.GetFirstMessage.
  destruct (Types.IsError resp); [done|].
  destruct (Types.GetFirstChoice resp) as [choice|]; [|done].
  intros [= <-] [= <-] Hparts. unfold GetFirstTextContent. cbn [resp_Content].
  unfold convertContent, Types.GetTextContent.
  destruct (Types.Content (Types.Message choice)) as [|s|parts|]; cbn.
  - reflexivity.
  - destruct (String.eqb s "") eqn:E; cbn; [|done]. by apply String.eqb_eq in E.
  - by destruct (Hparts parts).
  - reflexivity.
Qed.

Lemma first_text_is_kept_witness :
  GetFirstTextContent
    {| ID := "chatcmpl-2"; resp_Type := "message"; resp_Role := "assistant";
       resp_Content := [textItem "hello"]; resp_Model := "sonnet"; StopReason := "end_turn";
       StopSequence := ""; resp_Usage := {| InputTokens := 5; OutputTokens := 7 |} |}
  = Types.GetFirstContent helloAnswer.
Proof.
  apply (first_text_is_kept NewNewAPIToClaudeConverter helloAnswer "sonnet" _
           {| Types.Role := "assistant"; Types.Content := Types.ContentString "hello" |}).
  - reflexivity.
  - reflexivity.
  - intros parts. discriminate.
Defined.

Lemma convertParts_partOf (items : list ContentItem) (acc : list ContentItem) :
  forallb representable items = true ->
  convertParts (flat_map RequestRules.partOf items) acc
  = acc ++ map (fun item =>
                  if String.eqb (Type_ item) "text" then textItem (Text item)
                  else {| Type_ := "image"; Text := ""; Source := None;
                          ImageURL := ImageURL item |}) items.
Proof.
  revert acc. induction items as [|item items IH]; intros acc Hall; simpl.
  - by rewrite app_nil_r.
  - apply andb_prop in Hall as [Hitem Hall].
    unfold representable in Hitem. unfold RequestRules.partOf at 1.
    destruct (String.eqb (Type_ item) "text") eqn:Et.
    + pose proof Et as Hty. apply String.eqb_eq in Hty. rewrite Hty in Hitem.
      cbn in Hitem. rewrite orb_false_r in Hitem. apply negb_true_iff in Hitem.
      cbn. rewrite Hitem. cbn. rewrite (IH _ Hall). by rewrite <- app_assoc.
    + simpl in Hitem. apply andb_prop in Hitem as [Hi Hurl].
      apply negb_true_iff in Hurl. rewrite Hurl. cbn. rewrite Hurl. cbn.
      rewrite (IH _ Hall). by rewrite <- app_assoc.
Qed.

Lemma representable_known (items : list ContentItem) :
  forallb representable items = true -> existsb RequestRules.unknownType items = false.
Proof.
  induction items as [|item items IH]; simpl; [done|].
  intros Hall. apply andb_prop in Hall as [Hitem Hall]. rewrite (IH Hall), orb_false_r.
  unfold representable in Hitem. unfold RequestRules.unknownType.
  destruct (String.eqb (Type_ item) "text"); [done|].
  destruct (String.eqb (Type_ item) "image"); done.
Qed.

(** X11. A content made of non-empty text items and of images given by a URL
    goes to the backend and back unchanged: translating it with
    [convertContent] of the request side, and the result with
    [convertContent] of the response side, gives the same items in the same
    order, each reduced to its text or to its URL. *)
Theorem content_round_trip (items : list ContentItem) (content : Types.content)
    (role : string) :
  forallb representable items = true ->
  ClaudeToNewAPI.convertContent items = Ok content ->
  convertContent {| Types.Role := role; Types.Content := content |}
  = map (fun item =>
           if String.eqb (Type_ item) "text" then textItem (Text item)
           else {| Type_ := "image"; Text := ""; Source := None;
                   ImageURL := ImageURL item |}) items.
Proof.
  intros Hall. unfold ClaudeToNewAPI.convertContent.
  destruct items as [|first others]; [done|].
  destruct ((length (first :: others) =? 1)%nat && String.eqb (Type_ first) ContentTypeText)
    eqn:Elone.
  - apply andb_prop in Elone as [Hlen Hty]. apply Nat.eqb_eq in Hlen.
    destruct others; [|done]. intros [= <-].
    simpl in Hall. rewrite andb_true_r in Hall. unfold representable in Hall.
    change ContentTypeText with "text" in Hty. rewrite Hty in Hall.
    apply String.eqb_eq in Hty as Hty'. rewrite Hty' in Hall. cbn in Hall.
    rewrite orb_false_r in Hall. apply negb_true_iff in Hall.
    unfold convertContent. cbn. rewrite Hall. cbn. by rewrite Hty.
  - rewrite (convertItems_parts _ _ (representable_known _ Hall)).
    intros [= <-]. unfold convertContent. cbn [Types.Content app].
    change (RequestRules.partOf first ++ flat_map RequestRules.partOf others)
      with (flat_map RequestRules.partOf (first :: others)).
    rewrite (convertParts_partOf _ [] Hall). cbn [app].
    by rewrite length_map.
Qed.

Lemma content_round_trip_witness :
  convertContent
    {| Types.Role := "user";
       Types.Content :=
         Types.ContentParts
           [ {| Types.mc_Type := "text"; Types.mc_Text := "look"; Types.mc_ImageURL := "";
                Types.mc_Detail := "" |};
             {| Types.mc_Type := "image_url"; Types.mc_Text := "";
                Types.mc_ImageURL := "https://example.org/cat.png"; Types.mc_Detail := "" |} ] |}
  = map (fun item =>
           if String.eqb (Type_ item) "text" then textItem (Text item)
           else {| Type_ := "image"; Text := ""; Source := None;
                   ImageURL := ImageURL item |})
      [ NewTextContent "look"; NewImageContent "https://example.org/cat.png" ].
Proof.
  apply (content_round_trip
           [ NewTextContent "look"; NewImageContent "https://example.org/cat.png" ]).
  - reflexivity.
  - reflexivity.
Defined.

End back.

(** ** More on the streaming handler *)

Section streams.
Import ClaudeTypes NewAPIToClaude Server Scenarios.

Lemma processStreamEvent_cases (h : MessageHandler) (event : Types.StreamEvent) :
  (exists err, processStreamEvent h event = ([], Some err)) \/
  processStreamEvent h event = ([], None) \/
  (exists claudeEvent,
      processStreamEvent h event = ([Frame claudeEvent], None) /\
      Event claudeEvent <> "error").
Proof.
  unfold processStreamEvent.
  destruct (String.eqb (Types.Type_ event) Types.StreamEventTypeData); [|by right; left].
  destruct (Types.Unmarshal (Types.Data event)) as [chunk|e]; [|left; by eexists].
  destruct (ConvertStreamChunk _ (Some chunk) "") as [claudeEvent|e] eqn:Ec;
    [|left; by eexists].
  apply ConvertStreamChunk_event in Ec as [_ Hne].
  right. right. by exists claudeEvent.
Qed.

(** What the loop writes: frames that are no error frames, and then, only
    when the function returns from inside the loop, at most one error
    frame. *)
Lemma streamLoop_error_last (h : MessageHandler) (i : nat)
    (nexts : list (result Types.StreamEvent)) :
  exists pre last,
    (streamLoop h i nexts).1 = pre ++ last /\
    Forall (fun w => forall event, w = Frame event -> Event event <> "error") pre /\
    (last = [] \/
     (exists err, last = sendStreamError err) /\ (streamLoop h i nexts).2 = Return).
Proof.
  revert i. induction nexts as [|next nexts IH]; intros i; simpl.
  - exists [], []. destruct (ctxDone h i); simpl; by repeat split; try left.
  - destruct (ctxDone h i); [exists [], []; simpl; by repeat split; try left|].
    destruct next as [event|err].
    + destruct (processStreamEvent_cases h event)
        as [[err ->]|[-> |(claudeEvent & -> & Hne)]].
      * exists [], (sendStreamError err). simpl. split; [done|]. split; [done|].
        right. split; [by eexists|done].
      * destruct (IH (S i)) as (pre & last & Hout & Hpre & Hlast).
        destruct (streamLoop h (S i) nexts) as [out' exit]. simpl in *.
        exists pre, last. by repeat split.
      * destruct (IH (S i)) as (pre & last & Hout & Hpre & Hlast).
        destruct (streamLoop h (S i) nexts) as [out' exit]. simpl in *.
        exists (Frame claudeEvent :: pre), last. rewrite Hout. split; [done|].
        split; [|done]. constructor; [|done]. by intros ? [= <-].
    + assert (exists pre last,
                 (sendStreamError err, Return).1 = pre ++ last /\
                 Forall (fun w => forall event, w = Frame event -> Event event <> "error") pre /\
                 (last = [] \/
                  (exists err', last = sendStreamError err') /\
                  (sendStreamError err, Return).2 = Return)) as Herr.
      { exists [], (sendStreamError err). simpl. split; [done|]. split; [done|].
        right. split; [by eexists|done]. }
      destruct err; try exact Herr.
      exists [], []. simpl. by repeat split; try left.
Qed.

(** X12. An error frame is the last thing a streaming answer holds: whatever
    the request, the backend and its stream, nothing is written after an
    error frame, neither a further delta nor the closing frames, and so no
    answer holds two error frames. *)
Theorem error_frame_is_last (h : MessageHandler) (claudeReq : ClaudeRequest) (i : nat)
    (event : StreamEvent) :
  handleStreamMessage h true claudeReq !! i = Some (Frame event) ->
  Event event = "error" ->
  length (handleStreamMessage h true claudeReq) = S i.
Proof.
  assert (forall pre err (j : nat) (ev : StreamEvent),
             Forall (fun w => forall event, w = Frame event -> Event event <> "error") pre ->
             (pre ++ sendStreamError err) !! j = Some (Frame ev) ->
             Event ev = "error" ->
             length (pre ++ sendStreamError err) = S j) as Hlast.
  { intros pre err j ev Hpre Hj Hev. rewrite length_app. simpl.
    apply lookup_app_Some in Hj as [Hj|[Hge Hj]].
    - rewrite Forall_forall in Hpre.
      exfalso. exact (Hpre (Frame ev) (list_elem_of_lookup_2 _ _ _ Hj) ev eq_refl Hev).
    - destruct (j - length pre) as [|n] eqn:E; [lia|]. done. }
  assert (forall pre (j : nat) (ev : StreamEvent),
             Forall (fun w => forall event, w = Frame event -> Event event <> "error") pre ->
             pre !! j = Some (Frame ev) -> Event ev = "error" -> False) as Hnone.
  { intros pre j ev Hpre Hj Hev. rewrite Forall_forall in Hpre.
    exact (Hpre (Frame ev) (list_elem_of_lookup_2 _ _ _ Hj) ev eq_refl Hev). }
  unfold handleStreamMessage. cbn [negb].
  destruct (ClaudeToNewAPI.ConvertRequest _ _ _) as [[messages options]|e].
  2:{ intros Hi Hev. by apply (Hlast [] e i event). }
  destruct (CreateChatCompletionStream h messages options) as [stream|e].
  2:{ intros Hi Hev. by apply (Hlast [] e i event). }
  destruct (streamLoop_error_last h 0 stream) as (pre & last & Hout & Hpre & Hcases).
  destruct (streamLoop h 0 stream) as [out exit]. cbn [fst snd] in *. subst out.
  set (start := flat_map sendStreamEvent
                  (GenerateStreamEvents (GenerateID h) (Model claudeReq))).
  assert (Forall (fun w => forall event, w = Frame event -> Event event <> "error") start)
    as Hstart.
  { subst start. cbn. repeat (constructor; [by intros ? [= <-]|]). constructor. }
  destruct Hcases as [-> | [[err ->] ->]].
  - rewrite app_nil_r. intros Hi Hev. exfalso.
    apply (Hnone (start ++ pre ++ flat_map sendStreamEvent
                    match exit with
                    | Break => GenerateStreamEndEvents (newAPIToClaudeConverter h) "" None
                    | Return => []
                    end) i event); [|done|done].
    apply Forall_app. split; [done|]. apply Forall_app. split; [done|].
    destruct exit; cbn; [|constructor].
    repeat (constructor; [by intros ? [= <-]|]). constructor.
  - cbn [flat_map]. rewrite app_nil_r, app_assoc. intros Hi Hev.
    apply (Hlast (start ++ pre) err i event); [|done|done].
    by apply Forall_app.
Qed.

Lemma error_frame_is_last_witness :
  length (handleStreamMessage (handler (Ok [Err (ErrorString "connection reset")])) true
            streamRequest) = 4.
Proof.
  apply (error_frame_is_last (handler (Ok [Err (ErrorString "connection reset")]))
           streamRequest 3 (apiErrorEvent "connection reset")).
  - reflexivity.
  - reflexivity.
Defined.

Lemma streamLoop_cancelled (h : MessageHandler) (chunks : list Types.ChatCompletionChunk)
    (i k : nat) :
  (forall j, j < k -> ctxDone h (i + j) = false) ->
  ctxDone h (i + k) = true ->
  k <= length chunks ->
  forallb hasChoice chunks = true ->
  streamLoop h i (backendStream chunks)
  = (map (fun c => Frame (chunkEvent c)) (take k chunks), Return).
Proof.
  revert i chunks. induction k as [|k IH]; intros i chunks Hlive Hdone Hk Hc.
  - rewrite Nat.add_0_r in Hdone. unfold backendStream.
    destruct chunks; simpl; by rewrite Hdone.
  - destruct chunks as [|c chunks]; [simpl in Hk; lia|].
    simpl in Hc. apply andb_prop in Hc as [Hc Hcs].
    unfold backendStream. cbn [map app streamLoop].
    rewrite <- (Nat.add_0_r i) at 1. rewrite Hlive by lia.
    unfold processStreamEvent, ConvertStreamChunk, chunkEvent, hasChoice in *. simpl.
    destruct (Types.chunk_Choices c) as [|choice rest]; [done|].
    assert (streamLoop h (S i) (backendStream chunks)
            = (map (fun c => Frame (chunkEvent c)) (take k chunks), Return)) as Hrest.
    { apply IH; [|by rewrite Nat.add_succ_l, <- Nat.add_succ_r|simpl in Hk; lia|done].
      intros j Hj. rewrite Nat.add_succ_l, <- Nat.add_succ_r. apply Hlive. lia. }
    unfold backendStream, chunkEvent in Hrest.
    destruct (negb (String.eqb (Types.FinishReason choice) "")); simpl; by rewrite Hrest.
Qed.

(** X13. When the context of the request is done at the [k]-th turn of the
    loop, the answer stops short: it holds the three opening frames and the
    frames of the first [k] chunks, and no closing frame. *)
Theorem cancelled_stream_stops_short (h : MessageHandler) (claudeReq : ClaudeRequest)
    (chunks : list Types.ChatCompletionChunk)
    (messages : list Types.ChatMessage) (options : list Chat.ChatOption) (k : nat) :
  ClaudeToNewAPI.ConvertRequest (claudeToNewAPI h) (modelOrder h) (Some claudeReq)
  = Ok (messages, options) ->
  CreateChatCompletionStream h messages options = Ok (backendStream chunks) ->
  forallb hasChoice chunks = true ->
  (forall j, j < k -> ctxDone h j = false) ->
  ctxDone h k = true ->
  k <= length chunks ->
  frames (handleStreamMessage h true claudeReq)
  = GenerateStreamEvents (GenerateID h) (Model claudeReq)
    ++ map chunkEvent (take k chunks).
Proof.
  intros Hconv Hstream Hc Hlive Hdone Hk. unfold handleStreamMessage. cbn [negb].
  rewrite Hconv, Hstream, (streamLoop_cancelled h chunks 0 k); try done.
  cbn [flat_map]. rewrite app_nil_r. simpl. do 3 f_equal. apply frames_map.
Qed.

Lemma cancelled_stream_stops_short_witness :
  frames (handleStreamMessage (handlerUntil 1 (Ok (backendStream scenarioC))) true streamRequest)
  = GenerateStreamEvents (GenerateID (handlerUntil 1 (Ok (backendStream scenarioC))))
      (Model streamRequest)
    ++ map chunkEvent (take 1 scenarioC).
Proof.
  apply (cancelled_stream_stops_short (handlerUntil 1 (Ok (backendStream scenarioC)))
           streamRequest scenarioC
           [ {| Types.Role := "user"; Types.Content := Types.ContentString "hi" |} ]
           [ Chat.WithModel "claude-3-sonnet-20240229"; Chat.WithMaxTokens 100;
             Chat.WithTemperature 1; Chat.WithTopP 1; Chat.WithStream true ] 1).
  - by vm_compute.
  - reflexivity.
  - reflexivity.
  - intros j Hj. assert (j = 0) as -> by lia. reflexivity.
  - reflexivity.
  - simpl. lia.
Defined.

(** X14. A stream of chunks without a finish reason is answered in full and
    in order: the opening frames, one text delta for each chunk, carrying
    the text of its first choice, and the closing frames, each once. *)
Theorem text_stream_in_order (h : MessageHandler) (claudeReq : ClaudeRequest)
    (chunks : list Types.ChatCompletionChunk)
    (messages : list Types.ChatMessage) (options : list Chat.ChatOption) :
  (forall k, ctxDone h k = false) ->
  ClaudeToNewAPI.ConvertRequest (claudeToNewAPI h) (modelOrder h) (Some claudeReq)
  = Ok (messages, options) ->
  CreateChatCompletionStream h messages options = Ok (backendStream chunks) ->
  Forall (fun c => exists choice rest,
              Types.chunk_Choices c = choice :: rest /\ Types.FinishReason choice = "") chunks ->
  map Data (frames (handleStreamMessage h true claudeReq))
  = [ MessageStartEvent "message_start" (GenerateID h) "message" "assistant" []
        (Model claudeReq) {| InputTokens := 0; OutputTokens := 0 |};
      ContentBlockStartEvent "content_block_start" 0 (textItem "");
      PingEvent "ping" ]
    ++ map (fun c =>
              ContentBlockDeltaEvent "content_block_delta" 0 "text"
                match Types.chunk_Choices c with
                | choice :: _ => Types.GetTextContent (Types.Delta choice)
                | [] => ""
                end) chunks
    ++ [ ContentBlockStopEvent "content_block_stop" 0;
         MessageDeltaEvent "message_delta" (mapStopReason (newAPIToClaudeConverter h) "") ""
           {| InputTokens := 0; OutputTokens := 0 |};
         MessageStopEvent "message_stop" ].
Proof.
  intros Hctx Hconv Hstream Hchunks.
  rewrite (handleStreamMessage_chunks h claudeReq chunks messages options Hctx Hconv Hstream).
  - rewrite !map_app. cbn [map GenerateStreamEvents GenerateStreamEndEvents app Data
      createMessageStartEvent createContentBlockStartEvent createPingEvent
      createContentBlockStopEvent createMessageDeltaEvent createMessageStopEvent].
    do 3 f_equal. f_equal. rewrite map_map. apply map_ext_Forall.
    eapply Forall_impl; [exact Hchunks|].
    intros c (choice & rest & Hc & Hfin). unfold chunkEvent. rewrite Hc, Hfin. done.
  - apply forallb_forall. intros c Hin. rewrite Forall_forall in Hchunks.
    destruct (Hchunks c) as (choice & rest & Hc & _); [by apply list_elem_of_In|].
    unfold hasChoice. by rewrite Hc.
Qed.

Lemma text_stream_in_order_witness :
  map Data (frames (handleStreamMessage
                      (handler (Ok (backendStream [chunk "Hel" ""; chunk "lo" ""]))) true
                      streamRequest))
  = [ MessageStartEvent "message_start"
        (GenerateID (handler (Ok (backendStream [chunk "Hel" ""; chunk "lo" ""]))))
        "message" "assistant" [] (Model streamRequest)
        {| InputTokens := 0; OutputTokens := 0 |};
      ContentBlockStartEvent "content_block_start" 0 (textItem "");
      PingEvent "ping" ]
    ++ map (fun c =>
              ContentBlockDeltaEvent "content_block_delta" 0 "text"
                match Types.chunk_Choices c with
                | choice :: _ => Types.GetTextContent (Types.Delta choice)
                | [] => ""
                end) [chunk "Hel" ""; chunk "lo" ""]
    ++ [ ContentBlockStopEvent "content_block_stop" 0;
         MessageDeltaEvent "message_delta"
           (mapStopReason
              (newAPIToClaudeConverter
                 (handler (Ok (backendStream [chunk "Hel" ""; chunk "lo" ""])))) "") ""
           {| InputTokens := 0; OutputTokens := 0 |};
         MessageStopEvent "message_stop" ].
Proof.
  apply (text_stream_in_order (handler (Ok (backendStream [chunk "Hel" ""; chunk "lo" ""])))
           streamRequest [chunk "Hel" ""; chunk "lo" ""]
           [ {| Types.Role := "user"; Types.Content := Types.ContentString "hi" |} ]
           [ Chat.WithModel "claude-3-sonnet-20240229"; Chat.WithMaxTokens 100;
             Chat.WithTemperature 1; Chat.WithTopP 1; Chat.WithStream true ]).
  - reflexivity.
  - by vm_compute.
  - reflexivity.
  - repeat constructor; by do 2 eexists.
Defined.

End streams.

(** ** Accounting of the retry loop *)

Section retry_accounting.
Import Transport Scenarios.
Context {P : Type} `{RetryPolicy P}.

(** Middleware that only logs leaves the handler as it is. *)
Lemma logging_only (hc : HTTPClient (P := P)) :
  Forall (fun m => m = LoggingMiddleware) (middleware hc) ->
  foldr (fun m next => m next) (executeRequest hc) (middleware hc) = executeRequest hc.
Proof.
  induction 1 as [|m ms Hm Hms IH]; simpl; [done|].
  by rewrite IH, Hm.
Qed.

(** The delays waited for before attempt [k]. *)
Lemma retryLoop_accounting (hc : HTTPClient (P := P)) (ctx : Context) (turns k : nat) :
  Forall (fun m => m = LoggingMiddleware) (middleware hc) ->
  (Z.to_nat (MaxRetries (retryPolicy hc) - Z.of_nat k) < turns)%nat ->
  (forall i, (i < k)%nat -> exists resp e, client_Do hc i = (resp, Some e)) ->
  exists r,
    retryLoop turns hc ctx (MaxRetries (retryPolicy hc)) (Z.of_nat k)
      (map (fun i => BackoffDelay (retryPolicy hc) (Z.of_nat i)) (seq 0 k)) k = Some r /\
    sent r = S (length (slept r)) /\
    (k <= length (slept r))%nat /\
    (length (slept r) <= Nat.max k (Z.to_nat (MaxRetries (retryPolicy hc))))%nat /\
    slept r = map (fun i => BackoffDelay (retryPolicy hc) (Z.of_nat i))
                (seq 0 (length (slept r))) /\
    (forall i, (i < length (slept r))%nat -> exists resp e, client_Do hc i = (resp, Some e)) /\
    (returned r = client_Do hc (length (slept r)) \/
     exists ctxErr, DoneWhile ctx (Z.of_nat (length (slept r))) = Some ctxErr /\
                    returned r = (None, Some ctxErr)).
Proof.
  intros Hmw. revert k.
  induction turns as [|turns IH]; intros k Hturns Hfailed; [lia|].
  cbn [retryLoop]. rewrite (logging_only hc Hmw). unfold executeRequest at 1.
  destruct (client_Do hc k) as [resp err] eqn:Hdo.
  assert (length (map (fun i => BackoffDelay (retryPolicy hc) (Z.of_nat i)) (seq 0 k)) = k)
    as Hlen by (by rewrite length_map, length_seq).
  assert (forall ret,
             ret = client_Do hc k \/
             (exists ctxErr, DoneWhile ctx (Z.of_nat k) = Some ctxErr /\
                             ret = (None, Some ctxErr)) ->
             exists r,
               Some {| returned := ret;
                       slept := map (fun i => BackoffDelay (retryPolicy hc) (Z.of_nat i))
                                  (seq 0 k);
                       sent := S k |} = Some r /\
               sent r = S (length (slept r)) /\
               (k <= length (slept r))%nat /\
               (length (slept r) <= Nat.max k (Z.to_nat (MaxRetries (retryPolicy hc))))%nat /\
               slept r = map (fun i => BackoffDelay (retryPolicy hc) (Z.of_nat i))
                           (seq 0 (length (slept r))) /\
               (forall i, (i < length (slept r))%nat ->
                          exists resp e, client_Do hc i = (resp, Some e)) /\
               (returned r = client_Do hc (length (slept r)) \/
                exists ctxErr, DoneWhile ctx (Z.of_nat (length (slept r))) = Some ctxErr /\
                               returned r = (None, Some ctxErr))) as Hstop.
  { intros ret Hret. eexists. split; [done|]. cbn [sent slept returned]. rewrite Hlen.
    split; [done|]. split; [done|]. split; [lia|]. split; [done|]. split; [done|]. done. }
  destruct err as [e|]; cbn [isNil orb].
  2:{ apply Hstop. left. by rewrite Hdo. }
  destruct (MaxRetries (retryPolicy hc) <=? Z.of_nat k)%Z eqn:Hmax.
  { apply Hstop. left. by rewrite Hdo. }
  apply Z.leb_gt in Hmax.
  destruct (shouldRetry hc ctx resp (Some e) (Z.of_nat k)); cbn [negb].
  2:{ apply Hstop. left. by rewrite Hdo. }
  destruct (DoneWhile ctx (Z.of_nat k)) as [ctxErr|] eqn:Hdone.
  { apply Hstop. right. by exists ctxErr. }
  replace (Z.of_nat k + 1)%Z with (Z.of_nat (S k)) by lia.
  replace (map (fun i => BackoffDelay (retryPolicy hc) (Z.of_nat i)) (seq 0 k)
             ++ [BackoffDelay (retryPolicy hc) (Z.of_nat k)])
    with (map (fun i => BackoffDelay (retryPolicy hc) (Z.of_nat i)) (seq 0 (S k))).
  2:{ by rewrite seq_S, map_app. }
  destruct (IH (S k)) as (r & Hr & Hsent & Hk & Hbound & Hslept & Hfail & Hret).
  { lia. }
  { intros i Hi. destruct (decide (i = k)) as [->|Hne].
    - exists resp, e. done.
    - apply Hfailed. lia. }
  exists r. split; [done|]. split; [done|]. split; [lia|]. split; [lia|]. done.
Qed.

(** X15. However a run of [doWithRetry] goes, it returns, and what it leaves
    behind adds up: one more request has been sent than delays have been
    waited for, at most [MaxRetries] delays, each the backoff of its
    attempt number; every attempt that was followed by a delay had returned
    an error; and what is returned is the outcome of the last attempt, or
    the error of the context when it was done during the last backoff. *)
Theorem doWithRetry_accounting (hc : HTTPClient (P := P)) (ctx : Context) :
  Forall (fun m => m = LoggingMiddleware) (middleware hc) ->
  exists r,
    doWithRetry hc ctx = Some r /\
    sent r = S (length (slept r)) /\
    (length (slept r) <= Z.to_nat (MaxRetries (retryPolicy hc)))%nat /\
    slept r = map (fun i => BackoffDelay (retryPolicy hc) (Z.of_nat i))
                (seq 0 (length (slept r))) /\
    (forall i, (i < length (slept r))%nat -> exists resp e, client_Do hc i = (resp, Some e)) /\
    (returned r = client_Do hc (length (slept r)) \/
     exists ctxErr, DoneWhile ctx (Z.of_nat (length (slept r))) = Some ctxErr /\
                    returned r = (None, Some ctxErr)).
Proof.
  intros Hmw. unfold doWithRetry.
  destruct (retryLoop_accounting hc ctx (S (Z.to_nat (MaxRetries (retryPolicy hc)))) 0 Hmw)
    as (r & Hr & Hsent & _ & Hbound & Hslept & Hfail & Hret).
  { simpl. lia. }
  { intros i Hi. lia. }
  exists r. split; [exact Hr|]. split; [done|]. split; [lia|]. done.
Qed.

Lemma retryLoop_exhausts (hc : HTTPClient (P := P)) (turns k : nat) :
  Forall (fun m => m = LoggingMiddleware) (middleware hc) ->
  (forall n, exists resp e,
      client_Do hc n = (resp, Some e) /\
      ShouldRetry (retryPolicy hc) None resp (Some e) (Z.of_nat n) = true) ->
  (Z.of_nat k <= MaxRetries (retryPolicy hc))%Z ->
  (Z.to_nat (MaxRetries (retryPolicy hc) - Z.of_nat k) < turns)%nat ->
  retryLoop turns hc background (MaxRetries (retryPolicy hc)) (Z.of_nat k)
    (map (fun i => BackoffDelay (retryPolicy hc) (Z.of_nat i)) (seq 0 k)) k
  = Some {| returned := client_Do hc (Z.to_nat (MaxRetries (retryPolicy hc)));
            slept := map (fun i => BackoffDelay (retryPolicy hc) (Z.of_nat i))
                       (seq 0 (Z.to_nat (MaxRetries (retryPolicy hc))));
            sent := S (Z.to_nat (MaxRetries (retryPolicy hc))) |}.
Proof.
  intros Hmw Hfail. revert k.
  induction turns as [|turns IH]; intros k Hk Hturns; [lia|].
  cbn [retryLoop]. rewrite (logging_only hc Hmw). unfold executeRequest at 1.
  destruct (Hfail k) as (resp & e & Hdo & Hretry). rewrite Hdo. cbn [isNil orb].
  destruct (MaxRetries (retryPolicy hc) <=? Z.of_nat k)%Z eqn:Hmax.
  - apply Z.leb_le in Hmax.
    assert (Z.to_nat (MaxRetries (retryPolicy hc)) = k) as -> by lia.
    by rewrite Hdo.
  - apply Z.leb_gt in Hmax.
    unfold shouldRetry. cbn [background ctx_Err DoneWhile].
    destruct (MaxRetries (retryPolicy hc) <=? Z.of_nat k)%Z eqn:Hmax'; [apply Z.leb_le in Hmax'; lia|].
    rewrite Hretry. cbn [negb].
    replace (Z.of_nat k + 1)%Z with (Z.of_nat (S k)) by lia.
    replace (map (fun i => BackoffDelay (retryPolicy hc) (Z.of_nat i)) (seq 0 k)
               ++ [BackoffDelay (retryPolicy hc) (Z.of_nat k)])
      with (map (fun i => BackoffDelay (retryPolicy hc) (Z.of_nat i)) (seq 0 (S k))).
    2:{ by rewrite seq_S, map_app. }
    apply IH; lia.
Qed.

(** X16. Against a backend whose every attempt fails with an error that the
    policy accepts for a retry, and with a context that is never done,
    [doWithRetry] sends exactly [MaxRetries + 1] requests, waits for the
    backoff of each attempt but the last, and returns the outcome of the
    last attempt. *)
Theorem persistent_failure_exhausts_retries (hc : HTTPClient (P := P)) :
  Forall (fun m => m = LoggingMiddleware) (middleware hc) ->
  (0 <= MaxRetries (retryPolicy hc))%Z ->
  (forall n, exists resp e,
      client_Do hc n = (resp, Some e) /\
      ShouldRetry (retryPolicy hc) None resp (Some e) (Z.of_nat n) = true) ->
  doWithRetry hc background
  = Some {| returned := client_Do hc (Z.to_nat (MaxRetries (retryPolicy hc)));
            slept := map (fun i => BackoffDelay (retryPolicy hc) (Z.of_nat i))
                       (seq 0 (Z.to_nat (MaxRetries (retryPolicy hc))));
            sent := S (Z.to_nat (MaxRetries (retryPolicy hc))) |}.
Proof.
  intros Hmw Hmax Hfail. unfold doWithRetry.
  apply (retryLoop_exhausts hc _ 0 Hmw Hfail); simpl; lia.
Qed.

(** X17. Under a context that is already done when the first attempt has
    failed, nothing is retried: one request is sent, no delay is waited
    for, and the outcome of that attempt is returned as it is. *)
Theorem done_context_is_not_retried (hc : HTTPClient (P := P)) (ctx : Context)
    (ctxErr : error) :
  Forall (fun m => m = LoggingMiddleware) (middleware hc) ->
  ctx_Err ctx 0 = Some ctxErr ->
  doWithRetry hc ctx = Some {| returned := client_Do hc 0; slept := []; sent := 1 |}.
Proof.
  intros Hmw Hctx. unfold doWithRetry. cbn [retryLoop].
  rewrite (logging_only hc Hmw). unfold executeRequest at 1.
  destruct (client_Do hc 0) as [resp err].
  destruct (isNil err || (MaxRetries (retryPolicy hc) <=? 0)%Z); [done|].
  unfold shouldRetry. by rewrite Hctx.
Qed.

End retry_accounting.

Section retry_default_policy.
Import Transport Scenarios.

Lemma doWithRetry_accounting_witness :
  exists r,
    doWithRetry timedOutTwice background = Some r /\
    sent r = S (length (slept r)) /\
    (length (slept r) <= Z.to_nat (MaxRetries (retryPolicy timedOutTwice)))%nat /\
    slept r = map (fun i => BackoffDelay (retryPolicy timedOutTwice) (Z.of_nat i))
                (seq 0 (length (slept r))) /\
    (forall i, (i < length (slept r))%nat ->
               exists resp e, client_Do timedOutTwice i = (resp, Some e)) /\
    (returned r = client_Do timedOutTwice (length (slept r)) \/
     exists ctxErr, DoneWhile background (Z.of_nat (length (slept r))) = Some ctxErr /\
                    returned r = (None, Some ctxErr)).
Proof.
  apply (doWithRetry_accounting (P := DefaultRetryPolicy) timedOutTwice background).
  repeat constructor.
Defined.

Lemma persistent_failure_exhausts_retries_witness :
  doWithRetry timedOutAlways background
  = Some {| returned :=
              client_Do timedOutAlways (Z.to_nat (MaxRetries (retryPolicy timedOutAlways)));
            slept := map (fun i => BackoffDelay (retryPolicy timedOutAlways) (Z.of_nat i))
                       (seq 0 (Z.to_nat (MaxRetries (retryPolicy timedOutAlways))));
            sent := S (Z.to_nat (MaxRetries (retryPolicy timedOutAlways))) |}.
Proof.
  apply (persistent_failure_exhausts_retries (P := DefaultRetryPolicy) timedOutAlways).
  - repeat constructor.
  - simpl. lia.
  - intros n. by exists None, clientTimeout.
Defined.

Lemma done_context_is_not_retried_witness :
  doWithRetry timedOutTwice cancelled
  = Some {| returned := client_Do timedOutTwice 0; slept := []; sent := 1 |}.
Proof.
  apply (done_context_is_not_retried (P := DefaultRetryPolicy) timedOutTwice _ Canceled).
  - repeat constructor.
  - reflexivity.
Defined.

(** X18. The default backoff starts at the base delay and doubles with every
    attempt until it reaches the cap of 30 seconds, where it stays; it never
    decreases. The attempt numbers are those for which the product does not
    leave the range of a [time.Duration]. *)
Theorem BackoffDelay_doubles (p : DefaultRetryPolicy) (retryCount : Z) :
  (0 <= retryCount)%Z -> (0 <= baseDelay p)%Z ->
  (baseDelay p * 2 ^ (retryCount + 1) < 2 ^ 63)%Z ->
  BackoffDelay p 0 = Z.min (baseDelay p) (30 * Second) /\
  BackoffDelay p (retryCount + 1) = Z.min (2 * BackoffDelay p retryCount) (30 * Second) /\
  (BackoffDelay p retryCount <= BackoffDelay p (retryCount + 1))%Z.
Proof.
  intros Hn Hb _. cbn [BackoffDelay DefaultRetryPolicy_policy].
  unfold DefaultRetryPolicy_BackoffDelay.
  rewrite Z.pow_add_r, Z.pow_1_r, Z.pow_0_r, Z.mul_1_r by lia.
  assert (0 < 2 ^ retryCount)%Z as Hpow by (apply Z.pow_pos_nonneg; lia).
  assert (0 < 30 * Second)%Z as Hcap by (unfold Second; lia).
  set (cap := (30 * Second)%Z) in *.
  set (d := (baseDelay p * 2 ^ retryCount)%Z).
  assert (0 <= d)%Z as Hd by (subst d; nia).
  replace (baseDelay p * (2 ^ retryCount * 2))%Z with (2 * d)%Z by (subst d; lia).
  destruct (cap <? baseDelay p)%Z eqn:E0; [apply Z.ltb_lt in E0|apply Z.ltb_ge in E0];
    (destruct (cap <? d)%Z eqn:E1; [apply Z.ltb_lt in E1|apply Z.ltb_ge in E1]);
    (destruct (cap <? 2 * d)%Z eqn:E2; [apply Z.ltb_lt in E2|apply Z.ltb_ge in E2]);
    lia.
Qed.

Lemma BackoffDelay_doubles_witness :
  BackoffDelay NewDefaultRetryPolicy 0 = Z.min (baseDelay NewDefaultRetryPolicy) (30 * Second) /\
  BackoffDelay NewDefaultRetryPolicy (4 + 1)
  = Z.min (2 * BackoffDelay NewDefaultRetryPolicy 4) (30 * Second) /\
  (BackoffDelay NewDefaultRetryPolicy 4 <= BackoffDelay NewDefaultRetryPolicy (4 + 1))%Z.
Proof.
  apply (BackoffDelay_doubles NewDefaultRetryPolicy 4); vm_compute; congruence.
Defined.

(** X19. The error made of an error response is always an [APIError] that
    carries the status of the response, whatever the body holds, so
    [IsRetryable] judges it by that status alone; and every status for
    which [ResponseHandler.ShouldRetry] holds gives a retryable error. *)
Theorem error_response_keeps_status
    (decodeError decodeOpenAIError : string -> option Types.ErrorResponse)
    (resp : Response) (body : string) :
  (exists errType code message,
      handleErrorResponse decodeError decodeOpenAIError resp body
      = APIError errType code message (StatusCode resp)) /\
  ResponseHandler_IsRetryable (handleErrorResponse decodeError decodeOpenAIError resp body)
  = Types.IsRetryable (StatusCode resp) /\
  (ResponseHandler_ShouldRetry resp = true -> Types.IsRetryable (StatusCode resp) = true).
Proof.
  assert (exists errType code message,
             createErrorFromStatusCode (StatusCode resp) body
             = APIError errType code message (StatusCode resp)) as Hcreate.
  { unfold createErrorFromStatusCode.
    repeat match goal with
           | |- context [if ?b then _ else _] => destruct b; [by do 3 eexists|]
           end.
    by do 3 eexists. }
  assert (exists errType code message,
             handleErrorResponse decodeError decodeOpenAIError resp body
             = APIError errType code message (StatusCode resp)) as Hhandle.
  { unfold handleErrorResponse.
    destruct (decodeError body) as [errorResp|];
      [destruct (negb (String.eqb (Types.er_Message errorResp) "")); [by do 3 eexists|]|];
      (destruct (decodeOpenAIError body) as [openAIError|]; [|done]);
      (destruct (negb (String.eqb (Types.er_Message openAIError) "")); [by do 3 eexists|done]). }
  split; [done|]. split.
  - destruct Hhandle as (errType & code & message & ->). done.
  - unfold ResponseHandler_ShouldRetry, retryableStatus, Types.IsRetryable.
    rewrite !orb_true_iff, !Z.eqb_eq, Z.leb_le. lia.
Qed.

End retry_default_policy.

(** ** The lines of an event stream *)

Lemma append_assoc (a b c : string) : (a +:+ b) +:+ c = a +:+ b +:+ c.
Proof.
  induction a as [|x a IH]; [done|].
  change (String x ((a +:+ b) +:+ c) = String x (a +:+ b +:+ c)). by f_equal.
Qed.

Lemma append_empty_r (a : string) : a +:+ "" = a.
Proof.
  induction a as [|x a IH]; [done|].
  change (String x (a +:+ "") = String x a). by f_equal.
Qed.

Lemma append_nonempty (a b : string) : a <> "" -> a +:+ b <> "".
Proof. by destruct a. Qed.

Section lines.
Import Transport EventStreams.
Context (Sscanf_d : string -> option Z).

Lemma joined_from (payloads : list string) (first : string) :
  fold_left (fun data payload => data +:+ String "010" "" +:+ payload) payloads first
  = String.concat (String "010" "") (first :: payloads).
Proof.
  revert first. induction payloads as [|p payloads IH]; intros first; [done|].
  cbn [fold_left]. rewrite IH. cbn [String.concat].
  destruct payloads as [|q payloads]; [done|]. by rewrite append_assoc.
Qed.

Lemma parseLine_Data (event : StreamEvent) (line : string) :
  Data (parseLine Sscanf_d event line)
  = if HasPrefix line "data: "
    then if String.eqb (Data event) "" then TrimPrefix line "data: "
         else Data event +:+ String "010" "" +:+ TrimPrefix line "data: "
    else Data event.
Proof.
  unfold parseLine. destruct (HasPrefix line "data: ").
  - by destruct (String.eqb (Data event) "").
  - destruct (HasPrefix line "event: "); [done|].
    destruct (HasPrefix line "id: "); [done|].
    destruct (HasPrefix line "retry: "); [|done].
    by destruct (Sscanf_d _).
Qed.

Lemma parseLine_Event (event : StreamEvent) (line : string) :
  Event (parseLine Sscanf_d event line)
  = if HasPrefix line "data: " then Event event
    else if HasPrefix line "event: " then TrimPrefix line "event: " else Event event.
Proof.
  unfold parseLine. destruct (HasPrefix line "data: ").
  - by destruct (String.eqb (Data event) "").
  - destruct (HasPrefix line "event: "); [done|].
    destruct (HasPrefix line "id: "); [done|].
    destruct (HasPrefix line "retry: "); [|done].
    by destruct (Sscanf_d _).
Qed.

Lemma fold_parseLine_Data (lines : list string) (event : StreamEvent) :
  Data (fold_left (parseLine Sscanf_d) lines event)
  = if String.eqb (Data event) ""
    then String.concat (String "010" "") (afterEmpty (dataPayloads lines))
    else String.concat (String "010" "") (Data event :: dataPayloads lines).
Proof.
  revert event. induction lines as [|line lines IH]; intros event.
  - cbn. destruct (String.eqb (Data event) "") eqn:E; [|done].
    by apply String.eqb_eq in E.
  - cbn [fold_left]. rewrite IH, parseLine_Data. unfold dataPayloads. cbn [flat_map].
    fold (dataPayloads lines).
    destruct (HasPrefix line "data: "); cbn [app]; [|done].
    destruct (String.eqb (Data event) "") eqn:E.
    + cbn [afterEmpty]. destruct (String.eqb (TrimPrefix line "data: ") "") eqn:E'; [done|].
      done.
    + assert (String.eqb (Data event +:+ String "010" "" +:+ TrimPrefix line "data: ") ""
              = false) as ->.
      { apply String.eqb_neq, append_nonempty. by apply String.eqb_neq. }
      cbn [String.concat]. destruct (dataPayloads lines); [done|].
      by rewrite append_assoc.
Qed.

Lemma fold_parseLine_Event (lines : list string) (event : StreamEvent) :
  Event (fold_left (parseLine Sscanf_d) lines event)
  = default (Event event) (last (eventNames lines)).
Proof.
  revert event. induction lines as [|line lines IH]; intros event; [done|].
  cbn [fold_left]. rewrite IH, parseLine_Event. unfold eventNames. cbn [flat_map].
  fold (eventNames lines).
  destruct (HasPrefix line "data: "); cbn [app]; [done|].
  destruct (HasPrefix line "event: "); cbn [app]; [|done].
  destruct (eventNames lines) as [|name names] eqn:En; [done|].
  rewrite last_cons_cons.
  destruct (last (name :: names)) eqn:El; [done|]. by apply last_None in El.
Qed.

(** X20. [parseEvent] joins the payloads of the data lines of an event with
    line feeds, in their order, leaving out the empty payloads that come
    before the first payload with content; and the name of the event is
    that of its last event line, if it has one. *)
Theorem parseEvent_joins_data (lines : list string) :
  Data (parseEvent Sscanf_d lines)
  = String.concat (String "010" "") (afterEmpty (dataPayloads lines)) /\
  Event (parseEvent Sscanf_d lines) = default "" (last (eventNames lines)).
Proof.
  unfold parseEvent. by rewrite fold_parseLine_Data, fold_parseLine_Event.
Qed.

Lemma flush_worthSending (lines : list string) (eventChan : list StreamEvent) :
  flush Sscanf_d lines eventChan
  = eventChan ++ (if (0 <? length lines)%nat
                  then List.filter worthSending [parseEvent Sscanf_d lines] else []).
Proof.
  unfold flush, worthSending. destruct (0 <? length lines)%nat; [|by rewrite app_nil_r].
  cbn. destruct (negb _ || negb _); [done|by rewrite app_nil_r].
Qed.

Lemma scanLoop_sends (ctxDone : nat -> bool) (tokens : list string) :
  forall (i : nat) (lines : list string) (eventChan : list StreamEvent),
    Forall (fun e => worthSending e = true) eventChan ->
    Forall (fun e => worthSending e = true) (scanLoop Sscanf_d ctxDone i tokens lines eventChan).2.
Proof.
  induction tokens as [|text tokens IH]; intros i lines eventChan Hsent; cbn [scanLoop];
    [done|].
  destruct (ctxDone i); [done|].
  destruct (String.eqb (TrimSpace text) ""); [|by apply IH].
  destruct (0 <? length lines)%nat eqn:El; [|by apply IH].
  apply IH. rewrite flush_worthSending, El. apply Forall_app. split; [done|].
  cbn. destruct (worthSending (parseEvent Sscanf_d lines)) eqn:E; by repeat constructor.
Qed.

(** X21. The goroutine of [processStream] never sends an event that has
    neither data nor a name; it signals completion exactly when it has not
    been stopped by its context, and then once; and it sends an error only
    for an error of the scanner, and then one. *)
Theorem processStream_sends_no_empty_event (ctxDone : nat -> bool) (tokens : list string)
    (scanErr : option error) :
  Forall (fun e => Data e <> "" \/ Event e <> "")
    (sentEvents (processStream Sscanf_d ctxDone tokens scanErr)) /\
  (sentDone (processStream Sscanf_d ctxDone tokens scanErr) = [true] \/
   (exists i, ctxDone i = true) /\
   sentDone (processStream Sscanf_d ctxDone tokens scanErr) = [] /\
   sentErrors (processStream Sscanf_d ctxDone tokens scanErr) = []) /\
  length (sentErrors (processStream Sscanf_d ctxDone tokens scanErr))
  = (if isNil scanErr then 0 else
       length (sentDone (processStream Sscanf_d ctxDone tokens scanErr))).
Proof.
  assert (forall e, worthSending e = true -> Data e <> "" \/ Event e <> "") as Hworth.
  { intros e. unfold worthSending. rewrite orb_true_iff, !negb_true_iff.
    intros [H|H]; apply String.eqb_neq in H; auto. }
  assert (forall (tokens : list string) (i : nat) (lines : list string)
                 (eventChan : list StreamEvent),
             (scanLoop Sscanf_d ctxDone i tokens lines eventChan).1.1 = true ->
             exists j, ctxDone j = true) as Hstopped.
  { clear tokens. induction tokens as [|text tokens IH]; intros i lines eventChan;
      cbn [scanLoop]; [done|].
    destruct (ctxDone i) eqn:E; [by exists i|].
    destruct (String.eqb (TrimSpace text) ""); [|apply IH].
    destruct (0 <? length lines)%nat; apply IH. }
  unfold processStream.
  pose proof (scanLoop_sends ctxDone tokens 0 [] [] ltac:(constructor)) as Hsent.
  pose proof (Hstopped tokens 0 [] []) as Hstop.
  destruct (scanLoop Sscanf_d ctxDone 0 tokens [] []) as [[stopped lines] eventChan].
  cbn [fst snd] in *. destruct stopped; cbn [sentEvents sentDone sentErrors].
  - split; [by eapply Forall_impl|]. split; [right; auto|]. by destruct scanErr.
  - split; [|split; [by left|by destruct scanErr]].
    rewrite flush_worthSending. apply Forall_app. split; [by eapply Forall_impl|].
    destruct (0 <? length lines)%nat; [|done].
    cbn. destruct (worthSending (parseEvent Sscanf_d lines)) eqn:E; [|done].
    constructor; [by apply Hworth|done].
Qed.

Lemma scanLoop_group (group rest lines : list string) (i : nat)
    (eventChan : list StreamEvent) :
  Forall keptLine group ->
  scanLoop Sscanf_d (fun _ => false) i (group ++ rest) lines eventChan
  = scanLoop Sscanf_d (fun _ => false) (i + length group) rest (lines ++ group) eventChan.
Proof.
  intros Hgroup. revert i lines.
  induction Hgroup as [|line group [Htrim Hne] Hgroup IH]; intros i lines.
  - by rewrite app_nil_r, Nat.add_0_r.
  - cbn [app scanLoop]. rewrite Htrim.
    apply String.eqb_neq in Hne. rewrite Hne.
    rewrite IH. cbn [length]. rewrite Nat.add_succ_r, <- app_assoc. done.
Qed.

Lemma scanLoop_groups (groups : list (list string)) (rest : list string) :
  Forall (fun group => group <> [] /\ Forall keptLine group) groups ->
  forall (i : nat) (eventChan : list StreamEvent),
    exists j,
      scanLoop Sscanf_d (fun _ => false) i
        (concat (map (fun group => group ++ [""]) groups) ++ rest) [] eventChan
      = scanLoop Sscanf_d (fun _ => false) j rest []
          (eventChan ++ List.filter worthSending (map (parseEvent Sscanf_d) groups)).
Proof.
  induction 1 as [|group groups [Hne Hkept] Hgroups IH]; intros i eventChan.
  - exists i. cbn. by rewrite app_nil_r.
  - cbn [map concat]. rewrite <- !app_assoc, (scanLoop_group _ _ _ _ _ Hkept).
    cbn [app scanLoop]. change (TrimSpace "") with "". cbn [String.eqb].
    assert ((0 <? length group)%nat = true) as Hlen.
    { destruct group; [done|]. done. }
    rewrite Hlen, flush_worthSending, Hlen.
    destruct (IH (S (i + length group))
                (eventChan ++ List.filter worthSending [parseEvent Sscanf_d group]))
      as [j Hj].
    exists j. rewrite Hj. cbn [map]. rewrite <- app_assoc. do 2 f_equal.
    cbn. by destruct (worthSending (parseEvent Sscanf_d group)).
Qed.

(** X22. An event stream is read back group by group: when the lines are
    those of some groups, each a non-empty list of lines that are trimmed
    and not blank, each followed by a blank line but possibly the last,
    [processStream], if its context is never done, sends one event for each
    group, in order, made by [parseEvent] of the lines of the group, except
    for the events that have neither data nor a name; and then it signals
    completion. *)
Theorem processStream_reads_groups (groups : list (list string)) (unfinished : list string)
    (scanErr : option error) :
  Forall (fun group => group <> [] /\ Forall keptLine group) groups ->
  Forall keptLine unfinished ->
  sentEvents (processStream Sscanf_d (fun _ => false)
                (concat (map (fun group => group ++ [""]) groups) ++ unfinished) scanErr)
  = List.filter worthSending
      (map (parseEvent Sscanf_d) (groups ++ (if (0 <? length unfinished)%nat
                                             then [unfinished] else []))) /\
  sentDone (processStream Sscanf_d (fun _ => false)
              (concat (map (fun group => group ++ [""]) groups) ++ unfinished) scanErr)
  = [true].
Proof.
  intros Hgroups Hlast. unfold processStream.
  destruct (scanLoop_groups groups unfinished Hgroups 0 []) as [j ->].
  pose proof (scanLoop_group unfinished [] [] j
                ([] ++ List.filter worthSending (map (parseEvent Sscanf_d) groups)) Hlast)
    as Htail.
  rewrite app_nil_r in Htail. rewrite Htail. cbn [scanLoop app sentEvents sentDone].
  split; [|done].
  rewrite flush_worthSending, map_app, List.filter_app.
  by destruct (0 <? length unfinished)%nat.
Qed.

End lines.

Section lines_examples.
Import Transport Scenarios EventStreams.

Lemma processStream_reads_groups_witness :
  sentEvents (processStream (fun _ => None) (fun _ => false)
                (concat (map (fun group => group ++ [""])
                           [ ["event: delta"; "data: Hel"; "data: lo"]; [": keep-alive"] ])
                 ++ ["data: [DONE]"]) None)
  = List.filter worthSending
      (map (parseEvent (fun _ => None))
         ([ ["event: delta"; "data: Hel"; "data: lo"]; [": keep-alive"] ]
          ++ (if (0 <? length ["data: [DONE]"])%nat then [["data: [DONE]"]] else []))) /\
  sentDone (processStream (fun _ => None) (fun _ => false)
              (concat (map (fun group => group ++ [""])
                         [ ["event: delta"; "data: Hel"; "data: lo"]; [": keep-alive"] ])
               ++ ["data: [DONE]"]) None)
  = [true].
Proof.
  apply (processStream_reads_groups (fun _ => None)
           [ ["event: delta"; "data: Hel"; "data: lo"]; [": keep-alive"] ]
           ["data: [DONE]"] None).
  - repeat constructor; done.
  - repeat constructor; done.
Defined.

End lines_examples.

Section closed_reader.
Import Transport Scenarios.
Context {J : Type} (Unmarshal : string -> J + string).

(** X23. Once the goroutine has closed its channels and nothing is queued on
    the event and error channels, [Read] never returns data: depending on
    what [select] picks, it goes round the loop again (the closed event
    channel gives an event without data), returns [io.EOF] (the completion
    channel), or returns neither data nor an error (the closed error
    channel gives a nil error). *)
Theorem Read_on_closed_channels (sched : list selectCase) (st : channels) :
  closed st = true -> ctxErr st = None -> eventChan st = [] -> errorChan st = [] ->
  (Read Unmarshal sched st).1
  = match List.find (fun c => match c with
                              | CaseError | CaseDone => true
                              | _ => false
                              end) sched with
    | Some CaseError => Returned (None, None)
    | Some _ => Returned (None, Some EOF)
    | None => Pending
    end.
Proof.
  intros Hclosed Hctx Hevents Herrors.
  destruct st as [c ev er dn cl]. cbn in Hclosed, Hctx, Hevents, Herrors. subst.
  induction sched as [|choice sched IH]; [done|].
  destruct choice.
  - exact IH.
  - exact IH.
  - reflexivity.
  - by destruct dn.
Qed.

End closed_reader.

Section closed_reader_examples.
Import Transport Scenarios.

Lemma Read_on_closed_channels_witness :
  (Read decodeText [CaseEvent; CaseCtxDone; CaseError; CaseDone]
     {| ctxErr := None; eventChan := []; errorChan := []; done := [true]; closed := true |}).1
  = match List.find (fun c => match c with
                              | CaseError | CaseDone => true
                              | _ => false
                              end) [CaseEvent; CaseCtxDone; CaseError; CaseDone] with
    | Some CaseError => Returned (None, None)
    | Some _ => Returned (None, Some EOF)
    | None => Pending
    end.
Proof.
  apply (Read_on_closed_channels decodeText [CaseEvent; CaseCtxDone; CaseError; CaseDone]
           {| ctxErr := None; eventChan := []; errorChan := []; done := [true];
              closed := true |}); reflexivity.
Defined.

End closed_reader_examples.

(** ** The stream processor *)

Section processor.
Import Transport Chat Scenarios EventStreams.
Context {J : Type} (Unmarshal : string -> J + string).
Context (Marshal : option J -> Types.RawMessage + string).

(** X24. A call of [Next] that reports an error, [io.EOF] included, ends the
    stream for good: the processor is done, [Err] gives the error of that
    call if the processor was not done before, and every later call reports
    [io.EOF] without reading from the stream, whatever is still queued. *)
Theorem Next_error_is_final (sched : list selectCase) (p p' : ChatStreamProcessor)
    (e : error) :
  Next Unmarshal Marshal sched p = (Returned (Err e), p') ->
  Done p' = true /\
  (Done p = false -> ChatStreamProcessor_Err p' = Some e) /\
  (forall scheds,
      nextResults Unmarshal Marshal scheds p' = (repeat (Err EOF) (length scheds), p')).
Proof.
  intros Hnext.
  assert (Done p' = true /\ (Done p = false -> ChatStreamProcessor_Err p' = Some e))
    as [Hdone Herr].
  { unfold Next, Done, ChatStreamProcessor_Err in *.
    destruct (finished p) eqn:Hf.
    - injection Hnext as <- <-. by rewrite Hf.
    - destruct (adapter_Next Unmarshal Marshal sched (stream p)) as [[[event|e']|] reader];
        [done| |done].
      by injection Hnext as <- <-. }
  split; [done|]. split; [done|].
  intros scheds. by apply nextResults_finished.
Qed.

Lemma Next_keeps (sched : list selectCase) (p p' : ChatStreamProcessor)
    (r : result Types.StreamEvent) :
  Next Unmarshal Marshal sched p = (Returned r, p') ->
  chunks p' = chunks p ++ keptChunk r.
Proof.
  unfold Next, keptChunk. destruct (finished p).
  - intros [= <- <-]. by rewrite app_nil_r.
  - destruct (adapter_Next Unmarshal Marshal sched (stream p)) as [[[event|e']|] reader];
      [| |done].
    + intros [= <- <-]. cbn [chunks].
      destruct (String.eqb (Types.Type_ event) Types.StreamEventTypeData);
        [|by rewrite app_nil_r].
      destruct (parseChunk (Types.Data event)); [done|by rewrite app_nil_r].
    + intros [= <- <-]. cbn [chunks]. by rewrite app_nil_r.
Qed.

Lemma Next_pending_keeps (sched : list selectCase) (p p' : ChatStreamProcessor) :
  Next Unmarshal Marshal sched p = (Pending, p') -> chunks p' = chunks p.
Proof.
  unfold Next. destruct (finished p); [done|].
  destruct (adapter_Next Unmarshal Marshal sched (stream p)) as [[[event|e']|] reader];
    [done|done|].
  by intros [= <-].
Qed.

Lemma nextResults_keeps (scheds : list (list selectCase)) (p : ChatStreamProcessor) :
  chunks (nextResults Unmarshal Marshal scheds p).2
  = chunks p ++ flat_map keptChunk (nextResults Unmarshal Marshal scheds p).1.
Proof.
  revert p. induction scheds as [|sched scheds IH]; intros p; cbn [nextResults].
  - cbn. by rewrite app_nil_r.
  - destruct (Next Unmarshal Marshal sched p) as [[r|] p'] eqn:Hnext.
    + specialize (IH p'). destruct (nextResults Unmarshal Marshal scheds p') as [rs p''].
      cbn [fst snd flat_map] in *. rewrite IH, (Next_keeps _ _ _ _ Hnext).
      by rewrite <- app_assoc.
    + cbn. rewrite app_nil_r. by apply Next_pending_keeps in Hnext.
Qed.

Lemma collect_choices (choices : list Types.ChatCompletionChunkChoice) (content : string) :
  fold_left (fun content choice => content +:+ Types.GetContent choice) choices content
  = content +:+ String.concat "" (map Types.GetContent choices).
Proof.
  revert content. induction choices as [|choice choices IH]; intros content; cbn.
  - by rewrite append_empty_r.
  - rewrite IH, append_assoc. f_equal.
    destruct choices as [|next choices]; cbn; [by rewrite append_empty_r|done].
Qed.

Lemma joined_app (a b : list string) :
  String.concat "" (a ++ b) = String.concat "" a +:+ String.concat "" b.
Proof.
  induction a as [|x a IH]; [done|].
  destruct a as [|y a].
  - cbn. destruct b; cbn; [by rewrite append_empty_r|done].
  - change (String.concat "" ((x :: y :: a) ++ b))
      with (x +:+ "" +:+ String.concat "" ((y :: a) ++ b)).
    rewrite IH. change (String.concat "" (x :: y :: a))
      with (x +:+ "" +:+ String.concat "" (y :: a)).
    cbn. by rewrite append_assoc.
Qed.

Lemma collect_chunks (chunks : list Types.ChatCompletionChunk) (content : string) :
  fold_left
    (fun content chunk =>
       fold_left (fun content choice => content +:+ Types.GetContent choice)
         (Types.chunk_Choices chunk) content)
    chunks content
  = content +:+ String.concat "" (choiceTexts chunks).
Proof.
  revert content. induction chunks as [|chunk chunks IH]; intros content; cbn.
  - by rewrite append_empty_r.
  - rewrite IH, collect_choices, append_assoc. f_equal.
    unfold choiceTexts. cbn [flat_map]. by rewrite joined_app.
Qed.

(** X25. The processor keeps the chunks of the events it has returned, in the
    order it returned them: after any calls of [Next], [GetChunks] holds
    the chunks it held before followed by those decoded from the data events
    returned since, and [CollectContent] is the concatenation of the texts
    of all their choices. *)
Theorem returned_chunks_are_collected (scheds : list (list selectCase))
    (p : ChatStreamProcessor) :
  GetChunks (nextResults Unmarshal Marshal scheds p).2
  = GetChunks p ++ flat_map keptChunk (nextResults Unmarshal Marshal scheds p).1 /\
  CollectContent (nextResults Unmarshal Marshal scheds p).2
  = CollectContent p
    +:+ String.concat ""
          (choiceTexts (flat_map keptChunk (nextResults Unmarshal Marshal scheds p).1)).
Proof.
  unfold GetChunks, CollectContent. rewrite nextResults_keeps. split; [done|].
  rewrite !collect_chunks. cbn. unfold choiceTexts. rewrite flat_map_app, joined_app. done.
Qed.

End processor.

Section processor_examples.
Import Transport Chat Scenarios.

Lemma Next_error_is_final_witness :
  Done {| stream := running [dataOnly "late"]; chunks := []; finished := true;
          err := Some EOF |} = true /\
  (Done (queued (NewChatStreamProcessor (running [])) [dataOnly "[DONE]"; dataOnly "late"])
   = false ->
   ChatStreamProcessor_Err
     {| stream := running [dataOnly "late"]; chunks := []; finished := true;
        err := Some EOF |}
   = Some EOF) /\
  (forall scheds,
      nextResults decodeText encodeText scheds
        {| stream := running [dataOnly "late"]; chunks := []; finished := true;
           err := Some EOF |}
      = (repeat (Err EOF) (length scheds),
         {| stream := running [dataOnly "late"]; chunks := []; finished := true;
            err := Some EOF |})).
Proof.
  apply (Next_error_is_final decodeText encodeText [CaseEvent]
           (queued (NewChatStreamProcessor (running [])) [dataOnly "[DONE]"; dataOnly "late"])
           {| stream := running [dataOnly "late"]; chunks := []; finished := true;
              err := Some EOF |} EOF).
  reflexivity.
Defined.

End processor_examples.

(** ** The byte buffer *)

Section buffer.
Import Transport.

Lemma copy_length (dst src : list ascii) : length (copy dst src).1 = length dst.
Proof.
  unfold copy. simpl. rewrite length_app, length_take, length_drop. lia.
Qed.

Lemma copy_prefix (dst src : list ascii) :
  length src <= length dst -> take (length src) (copy dst src).1 = src.
Proof.
  intros Hle. unfold copy. simpl. rewrite Nat.min_r by done.
  rewrite firstn_all. by rewrite take_app_length.
Qed.

(** One [Write] on a buffer whose position lies within its slice. *)
Lemma StreamBuffer_Write_bytes (sb : StreamBuffer) (data : list ascii) :
  pos sb <= length (buffer sb) ->
  StreamBuffer_Bytes (StreamBuffer_Write sb data).1 = StreamBuffer_Bytes sb ++ data /\
  pos (StreamBuffer_Write sb data).1 <= length (buffer (StreamBuffer_Write sb data).1) /\
  length (buffer sb) <= length (buffer (StreamBuffer_Write sb data).1).
Proof.
  intros Hinv. unfold StreamBuffer_Write, StreamBuffer_Bytes.
  set (grown :=
         if (length (buffer sb) <? pos sb + length data)%nat
         then _ else sb).
  assert (pos grown = pos sb /\ take (pos sb) (buffer grown) = take (pos sb) (buffer sb) /\
          pos sb + length data <= length (buffer grown) /\
          length (buffer sb) <= length (buffer grown)) as (Hpos & Htake & Hroom & Hcap).
  { subst grown. destruct (length (buffer sb) <? pos sb + length data)%nat eqn:E.
    - apply Nat.ltb_lt in E. cbn [buffer pos].
      set (newSize := if (length (buffer sb) * 2 <? pos sb + length data)%nat
                      then pos sb + length data else length (buffer sb) * 2).
      assert (pos sb + length data <= newSize /\ length (buffer sb) <= newSize) as [Hn Hc].
      { subst newSize. destruct (length (buffer sb) * 2 <? pos sb + length data)%nat eqn:E2.
        - split; lia.
        - apply Nat.ltb_ge in E2. split; lia. }
      rewrite copy_length, repeat_length.
      split; [done|]. split; [|done].
      pose proof (copy_prefix (repeat "000"%char newSize) (take (pos sb) (buffer sb))) as Hp.
      rewrite length_take, Nat.min_l, repeat_length in Hp by done.
      apply Hp. lia.
    - apply Nat.ltb_ge in E. repeat split; try done. }
  cbn [fst buffer pos]. rewrite Hpos, Htake.
  assert (length data <= length (drop (pos sb) (buffer grown))) as Hd.
  { rewrite length_drop. lia. }
  split; [|split].
  - rewrite take_app_add'; [|rewrite length_take; lia].
    f_equal. by apply copy_prefix.
  - rewrite length_app, length_take, copy_length, length_drop. lia.
  - rewrite length_app, length_take, copy_length, length_drop. lia.
Qed.

Lemma StreamBuffer_writes_bytes (chunks : list (list ascii)) (sb : StreamBuffer) :
  pos sb <= length (buffer sb) ->
  StreamBuffer_Bytes (StreamBuffer_writes sb chunks) = StreamBuffer_Bytes sb ++ concat chunks /\
  pos (StreamBuffer_writes sb chunks) <= length (buffer (StreamBuffer_writes sb chunks)) /\
  length (buffer sb) <= length (buffer (StreamBuffer_writes sb chunks)).
Proof.
  unfold StreamBuffer_writes. revert sb.
  induction chunks as [|data chunks IH]; intros sb Hinv; cbn [fold_left concat].
  - by rewrite app_nil_r.
  - destruct (StreamBuffer_Write_bytes sb data Hinv) as (Hb & Hi & Hc).
    destruct (IH _ Hi) as (Hb' & Hi' & Hc').
    split; [|split; [done|by etrans]].
    by rewrite Hb', Hb, <- app_assoc.
Qed.

(** X26. Whatever the initial size of a buffer and whatever is written to it,
    in however many calls of [Write], the buffer holds the bytes written,
    in order: [Bytes] is their concatenation and [Len] its length, and the
    slice behind the buffer never shrinks. *)
Theorem writes_accumulate (size : nat) (chunks : list (list ascii)) :
  StreamBuffer_Bytes (StreamBuffer_writes (NewStreamBuffer size) chunks) = concat chunks /\
  StreamBuffer_Len (StreamBuffer_writes (NewStreamBuffer size) chunks)
  = length (concat chunks) /\
  size <= length (buffer (StreamBuffer_writes (NewStreamBuffer size) chunks)).
Proof.
  assert (pos (NewStreamBuffer size) <= length (buffer (NewStreamBuffer size))) as H0.
  { simpl. apply Nat.le_0_l. }
  destruct (StreamBuffer_writes_bytes chunks _ H0) as (Hb & Hi & Hc).
  change (StreamBuffer_Bytes (NewStreamBuffer size)) with (@nil ascii) in Hb.
  change (buffer (NewStreamBuffer size)) with (repeat "000"%char size) in Hc.
  rewrite repeat_length in Hc. rewrite app_nil_l in Hb.
  split; [done|]. split; [|done].
  unfold StreamBuffer_Len. rewrite <- Hb. unfold StreamBuffer_Bytes.
  rewrite length_take. lia.
Qed.

Lemma lineFeed_split (line rest : list ascii) :
  "010"%char ∉ line -> lineFeed (line ++ "010"%char :: rest) = Some (length line).
Proof.
  induction line as [|b line IH]; intros Hnot; simpl; [done|].
  apply not_elem_of_cons in Hnot as [Hb Hline].
  destruct (Ascii.eqb b "010") eqn:E.
  - apply Ascii.eqb_eq in E. congruence.
  - by rewrite IH.
Qed.

Lemma lineFeed_none (line : list ascii) :
  "010"%char ∉ line -> lineFeed line = None.
Proof.
  induction line as [|b line IH]; intros Hnot; simpl; [done|].
  apply not_elem_of_cons in Hnot as [Hb Hline].
  destruct (Ascii.eqb b "010") eqn:E.
  - apply Ascii.eqb_eq in E. congruence.
  - by rewrite IH.
Qed.

(** X27. [ReadLine] takes the bytes up to the first line feed off the front
    of the buffer: it returns them trimmed, without an error, and the bytes
    after the line feed are what the buffer holds afterwards. *)
Theorem ReadLine_takes_first_line (sb : StreamBuffer) (line rest : list ascii) :
  pos sb <= length (buffer sb) ->
  StreamBuffer_Bytes sb = line ++ "010"%char :: rest ->
  "010"%char ∉ line ->
  (StreamBuffer_ReadLine sb).2 = (TrimSpace (string_of_list_ascii line), None) /\
  StreamBuffer_Bytes (StreamBuffer_ReadLine sb).1 = rest /\
  pos (StreamBuffer_ReadLine sb).1 <= length (buffer (StreamBuffer_ReadLine sb).1).
Proof.
  intros Hinv Hbytes Hline. unfold StreamBuffer_ReadLine, StreamBuffer_Bytes in *.
  assert (pos sb = length line + S (length rest)) as Hpos.
  { apply (f_equal length) in Hbytes.
    rewrite length_take, length_app in Hbytes. simpl in Hbytes. lia. }
  destruct (pos sb =? 0)%nat eqn:E; [apply Nat.eqb_eq in E; lia|].
  rewrite Hbytes, (lineFeed_split line rest Hline). cbn [fst snd buffer pos].
  rewrite take_app_length.
  replace (length line + 1) with (length (line ++ ["010"%char])) by (rewrite length_app; simpl; lia).
  replace (line ++ "010"%char :: rest) with ((line ++ ["010"%char]) ++ rest)
    by (by rewrite <- app_assoc).
  rewrite drop_app_length.
  split; [done|].
  replace (pos sb - length (line ++ ["010"%char])) with (length rest)
    by (rewrite length_app; simpl; lia).
  split.
  - apply copy_prefix. lia.
  - rewrite copy_length. lia.
Qed.

Lemma ReadLine_takes_first_line_witness :
  (StreamBuffer_ReadLine (StreamBuffer_Write (NewStreamBuffer 2)
                            (list_ascii_of_string (" a " +:+ String "010" "b"))).1).2
  = (TrimSpace (string_of_list_ascii (list_ascii_of_string " a ")), None) /\
  StreamBuffer_Bytes
    (StreamBuffer_ReadLine (StreamBuffer_Write (NewStreamBuffer 2)
                              (list_ascii_of_string (" a " +:+ String "010" "b"))).1).1
  = list_ascii_of_string "b" /\
  (pos (StreamBuffer_ReadLine (StreamBuffer_Write (NewStreamBuffer 2)
                              (list_ascii_of_string (" a " +:+ String "010" "b"))).1).1
   <= length (buffer (StreamBuffer_ReadLine (StreamBuffer_Write (NewStreamBuffer 2)
                              (list_ascii_of_string (" a " +:+ String "010" "b"))).1).1)).
Proof.
  apply (ReadLine_takes_first_line _ (list_ascii_of_string " a ") (list_ascii_of_string "b")).
  - vm_compute. lia.
  - reflexivity.
  - vm_compute. intros H. repeat (apply elem_of_cons in H as [H|H]; [discriminate H|]).
    by apply elem_of_nil in H.
Defined.

(** X28. What is left when the buffer holds no line feed: an empty buffer
    reports [io.EOF], and otherwise the whole content is returned as the
    last line and the buffer is empty afterwards. *)
Theorem ReadLine_without_line_feed (sb : StreamBuffer) :
  pos sb <= length (buffer sb) ->
  "010"%char ∉ StreamBuffer_Bytes sb ->
  (StreamBuffer_ReadLine sb).2
  = (if (StreamBuffer_Len sb =? 0)%nat then ("", Some EOF)
     else (TrimSpace (StreamBuffer_String sb), None)) /\
  StreamBuffer_Len (StreamBuffer_ReadLine sb).1 = 0.
Proof.
  intros Hinv Hnot. unfold StreamBuffer_ReadLine, StreamBuffer_Len, StreamBuffer_String.
  destruct (pos sb =? 0)%nat eqn:E.
  - apply Nat.eqb_eq in E. by simpl.
  - unfold StreamBuffer_Bytes in Hnot. by rewrite (lineFeed_none _ Hnot).
Qed.

Lemma ReadLine_without_line_feed_witness :
  (StreamBuffer_ReadLine (StreamBuffer_writes (NewStreamBuffer 0)
                            [list_ascii_of_string "data: "; list_ascii_of_string "hi "])).2
  = (if (StreamBuffer_Len (StreamBuffer_writes (NewStreamBuffer 0)
                             [list_ascii_of_string "data: "; list_ascii_of_string "hi "])
         =? 0)%nat
     then ("", Some EOF)
     else (TrimSpace (StreamBuffer_String
                        (StreamBuffer_writes (NewStreamBuffer 0)
                           [list_ascii_of_string "data: "; list_ascii_of_string "hi "])),
           None)) /\
  StreamBuffer_Len
    (StreamBuffer_ReadLine (StreamBuffer_writes (NewStreamBuffer 0)
                              [list_ascii_of_string "data: "; list_ascii_of_string "hi "])).1
  = 0.
Proof.
  apply (ReadLine_without_line_feed
           (StreamBuffer_writes (NewStreamBuffer 0)
              [list_ascii_of_string "data: "; list_ascii_of_string "hi "])).
  - vm_compute. lia.
  - vm_compute. intros H. repeat (apply elem_of_cons in H as [H|H]; [discriminate H|]).
    by apply elem_of_nil in H.
Defined.

End buffer.

(** ** Conversations *)

Section conversations.
Import Chat.

(** The lemmas on [CountTokens] and [keepNewest] are about the sums in [Z];
    the theorem on [TruncateMessages] states the range in which they are the
    sums of the code. *)

Lemma CountTokens_from (messages : list Types.ChatMessage) (totalTokens : Z) :
  fold_left
    (fun totalTokens message =>
       (totalTokens + Z.of_nat (String.length (Types.GetTextContent message)) / 4 + 10)%Z)
    messages totalTokens
  = (totalTokens + CountTokens messages)%Z.
Proof.
  unfold CountTokens. revert totalTokens.
  induction messages as [|m messages IH]; intros totalTokens; simpl; [lia|].
  rewrite IH, (IH (0 + _ + 10)%Z). lia.
Qed.

Lemma CountTokens_cons (m : Types.ChatMessage) (messages : list Types.ChatMessage) :
  CountTokens (m :: messages) = (CountTokens [m] + CountTokens messages)%Z.
Proof. unfold CountTokens at 1 2. simpl. by rewrite CountTokens_from. Qed.

Lemma CountTokens_app (a b : list Types.ChatMessage) :
  CountTokens (a ++ b) = (CountTokens a + CountTokens b)%Z.
Proof.
  induction a as [|m a IH]; simpl; [done|].
  rewrite CountTokens_cons, (CountTokens_cons m a), IH. lia.
Qed.

Lemma CountTokens_nonneg (messages : list Types.ChatMessage) :
  (10 * Z.of_nat (length messages) <= CountTokens messages)%Z.
Proof.
  induction messages as [|m messages IH]; [done|].
  rewrite CountTokens_cons. unfold CountTokens at 1. simpl length. simpl fold_left.
  pose proof (Z.div_pos (Z.of_nat (String.length (Types.GetTextContent m))) 4).
  lia.
Qed.

Lemma keepNewest_spec (otherMessages systemMessages : list Types.ChatMessage)
    (availableTokens : Z) (i : nat) :
  i <= length otherMessages ->
  (CountTokens (drop i otherMessages) <= availableTokens)%Z ->
  exists k,
    k <= i /\
    keepNewest otherMessages availableTokens i (drop i otherMessages ++ systemMessages)
      (CountTokens (drop i otherMessages))
    = drop k otherMessages ++ systemMessages /\
    (CountTokens (drop k otherMessages) <= availableTokens)%Z /\
    (k = 0 \/
     exists older, otherMessages !! (k - 1) = Some older /\
       (availableTokens < CountTokens (older :: drop k otherMessages))%Z).
Proof.
  induction i as [|i IH]; intros Hi Hfit; cbn [keepNewest].
  - exists 0. split; [lia|]. split; [done|]. split; [done|]. by left.
  - destruct (lookup_lt_is_Some_2 otherMessages i) as [m Hm]; [lia|].
    rewrite Hm.
    assert (drop i otherMessages = m :: drop (S i) otherMessages) as Hdrop.
    { by apply drop_S. }
    destruct (availableTokens <? CountTokens (drop (S i) otherMessages) + CountTokens [m])%Z
      eqn:E.
    + apply Z.ltb_lt in E. exists (S i). split; [lia|]. split; [done|]. split; [done|].
      right. exists m. rewrite Nat.sub_succ, Nat.sub_0_r. split; [done|].
      rewrite CountTokens_cons. lia.
    + apply Z.ltb_ge in E.
      assert (CountTokens (drop i otherMessages) <= availableTokens)%Z as Hfit'.
      { rewrite Hdrop, CountTokens_cons. lia. }
      destruct (IH ltac:(lia) Hfit') as (k & Hk & Heq & Hle & Hmax).
      exists k. split; [lia|]. split; [|done].
      rewrite <- Heq, Hdrop, (CountTokens_cons m (drop (S i) otherMessages)).
      by rewrite (Z.add_comm (CountTokens [m])).
Qed.

(** X29. [TruncateMessages] returns the newest messages that are not system
    messages, followed by all system messages: the messages kept are a
    suffix of the others, and either none is kept or those kept fit the
    budget together with the system messages; a message is dropped only
    when the budget is used up by the system messages or when keeping it
    with the newer ones would exceed the budget. This is for the messages
    and budgets for which the arithmetic of the code stays within the range
    of an [int]: the tokens of all messages count less than [2 ^ 63], and the
    budget is an [int] from which the tokens of the system messages can be
    subtracted without wrapping around. *)
Theorem TruncateMessages_keeps_newest (messages : list Types.ChatMessage) (maxTokens : Z) :
  (CountTokens messages < 2 ^ 63)%Z ->
  (- 2 ^ 63
   + CountTokens (List.filter (fun m => String.eqb (Types.Role m) Types.ChatRoleSystem) messages)
   <= maxTokens < 2 ^ 63)%Z ->
  exists dropped kept,
    List.filter (fun m => negb (String.eqb (Types.Role m) Types.ChatRoleSystem)) messages
    = dropped ++ kept /\
    TruncateMessages messages maxTokens
    = kept ++ List.filter (fun m => String.eqb (Types.Role m) Types.ChatRoleSystem) messages /\
    (kept = [] \/
     (CountTokens
        (List.filter (fun m => String.eqb (Types.Role m) Types.ChatRoleSystem) messages)
      + CountTokens kept <= maxTokens)%Z) /\
    (forall older, last dropped = Some older ->
       (maxTokens
        < CountTokens
            (List.filter (fun m => String.eqb (Types.Role m) Types.ChatRoleSystem) messages)
          + CountTokens (older :: kept))%Z).
Proof.
  intros _ _. unfold TruncateMessages.
  set (sys := List.filter (fun m => String.eqb (Types.Role m) Types.ChatRoleSystem) messages).
  set (others :=
         List.filter (fun m => negb (String.eqb (Types.Role m) Types.ChatRoleSystem)) messages).
  destruct (length messages =? 0)%nat eqn:E0.
  { apply Nat.eqb_eq in E0. destruct messages; [|done].
    exists [], []. repeat split; try done. by left. }
  destruct (maxTokens - CountTokens sys <=? 0)%Z eqn:E.
  - apply Z.leb_le in E. exists others, []. rewrite app_nil_r.
    split; [done|]. split; [done|]. split; [by left|].
    intros older _.
    pose proof (CountTokens_nonneg [older]) as H1. simpl length in H1. lia.
  - apply Z.leb_gt in E.
    pose proof (keepNewest_spec others sys (maxTokens - CountTokens sys) (length others)) as Hk.
    rewrite drop_all in Hk. change (CountTokens []) with 0%Z in Hk.
    destruct Hk as (k & Hle & Heq & Hfit & Hmax); [done|lia|]. cbn [app] in Heq.
    exists (take k others), (drop k others).
    split; [by rewrite take_drop|]. split; [exact Heq|]. split; [right; lia|].
    intros older Hlast.
    destruct Hmax as [->|(older' & Hlook & Hex)].
    + by rewrite take_0 in Hlast.
    + assert (older' = older) as ->.
      { rewrite last_lookup in Hlast. rewrite length_take in Hlast.
        assert (k - 1 < length others) as Hlt by (by apply lookup_lt_Some in Hlook).
        destruct k as [|k]; [by rewrite take_0 in Hlast|].
        rewrite Nat.min_l in Hlast by lia. simpl in Hlast, Hlook.
        rewrite Nat.sub_0_r in Hlook.
        rewrite lookup_take_lt in Hlast by lia. congruence. }
      lia.
Qed.

Lemma ExtractAssistantMessages_filter (messages : list Types.ChatMessage) :
  ExtractAssistantMessages messages
  = List.filter (fun m => String.eqb (Types.Role m) Types.ChatRoleAssistant) messages.
Proof.
  unfold ExtractAssistantMessages.
  assert (forall acc,
             fold_left
               (fun assistantMessages message =>
                  if String.eqb (Types.Role message) Types.ChatRoleAssistant
                  then assistantMessages ++ [message] else assistantMessages) messages acc
             = acc ++ List.filter
                        (fun m => String.eqb (Types.Role m) Types.ChatRoleAssistant) messages)
    as Hgen.
  { induction messages as [|m messages IH]; intros acc; simpl; [by rewrite app_nil_r|].
    rewrite IH. destruct (String.eqb (Types.Role m) Types.ChatRoleAssistant); [|done].
    by rewrite <- app_assoc. }
  by rewrite Hgen.
Qed.

Lemma lastAssistant_take (messages : list Types.ChatMessage) (i : nat) :
  i <= length messages ->
  lastAssistant messages i
  = last (List.filter (fun m => String.eqb (Types.Role m) Types.ChatRoleAssistant)
            (take i messages)).
Proof.
  induction i as [|i IH]; intros Hi; cbn [lastAssistant]; [by rewrite take_0|].
  destruct (lookup_lt_is_Some_2 messages i) as [m Hm]; [lia|].
  rewrite Hm, (take_S_r _ _ _ Hm), List.filter_app. simpl.
  destruct (String.eqb (Types.Role m) Types.ChatRoleAssistant).
  - by rewrite last_snoc.
  - rewrite app_nil_r. apply IH. lia.
Qed.

(** X30. [GetLastAssistantMessage] returns the last of the messages that
    [ExtractAssistantMessages] returns, and nil exactly when there is
    none; the messages extracted are those of role "assistant", in their
    order. *)
Theorem GetLastAssistantMessage_is_last_extracted (messages : list Types.ChatMessage) :
  GetLastAssistantMessage messages = last (ExtractAssistantMessages messages) /\
  ExtractAssistantMessages messages
  = List.filter (fun m => String.eqb (Types.Role m) Types.ChatRoleAssistant) messages /\
  (GetLastAssistantMessage messages = None <->
   Forall (fun m => Types.Role m <> Types.ChatRoleAssistant) messages).
Proof.
  rewrite ExtractAssistantMessages_filter. unfold GetLastAssistantMessage.
  rewrite lastAssistant_take, firstn_all by done.
  split; [done|]. split; [done|].
  rewrite last_None. split.
  - intros Hnil. apply Forall_forall. intros m Hin Hrole.
    assert (m ∈ List.filter (fun m => String.eqb (Types.Role m) Types.ChatRoleAssistant)
                  messages) as Hm.
    { apply list_elem_of_In, filter_In. split; [by apply list_elem_of_In|].
      by apply String.eqb_eq. }
    rewrite Hnil in Hm. by apply elem_of_nil in Hm.
  - intros Hall. induction Hall as [|m messages Hm Hall IH]; simpl; [done|].
    destruct (String.eqb (Types.Role m) Types.ChatRoleAssistant) eqn:E; [|done].
    by apply String.eqb_eq in E.
Qed.

End conversations.

Section conversations_examples.
Import Chat Scenarios.

Lemma TruncateMessages_keeps_newest_witness :
  exists dropped kept,
    List.filter (fun m => negb (String.eqb (Types.Role m) Types.ChatRoleSystem)) conversation
    = dropped ++ kept /\
    TruncateMessages conversation 55
    = kept ++ List.filter (fun m => String.eqb (Types.Role m) Types.ChatRoleSystem) conversation /\
    (kept = [] \/
     (CountTokens
        (List.filter (fun m => String.eqb (Types.Role m) Types.ChatRoleSystem) conversation)
      + CountTokens kept <= 55)%Z) /\
    (forall older, last dropped = Some older ->
       (55
        < CountTokens
            (List.filter (fun m => String.eqb (Types.Role m) Types.ChatRoleSystem) conversation)
          + CountTokens (older :: kept))%Z).
Proof.
  apply (TruncateMessages_keeps_newest conversation 55).
  - by vm_compute.
  - split; by vm_compute.
Defined.

(** On that conversation and with a budget of 55 tokens the oldest turn is
    dropped, and the system message comes last. *)
Lemma TruncateMessages_conversation :
  map Types.Role (TruncateMessages conversation 55) = ["assistant"; "user"; "system"].
Proof. reflexivity. Qed.

End conversations_examples.
